(** * Admission pipeline of the Supabase MCP server: a shallow embedding

    The Python sources under [src/supabase_mcp_server] are embedded as Rocq
    functions.  Python [str] values are Rocq strings whose characters are
    read as code points below 256; the embedding is exact on ASCII text
    (Python's [upper] leaves the Latin-1 range on a few non-ASCII letters).
    Dictionaries are [gmap]s, sets are [gset]s, exceptions are the [Raise]
    constructor of [Result], and mutable objects are threaded explicitly.
    [datetime] values are integers counting microseconds, and one call of a
    modelled method reads the clock once. *)

From stdpp Require Import gmap strings list pretty.
From Stdlib Require Import ZArith Ascii Lia.

Local Open Scope Z_scope.

(** ** Results of calls that may raise *)

Inductive Result (E A : Type) : Type :=
| Ok (a : A)
| Raise (e : E).
Arguments Ok {E A} a.
Arguments Raise {E A} e.

(** ** Python string methods *)

Module PyStr.

(** [str.isspace] on one character (code points below 256). *)
Definition isspace (c : ascii) : bool :=
  let n := N_of_ascii c in
  ((9 <=? n) && (n <=? 13) || (28 <=? n) && (n <=? 32)
   || (n =? 133) || (n =? 160))%N.

Definition upper_char (c : ascii) : ascii :=
  let n := N_of_ascii c in
  if ((97 <=? n) && (n <=? 122))%N then ascii_of_N (n - 32) else c.

Definition lower_char (c : ascii) : ascii :=
  let n := N_of_ascii c in
  if ((65 <=? n) && (n <=? 90))%N then ascii_of_N (n + 32) else c.

Fixpoint upper (s : string) : string :=
  match s with
  | EmptyString => EmptyString
  | String c s' => String (upper_char c) (upper s')
  end.

Fixpoint lower (s : string) : string :=
  match s with
  | EmptyString => EmptyString
  | String c s' => String (lower_char c) (lower s')
  end.

(** [s.lstrip(chars)], [s.rstrip(chars)] with the character set given as
    a predicate. *)
Fixpoint lstrip_by (p : ascii -> bool) (s : string) : string :=
  match s with
  | EmptyString => EmptyString
  | String c s' => if p c then lstrip_by p s' else s
  end.

Fixpoint rstrip_by (p : ascii -> bool) (s : string) : string :=
  match s with
  | EmptyString => EmptyString
  | String c s' =>
      match rstrip_by p s' with
      | EmptyString => if p c then EmptyString else String c EmptyString
      | r => String c r
      end
  end.

Definition lstrip : string -> string := lstrip_by isspace.
Definition rstrip : string -> string := rstrip_by isspace.
Definition strip (s : string) : string := lstrip (rstrip s).

(** [s.rstrip(c)] for a one-character argument. *)
Definition rstrip_char (c : ascii) : string -> string :=
  rstrip_by (Ascii.eqb c).

Definition startswith (s pre : string) : bool := String.prefix pre s.

Fixpoint endswith (s suf : string) : bool :=
  String.eqb s suf
  || match s with
     | EmptyString => false
     | String _ s' => endswith s' suf
     end.

(** [sub in s]. *)
Fixpoint contains (sub s : string) : bool :=
  String.prefix sub s
  || match s with
     | EmptyString => false
     | String _ s' => contains sub s'
     end.

(** [s.count(c)] for a one-character argument. *)
Fixpoint count_char (c : ascii) (s : string) : nat :=
  match s with
  | EmptyString => O
  | String d s' => (if Ascii.eqb c d then 1 else 0)%nat + count_char c s'
  end.

(** [s.split(c)[0]]: the text before the first separator. *)
Fixpoint split_first (c : ascii) (s : string) : string :=
  match s with
  | EmptyString => EmptyString
  | String d s' => if Ascii.eqb c d then EmptyString
                   else String d (split_first c s')
  end.

(** Number of pieces of [s.split(c)]. *)
Definition split_len (c : ascii) (s : string) : nat := S (count_char c s).

(** Truth value of a string: empty is false. *)
Definition truthy (s : string) : bool :=
  match s with EmptyString => false | _ => true end.

(** ["sep".join(l)]. *)
Fixpoint join (sep : string) (l : list string) : string :=
  match l with
  | [] => EmptyString
  | [x] => x
  | x :: l' => x +:+ sep +:+ join sep l'
  end.

End PyStr.

(** ** The fragment of Python's [re] the validator uses

    A backtracking matcher in continuation-passing style.  The matcher
    returns the first match in the engine's priority order (left
    alternative first, greedy repetition longest first, lazy repetition
    shortest first), together with the last character consumed, which
    [\b] needs at the next position. *)

Module Re.

Inductive cset : Type :=
| CChar (c : ascii)
| CRange (lo hi : ascii)
| CSpace.

Inductive regex : Type :=
| Eps
| Chr (c : ascii)
| Dot
| In_ (items : list cset)
| Cat (r1 r2 : regex)
| Alt (r1 r2 : regex)
| Star (r : regex)
| StarLazy (r : regex)
| WordB
| Eol.

Record flags : Type := mkFlags {
  IGNORECASE : bool;
  MULTILINE : bool;
  DOTALL : bool
}.

Definition no_flags : flags := mkFlags false false false.

(** [r+]. *)
Definition Plus (r : regex) : regex := Cat r (Star r).

(** A literal word. *)
Fixpoint lit (s : string) : regex :=
  match s with
  | EmptyString => Eps
  | String c EmptyString => Chr c
  | String c s' => Cat (Chr c) (lit s')
  end.

Fixpoint seq (l : list regex) : regex :=
  match l with
  | [] => Eps
  | [r] => r
  | r :: l' => Cat r (seq l')
  end.

Fixpoint alts (l : list regex) : regex :=
  match l with
  | [] => Eps
  | [r] => r
  | r :: l' => Alt r (alts l')
  end.

Definition newline : ascii := "010"%char.

(** [\w] on ASCII: letters, digits and the underscore. *)
Definition is_word (c : ascii) : bool :=
  let n := N_of_ascii c in
  ((48 <=? n) && (n <=? 57) || (65 <=? n) && (n <=? 90)
   || (97 <=? n) && (n <=? 122) || (n =? 95))%N.

Definition is_word_opt (o : option ascii) : bool :=
  match o with Some c => is_word c | None => false end.

Definition head (s : string) : option ascii :=
  match s with EmptyString => None | String c _ => Some c end.

Definition chr_matches (fl : flags) (c d : ascii) : bool :=
  if IGNORECASE fl
  then Ascii.eqb (PyStr.lower_char c) (PyStr.lower_char d)
  else Ascii.eqb c d.

Definition cset_has (i : cset) (d : ascii) : bool :=
  match i with
  | CChar c => Ascii.eqb c d
  | CRange lo hi =>
      ((N_of_ascii lo <=? N_of_ascii d) && (N_of_ascii d <=? N_of_ascii hi))%N
  | CSpace => PyStr.isspace d
  end.

Definition in_matches (fl : flags) (items : list cset) (d : ascii) : bool :=
  existsb
    (fun i =>
       if IGNORECASE fl
       then cset_has i (PyStr.lower_char d) || cset_has i (PyStr.upper_char d)
       else cset_has i d)
    items.

Definition state : Type := (option ascii * string)%type.
Definition cont : Type := option ascii -> string -> option state.

Definition accept : cont := fun prev s => Some (prev, s).

(** The two repetition loops.  [body] matches the repeated expression
    once; an iteration that consumes nothing is not repeated, and [n]
    bounds the number of iterations by the length of the text. *)
Definition star_greedy (body : option ascii -> string -> cont -> option state)
    (k : cont) : nat -> option ascii -> string -> option state :=
  fix loop (n : nat) (prev : option ascii) (s : string) : option state :=
    match n with
    | O => k prev s
    | S n' =>
        match body prev s
                (fun p s' =>
                   if (String.length s' <? String.length s)%nat
                   then loop n' p s' else None) with
        | Some x => Some x
        | None => k prev s
        end
    end.

Definition star_lazy (body : option ascii -> string -> cont -> option state)
    (k : cont) : nat -> option ascii -> string -> option state :=
  fix loop (n : nat) (prev : option ascii) (s : string) : option state :=
    match k prev s with
    | Some x => Some x
    | None =>
        match n with
        | O => None
        | S n' =>
            body prev s
              (fun p s' =>
                 if (String.length s' <? String.length s)%nat
                 then loop n' p s' else None)
        end
    end.

Fixpoint m (fl : flags) (r : regex) (prev : option ascii) (s : string)
    (k : cont) {struct r} : option state :=
  match r with
  | Eps => k prev s
  | Chr c =>
      match s with
      | String d s' => if chr_matches fl c d then k (Some d) s' else None
      | EmptyString => None
      end
  | Dot =>
      match s with
      | String d s' =>
          if DOTALL fl || negb (Ascii.eqb d newline) then k (Some d) s'
          else None
      | EmptyString => None
      end
  | In_ items =>
      match s with
      | String d s' => if in_matches fl items d then k (Some d) s' else None
      | EmptyString => None
      end
  | Cat r1 r2 => m fl r1 prev s (fun p s' => m fl r2 p s' k)
  | Alt r1 r2 =>
      match m fl r1 prev s k with
      | Some x => Some x
      | None => m fl r2 prev s k
      end
  | Star r1 => star_greedy (m fl r1) k (String.length s) prev s
  | StarLazy r1 => star_lazy (m fl r1) k (String.length s) prev s
  | WordB =>
      if xorb (is_word_opt prev) (is_word_opt (head s)) then k prev s
      else None
  | Eol =>
      match s with
      | EmptyString => k prev s
      | String d s' =>
          if Ascii.eqb d newline
             && (MULTILINE fl
                 || match s' with EmptyString => true | _ => false end)
          then k prev s else None
      end
  end.

(** A match starting exactly at the current position. *)
Definition match_here (fl : flags) (r : regex) (prev : option ascii)
    (s : string) : option state :=
  m fl r prev s accept.

(** [pattern.search(s)] as a truth value. *)
Fixpoint search_from (fl : flags) (r : regex) (prev : option ascii)
    (s : string) : bool :=
  match match_here fl r prev s with
  | Some _ => true
  | None =>
      match s with
      | EmptyString => false
      | String c s' => search_from fl r (Some c) s'
      end
  end.

Definition search (fl : flags) (r : regex) (s : string) : bool :=
  search_from fl r None s.

(** [len(pattern.findall(s))]: the matches do not overlap; after an
    empty match the scan moves on by one character. *)
Fixpoint count_from (fuel : nat) (fl : flags) (r : regex)
    (prev : option ascii) (s : string) : nat :=
  match fuel with
  | O => O
  | S fuel' =>
      let step :=
        match s with
        | EmptyString => O
        | String c s' => count_from fuel' fl r (Some c) s'
        end in
      match match_here fl r prev s with
      | Some (p, rest) =>
          if (String.length rest <? String.length s)%nat
          then S (count_from fuel' fl r p rest)
          else S step
      | None => step
      end
  end.

Definition findall_len (fl : flags) (r : regex) (s : string) : nat :=
  count_from (S (String.length s)) fl r None s.

(** [pattern.sub(repl, s)] for a replacement without group references. *)
Fixpoint sub_from (fuel : nat) (fl : flags) (r : regex) (repl : string)
    (prev : option ascii) (s : string) : string :=
  match fuel with
  | O => s
  | S fuel' =>
      match match_here fl r prev s with
      | Some (p, rest) =>
          if (String.length rest <? String.length s)%nat
          then repl +:+ sub_from fuel' fl r repl p rest
          else match s with
               | EmptyString => repl
               | String c s' =>
                   repl +:+ String c (sub_from fuel' fl r repl (Some c) s')
               end
      | None =>
          match s with
          | EmptyString => EmptyString
          | String c s' => String c (sub_from fuel' fl r repl (Some c) s')
          end
      end
  end.

Definition sub (fl : flags) (r : regex) (repl s : string) : string :=
  sub_from (S (String.length s)) fl r repl None s.

(** Two continuations that return the same results, and the continuation
    that always fails. *)
Definition agree (k1 k2 : cont) : Prop := forall p s, k1 p s = k2 p s.

Definition fail : cont := fun _ _ => None.

End Re.

(** ** Requests as the middleware sees them

    [headers] holds the header names in lower case, as the ASGI server
    delivers them; [client] is the transport peer when there is one. *)

Module Http.

Record Request : Type := mkRequest {
  headers : list (string * string);
  query_params : list (string * string);
  client : option string;
  url_path : string;
  url_query : string
}.

Fixpoint assoc_get (k : string) (l : list (string * string))
  : option string :=
  match l with
  | [] => None
  | (k', v) :: l' => if String.eqb k k' then Some v else assoc_get k l'
  end.

(** [request.headers.get(name)]: the lookup ignores the case of [name]. *)
Definition headers_get (r : Request) (name : string) : option string :=
  assoc_get (PyStr.lower name) (headers r).

(** [name in request.headers]. *)
Definition headers_mem (r : Request) (name : string) : bool :=
  match headers_get r name with Some _ => true | None => false end.

Definition query_params_get (r : Request) (name : string)
  : option string :=
  assoc_get name (query_params r).

(** An [Optional[str]] that is neither [None] nor empty. *)
Definition nonempty (o : option string) : option string :=
  match o with
  | Some s => if PyStr.truthy s then Some s else None
  | None => None
  end.

Inductive Exception : Type :=
| HTTPException (status_code : Z) (detail : string)
                (resp_headers : list (string * string))
| RateLimitExceeded (message : string) (retry_after : Z).

Definition HTTP_429_TOO_MANY_REQUESTS : Z := 429.

End Http.

(** ** middleware/auth.py *)

Module Auth.

Abbreviation datetime := Z.
Abbreviation timedelta := Z.
Definition minutes (n : Z) : timedelta := n * 60 * 1000000.

Record AuthContext : Type := mkAuthContext {
  user_id : option string;
  email : option string;
  role : option string;
  is_authenticated : bool;
  auth_method : option string;
  permissions : option (gmap string bool);
  expires_at : option datetime
}.

(** [AuthContext(is_authenticated=False)]: every field at its default. *)
Definition unauthenticated : AuthContext :=
  mkAuthContext None None None false None None None.

Record AuthenticationError : Type := mkAuthenticationError {
  message : string;
  status_code : Z
}.

Definition HTTP_403_FORBIDDEN : Z := 403.

(** [AuthenticationError(message)] with the default [status_code=401]. *)
Definition AuthenticationError_ (msg : string) : AuthenticationError :=
  mkAuthenticationError msg 401.

(** [d.get(k, False)] on an [Optional[Dict[str, bool]]] that is known to be
    a dictionary. *)
Definition dict_get (d : gmap string bool) (k : string) : bool :=
  default false (d !! k).

(** Truth value of an [Optional[Dict]]: [None] and [{}] are false. *)
Definition dict_truthy (d : option (gmap string bool)) : bool :=
  match d with
  | None => false
  | Some m => negb (bool_decide (m = ∅))
  end.

Definition require_authentication (auth_context : AuthContext)
  : Result AuthenticationError unit :=
  if negb (is_authenticated auth_context)
  then Raise (AuthenticationError_ "Authentication required")
  else Ok tt.

Definition require_permission (auth_context : AuthContext)
    (permission : string) : Result AuthenticationError unit :=
  if negb (is_authenticated auth_context)
  then Raise (AuthenticationError_ "Authentication required")
  else if negb (dict_truthy (permissions auth_context))
          || negb (match permissions auth_context with
                   | Some m => dict_get m permission
                   | None => false
                   end)
  then Raise (mkAuthenticationError
                ("Permission '" +:+ permission +:+ "' required")
                HTTP_403_FORBIDDEN)
  else Ok tt.


(** [_get_role_permissions]. *)
Definition perms (r w a : bool) : gmap string bool :=
  <["read" := r]> (<["write" := w]> (<["admin" := a]> ∅)).

Definition _get_role_permissions (role : option string)
  : gmap string bool :=
  match role with
  | Some "anon" => perms true false false
  | Some "authenticated" => perms true true false
  | Some "service_role" => perms true true true
  | _ => perms false false false
  end.

(** A context lacks a permission when its permission table is missing,
    has no entry for it, or maps it to false. *)
Definition lacks_permission (auth_context : AuthContext)
    (permission : string) : Prop :=
  match permissions auth_context with
  | None => True
  | Some m => m !! permission = None ∨ m !! permission = Some false
  end.

(** *** Credentials *)

Record Settings : Type := mkSettings {
  mcp_api_key : string;
  supabase_service_role_key : string
}.

(** The claims [_authenticate_jwt_token] reads from a decoded token;
    [claim_exp] counts seconds. *)
Record Claims : Type := mkClaims {
  claim_sub : option string;
  claim_email : option string;
  claim_role : option (option string);
  claim_exp : option Z
}.

Definition fromtimestamp (exp : Z) : datetime := exp * 1000000.

Abbreviation TokenCache := (gmap string (AuthContext * datetime)).

Definition _cache_ttl : timedelta := minutes 5.

Definition _get_from_cache (cache : TokenCache) (token : string)
    (now : datetime) : option AuthContext * TokenCache :=
  match cache !! token with
  | Some (context, cached_at) =>
      if now - cached_at <? _cache_ttl
      then (Some context, cache)
      else (None, delete token cache)
  | None => (None, cache)
  end.

Definition _set_cache (cache : TokenCache) (token : string)
    (context : AuthContext) (now : datetime) : TokenCache :=
  let cache1 := <[token := (context, now)]> cache in
  if (1000 <? size cache1)%nat
  then let cutoff := now - _cache_ttl in
       filter (fun kv => ¬ (snd (snd kv) < cutoff)) cache1
  else cache1.

Section Authenticate.

(** [jwt.decode(token, options={"verify_signature": False})]; [None]
    stands for any exception it raises. *)
Variable jwt_decode : string -> option Claims.
Variable settings : Settings.

Definition _authenticate_api_key (api_key : string)
  : option AuthContext :=
  if negb (PyStr.truthy api_key) then None
  else if String.eqb api_key (mcp_api_key settings)
  then Some (mkAuthContext (Some "api_user") None None true
               (Some "api_key") (Some (perms true true false)) None)
  else None.

Definition _authenticate_jwt_token (cache : TokenCache) (token : string)
    (now : datetime) : option AuthContext * TokenCache :=
  if negb (PyStr.truthy token) then (None, cache)
  else
    match _get_from_cache cache token now with
    | (Some cached_context, cache1) => (Some cached_context, cache1)
    | (None, cache1) =>
        match jwt_decode token with
        | None => (None, cache1)
        | Some decoded =>
            let user_id := claim_sub decoded in
            let email := claim_email decoded in
            let role := default (Some "authenticated")
                          (claim_role decoded) in
            let exp := claim_exp decoded in
            match Http.nonempty user_id with
            | None => (None, cache1)
            | Some _ =>
                let expired :=
                  match exp with
                  | Some e => negb (e =? 0) && (fromtimestamp e <? now)
                  | None => false
                  end in
                if expired then (None, cache1)
                else
                  let auth_context :=
                    mkAuthContext user_id email role true (Some "jwt")
                      (Some (_get_role_permissions role))
                      (match exp with
                       | Some e => if e =? 0 then None
                                   else Some (fromtimestamp e)
                       | None => None
                       end) in
                  (Some auth_context,
                   _set_cache cache1 token auth_context now)
            end
        end
    end.

Definition _authenticate_service_key (service_key : string)
  : option AuthContext :=
  if negb (PyStr.truthy service_key) then None
  else if String.eqb service_key (supabase_service_role_key settings)
  then Some (mkAuthContext (Some "service_role") None
               (Some "service_role") true (Some "service_role")
               (Some (perms true true true)) None)
  else None.

Definition _extract_api_key (request : Http.Request) : option string :=
  match Http.nonempty (Http.headers_get request "X-API-Key") with
  | Some k => Some k
  | None => Http.nonempty (Http.query_params_get request "api_key")
  end.

(** [str.partition(" ")]: the text before and after the first space. *)
Fixpoint after_first_space (s : string) : string :=
  match s with
  | EmptyString => EmptyString
  | String c s' => if Ascii.eqb c " " then s' else after_first_space s'
  end.

(** [HTTPBearer(auto_error=False)] applied to the request. *)
Definition http_bearer (request : Http.Request) : option string :=
  match Http.headers_get request "Authorization" with
  | None => None
  | Some authorization =>
      let scheme := PyStr.split_first " " authorization in
      let credentials := after_first_space authorization in
      if negb (PyStr.truthy authorization && PyStr.truthy scheme
               && PyStr.truthy credentials)
      then None
      else if negb (String.eqb (PyStr.lower scheme) "bearer") then None
      else Some credentials
  end.

Definition _extract_jwt_token (request : Http.Request)
  : option string :=
  match http_bearer request with
  | Some credentials => Some credentials
  | None => Http.nonempty (Http.headers_get request "X-JWT-Token")
  end.

Definition _extract_service_key (request : Http.Request)
  : option string :=
  Http.nonempty (Http.headers_get request "X-Service-Role-Key").

Definition authenticate_request (cache : TokenCache)
    (request : Http.Request) (now : datetime)
  : AuthContext * TokenCache :=
  let auth_context :=
    match _extract_api_key request with
    | Some api_key => _authenticate_api_key api_key
    | None => None
    end in
  let '(auth_context, cache) :=
    match auth_context with
    | Some c => (Some c, cache)
    | None =>
        match _extract_jwt_token request with
        | Some token => _authenticate_jwt_token cache token now
        | None => (None, cache)
        end
    end in
  let auth_context :=
    match auth_context with
    | Some c => Some c
    | None =>
        match _extract_service_key request with
        | Some service_key => _authenticate_service_key service_key
        | None => None
        end
    end in
  match auth_context with
  | None => (unauthenticated, cache)
  | Some c => (c, cache)
  end.

End Authenticate.

(** The caches the middleware passes through while it authenticates
    tokens, of any kind, at instants less than the TTL after [cached_at]. *)
Inductive busy (jwt_decode : string -> option Claims) (cached_at : datetime)
  : TokenCache -> TokenCache -> Prop :=
| busy_refl cache : busy jwt_decode cached_at cache cache
| busy_step cache cache' token now :
    busy jwt_decode cached_at cache cache' ->
    now - cached_at < _cache_ttl ->
    busy jwt_decode cached_at cache
      (snd (_authenticate_jwt_token jwt_decode cache' token now)).

(** The contexts [_authenticate_jwt_token] stores: authenticated, of
    method "jwt", with a user id. *)
Definition jwt_entry (context : AuthContext) : Prop :=
  is_authenticated context = true
  /\ auth_method context = Some "jwt"
  /\ exists u, user_id context = Some u /\ u <> EmptyString.

Definition cache_ok (cache : TokenCache) : Prop :=
  map_Forall (fun _ entry => jwt_entry (fst entry)) cache.

(** The role a decoded token stands for:
    [decoded.get("role", "authenticated")]. *)
Definition effective_role (decoded : Claims) : option string :=
  default (Some "authenticated") (claim_role decoded).


End Auth.

(** ** middleware/rate_limit.py *)

Module RateLimit.

Import Http.

Abbreviation datetime := Z.
Abbreviation timedelta := Z.
Definition seconds (n : Z) : timedelta := n * 1000000.
Definition minutes (n : Z) : timedelta := seconds (n * 60).
Definition hours (n : Z) : timedelta := minutes (n * 60).

(** [int(d.total_seconds())]. *)
Definition total_seconds_int (d : timedelta) : Z := Z.quot d 1000000.

(** [str(n)] for an integer. *)
Definition str_int (n : Z) : string := pretty n.

(** [str(d.total_seconds())] for a duration of whole seconds. *)
Definition str_total_seconds (d : timedelta) : string :=
  str_int (total_seconds_int d) +:+ ".0".

Record RateLimitInfo : Type := mkRateLimitInfo {
  requests : list datetime;
  blocked_until : option datetime;
  total_requests : Z;
  blocked_requests : Z;
  first_request : option datetime;
  last_request : option datetime
}.

(** [RateLimitInfo()], the value a [defaultdict] creates on a miss. *)
Definition RateLimitInfo_default : RateLimitInfo :=
  mkRateLimitInfo [] None 0 0 None None.

Record SecurityEvent : Type := mkSecurityEvent {
  timestamp : datetime;
  client_ip : string;
  event_type : string;
  details : string;
  severity : string;
  user_agent : option string;
  endpoint : option string
}.

(** Values of [ipaddress.ip_address] and [ipaddress.ip_network]. *)
Inductive IPAddress : Type :=
| IPv4Address (ip : Z)
| IPv6Address (ip : Z).

Record IPNetwork : Type := mkIPNetwork {
  net_version : Z;
  network_address : Z;
  netmask : Z
}.

Definition ip_version (a : IPAddress) : Z :=
  match a with IPv4Address _ => 4 | IPv6Address _ => 6 end.

Definition ip_int (a : IPAddress) : Z :=
  match a with IPv4Address n => n | IPv6Address n => n end.

(** [address in network]. *)
Definition network_contains (net : IPNetwork) (a : IPAddress) : bool :=
  if negb (net_version net =? ip_version a) then false
  else Z.land (ip_int a) (netmask net) =? network_address net.

Definition ipv4 (a b c d : Z) : Z :=
  Z.lor (Z.shiftl a 24) (Z.lor (Z.shiftl b 16) (Z.lor (Z.shiftl c 8) d)).

(** [ip_network("a.b.c.d/len")] for an IPv4 prefix. *)
Definition ip_network4 (a b c d len : Z) : IPNetwork :=
  mkIPNetwork 4 (ipv4 a b c d)
    (Z.shiftl (Z.ones len) (32 - len)).

Record SecurityMiddleware : Type := mkSecurityMiddleware {
  _rate_limits : gmap string RateLimitInfo;
  _blocked_ips : gset string;
  _security_events : list SecurityEvent;
  rate_limit_window : timedelta;
  max_requests_per_window : Z;
  block_duration : timedelta;
  max_violations_before_block : Z;
  trusted_networks : list IPNetwork;
  suspicious_user_agents : list string
}.

(** [SecurityMiddleware()] for a given [settings.rate_limit_per_minute]. *)
Definition SecurityMiddleware_init (rate_limit_per_minute : Z)
  : SecurityMiddleware :=
  mkSecurityMiddleware ∅ ∅ []
    (minutes 1) rate_limit_per_minute (minutes 15) 5
    [ ip_network4 127 0 0 0 8;
      ip_network4 10 0 0 0 8;
      ip_network4 172 16 0 0 12;
      ip_network4 192 168 0 0 16 ]
    [ "sqlmap"; "nikto"; "nmap"; "masscan"; "zap"; "burp";
      "bot"; "crawler"; "spider"; "scraper" ].

Definition set_rate_limits (self : SecurityMiddleware)
    (m : gmap string RateLimitInfo) : SecurityMiddleware :=
  mkSecurityMiddleware m (_blocked_ips self) (_security_events self)
    (rate_limit_window self) (max_requests_per_window self)
    (block_duration self) (max_violations_before_block self)
    (trusted_networks self) (suspicious_user_agents self).

Definition set_blocked_ips (self : SecurityMiddleware)
    (b : gset string) : SecurityMiddleware :=
  mkSecurityMiddleware (_rate_limits self) b (_security_events self)
    (rate_limit_window self) (max_requests_per_window self)
    (block_duration self) (max_violations_before_block self)
    (trusted_networks self) (suspicious_user_agents self).

Definition set_security_events (self : SecurityMiddleware)
    (e : list SecurityEvent) : SecurityMiddleware :=
  mkSecurityMiddleware (_rate_limits self) (_blocked_ips self) e
    (rate_limit_window self) (max_requests_per_window self)
    (block_duration self) (max_violations_before_block self)
    (trusted_networks self) (suspicious_user_agents self).

(** [deque(maxlen=1000).append(x)]: a full deque drops its oldest entry. *)
Definition deque_append {A} (maxlen : nat) (d : list A) (x : A) : list A :=
  if (maxlen <=? length d)%nat then drop (S (length d) - maxlen) (d ++ [x])
  else d ++ [x].

(** [while d and d[0] < cutoff: d.popleft()]. *)
Fixpoint popleft_older (cutoff : datetime) (d : list datetime)
  : list datetime :=
  match d with
  | [] => []
  | t :: d' => if t <? cutoff then popleft_older cutoff d' else d
  end.

Definition _log_security_event (self : SecurityMiddleware)
    (client_ip event_type details severity : string)
    (request : Request) (now : datetime) : SecurityMiddleware :=
  let event :=
    mkSecurityEvent now client_ip event_type details severity
      (headers_get request "user-agent") (Some (url_path request)) in
  set_security_events self
    (deque_append 1000 (_security_events self) event).

Section WithIpAddress.

(** [ipaddress.ip_address]; [None] stands for [ValueError]. *)
Variable ip_address : string -> option IPAddress.

Definition headers_to_check : list string :=
  [ "x-forwarded-for"; "x-real-ip"; "x-forwarded";
    "x-cluster-client-ip"; "forwarded-for"; "forwarded" ].

Fixpoint first_header_ip (request : Request) (hs : list string)
  : option string :=
  match hs with
  | [] => None
  | header :: hs' =>
      match headers_get request header with
      | Some value =>
          let ip := PyStr.strip (PyStr.split_first "," value) in
          match ip_address ip with
          | Some _ => Some ip
          | None => first_header_ip request hs'
          end
      | None => first_header_ip request hs'
      end
  end.

Definition _get_client_ip (request : Request) : string :=
  match first_header_ip request headers_to_check with
  | Some ip => ip
  | None => match client request with
            | Some host => host
            | None => "unknown"
            end
  end.

Definition _is_trusted_ip (self : SecurityMiddleware) (ip : string)
  : bool :=
  match ip_address ip with
  | Some client_ip =>
      existsb (fun network => network_contains network client_ip)
        (trusted_networks self)
  | None => false
  end.

Definition check_rate_limit (self : SecurityMiddleware)
    (request : Request) (now : datetime)
  : Result Exception unit * SecurityMiddleware :=
  let client_ip := _get_client_ip request in
  if _is_trusted_ip self client_ip then (Ok tt, self)
  else if bool_decide (client_ip ∈ _blocked_ips self) then
    let self := _log_security_event self client_ip "blocked_request"
                  "Request from blocked IP" "medium" request now in
    (Raise (HTTPException HTTP_429_TOO_MANY_REQUESTS
              "IP address is temporarily blocked"
              [("Retry-After",
                str_int (total_seconds_int (block_duration self)))]),
     self)
  else
    let rate_info :=
      default RateLimitInfo_default (_rate_limits self !! client_ip) in
    let self :=
      set_rate_limits self (<[client_ip := rate_info]> (_rate_limits self)) in
    let still_blocked :=
      match blocked_until rate_info with
      | Some b => now <? b
      | None => false
      end in
    if still_blocked then
      let remaining_seconds :=
        total_seconds_int (default 0 (blocked_until rate_info) - now) in
      let self :=
        _log_security_event self client_ip "rate_limit_blocked"
          ("Request blocked, " +:+ str_int remaining_seconds
           +:+ "s remaining") "low" request now in
      (Raise (RateLimitExceeded
                ("Rate limit exceeded. Try again in "
                 +:+ str_int remaining_seconds +:+ " seconds.")
                remaining_seconds),
       self)
    else
      let cutoff_time := now - rate_limit_window self in
      let reqs := popleft_older cutoff_time (requests rate_info) in
      if max_requests_per_window self <=? Z.of_nat (length reqs) then
        let violations := blocked_requests rate_info + 1 in
        let block := max_violations_before_block self <=? violations in
        let rate_info :=
          mkRateLimitInfo reqs
            (if block then Some (now + block_duration self)
             else blocked_until rate_info)
            (total_requests rate_info) violations
            (first_request rate_info) (last_request rate_info) in
        let self :=
          set_rate_limits self
            (<[client_ip := rate_info]> (_rate_limits self)) in
        let self :=
          if block then
            _log_security_event
              (set_blocked_ips self ({[client_ip]} ∪ _blocked_ips self))
              client_ip "ip_blocked"
              ("IP blocked for " +:+ str_total_seconds (block_duration self)
               +:+ "s due to repeated violations") "high" request now
          else self in
        let retry_after := total_seconds_int (rate_limit_window self) in
        let self :=
          _log_security_event self client_ip "rate_limit_exceeded"
            ("Rate limit exceeded: " +:+ str_int (Z.of_nat (length reqs))
             +:+ "/" +:+ str_int (max_requests_per_window self))
            "medium" request now in
        (Raise (RateLimitExceeded
                  ("Rate limit exceeded. Maximum "
                   +:+ str_int (max_requests_per_window self)
                   +:+ " requests per minute.")
                  retry_after),
         self)
      else
        let rate_info :=
          mkRateLimitInfo (reqs ++ [now]) (blocked_until rate_info)
            (total_requests rate_info + 1) (blocked_requests rate_info)
            (match first_request rate_info with
             | Some f => Some f
             | None => Some now
             end)
            (Some now) in
        (Ok tt,
         set_rate_limits self
           (<[client_ip := rate_info]> (_rate_limits self))).

Definition suspicious_headers : list (string * string) :=
  [ ("x-forwarded-for", "potential_proxy_abuse");
    ("x-real-ip", "potential_ip_spoofing");
    ("x-originating-ip", "potential_ip_spoofing");
    ("x-remote-ip", "potential_ip_spoofing");
    ("x-cluster-client-ip", "potential_ip_spoofing") ].

Definition _check_suspicious_headers (self : SecurityMiddleware)
    (request : Request) (client_ip : string) (now : datetime)
  : SecurityMiddleware :=
  fold_left
    (fun self '(header, threat_type) =>
       match headers_get request header with
       | Some header_value =>
           if PyStr.contains "," header_value
              && (3 <? PyStr.split_len "," header_value)%nat
           then _log_security_event self client_ip threat_type
                  ("Suspicious header " +:+ header +:+ ": "
                   +:+ header_value) "low" request now
           else self
       | None => self
       end)
    suspicious_headers self.

Definition sql_patterns : list string :=
  [ "union select"; "drop table"; "insert into"; "delete from";
    "update set"; "exec("; "execute("; "sp_"; "xp_"; "0x";
    "char("; "ascii("; "substring("; "waitfor delay" ].

Definition xss_patterns : list string :=
  [ "<script"; "javascript:"; "onload="; "onerror="; "onclick=";
    "eval("; "alert("; "document.cookie"; "window.location" ].

Definition traversal_patterns : list string :=
  [ "../"; "..\"; "%2e%2e%2f"; "%2e%2e%5c"; "....//"; "....\\";
    "/etc/passwd"; "/etc/shadow"; "c:\windows"; "c:/windows" ].

(** [for pattern in patterns: if pattern in full_url: log; break]. *)
Definition log_first_match (self : SecurityMiddleware)
    (patterns : list string) (full_url client_ip event_type label : string)
    (request : Request) (now : datetime) : SecurityMiddleware :=
  match find (fun pattern => PyStr.contains pattern full_url) patterns with
  | Some pattern =>
      _log_security_event self client_ip event_type
        (label +:+ pattern) "high" request now
  | None => self
  end.

Definition _check_suspicious_url (self : SecurityMiddleware)
    (request : Request) (client_ip : string) (now : datetime)
  : SecurityMiddleware :=
  let full_url :=
    PyStr.lower (url_path request) +:+ " "
    +:+ PyStr.lower (url_query request) in
  let self := log_first_match self sql_patterns full_url client_ip
                "sql_injection_attempt"
                "SQL injection pattern detected: " request now in
  let self := log_first_match self xss_patterns full_url client_ip
                "xss_attempt" "XSS pattern detected: " request now in
  log_first_match self traversal_patterns full_url client_ip
    "path_traversal_attempt" "Path traversal pattern detected: "
    request now.

Definition check_security_threats (self : SecurityMiddleware)
    (request : Request) (now : datetime) : SecurityMiddleware :=
  let client_ip := _get_client_ip request in
  let user_agent :=
    PyStr.lower (default EmptyString (headers_get request "user-agent")) in
  let self :=
    if existsb (fun suspicious_ua => PyStr.contains suspicious_ua user_agent)
         (suspicious_user_agents self)
    then _log_security_event self client_ip "suspicious_user_agent"
           ("Suspicious user agent detected: " +:+ user_agent)
           "medium" request now
    else self in
  let self := _check_suspicious_headers self request client_ip now in
  _check_suspicious_url self request client_ip now.

End WithIpAddress.

(** [_cleanup_old_data], the body of the five-minute sweep. *)
Definition prune_requests (cutoff_time : datetime) (rate_info : RateLimitInfo)
  : RateLimitInfo :=
  mkRateLimitInfo (popleft_older cutoff_time (requests rate_info))
    (blocked_until rate_info) (total_requests rate_info)
    (blocked_requests rate_info) (first_request rate_info)
    (last_request rate_info).

Definition is_expired (cutoff_time : datetime) (rate_info : RateLimitInfo)
  : bool :=
  match requests rate_info, last_request rate_info with
  | [], Some l => l <? cutoff_time
  | _, _ => false
  end.

Definition block_elapsed (m : gmap string RateLimitInfo) (now : datetime)
    (ip : string) : bool :=
  match m !! ip with
  | Some rate_info =>
      match blocked_until rate_info with
      | Some b => b <? now
      | None => false
      end
  | None => false
  end.

Definition clear_block (rate_info : RateLimitInfo) : RateLimitInfo :=
  mkRateLimitInfo (requests rate_info) None (total_requests rate_info) 0
    (first_request rate_info) (last_request rate_info).

Definition _cleanup_old_data (self : SecurityMiddleware) (now : datetime)
  : SecurityMiddleware :=
  let cutoff_time := now - hours 1 in
  let pruned := prune_requests cutoff_time <$> _rate_limits self in
  let kept :=
    filter (fun kv => is_expired cutoff_time (snd kv) = false) pruned in
  let unblocked_ips :=
    filter (fun ip => block_elapsed kept now ip = true)
      (_blocked_ips self) in
  let cleared :=
    set_fold (fun ip m => alter clear_block ip m) kept unblocked_ips in
  set_blocked_ips (set_rate_limits self cleared)
    (_blocked_ips self ∖ unblocked_ips).

(** [get_client_stats] and [get_security_stats].  [isoformat] is
    [datetime.isoformat]. *)
Record ClientStats : Type := mkClientStats {
  stat_client_ip : string;
  stat_total_requests : Z;
  stat_blocked_requests : Z;
  stat_current_window_requests : nat;
  stat_first_request : option string;
  stat_last_request : option string;
  stat_blocked_until : option string;
  stat_is_blocked : bool;
  stat_is_trusted : bool
}.

Definition get_client_stats (ip_address : string -> option IPAddress)
    (isoformat : datetime -> string) (self : SecurityMiddleware)
    (client_ip : string) : option ClientStats :=
  match _rate_limits self !! client_ip with
  | None => None
  | Some rate_info =>
      Some (mkClientStats client_ip
              (total_requests rate_info) (blocked_requests rate_info)
              (length (requests rate_info))
              (isoformat <$> first_request rate_info)
              (isoformat <$> last_request rate_info)
              (isoformat <$> blocked_until rate_info)
              (bool_decide (client_ip ∈ _blocked_ips self))
              (_is_trusted_ip ip_address self client_ip))
  end.

Definition days (n : Z) : timedelta := hours (n * 24).

(** [d[k] += 1] on a [defaultdict(int)]; the list keeps the order in
    which the keys were first counted. *)
Fixpoint count_key (k : string) (d : list (string * nat))
  : list (string * nat) :=
  match d with
  | [] => [(k, 1%nat)]
  | (k', n) :: d' =>
      if String.eqb k k' then (k', S n) :: d'
      else (k', n) :: count_key k d'
  end.

Definition count_by (key : SecurityEvent -> string)
    (events : list SecurityEvent) : list (string * nat) :=
  fold_left (fun d event => count_key (key event) d) events [].

Record SecurityStats : Type := mkSecurityStats {
  active_rate_limits : nat;
  blocked_ips : nat;
  events_last_hour : nat;
  events_last_day : nat;
  events_total : nat;
  events_by_severity : list (string * nat);
  events_by_type : list (string * nat);
  max_requests_per_minute : Z;
  block_duration_minutes : Z;
  stat_max_violations_before_block : Z
}.

Definition get_security_stats (self : SecurityMiddleware) (now : datetime)
  : SecurityStats :=
  let last_hour := now - hours 1 in
  let last_day := now - days 1 in
  let events_last_hour :=
    List.filter (fun e => last_hour <? timestamp e) (_security_events self) in
  let events_last_day :=
    List.filter (fun e => last_day <? timestamp e) (_security_events self) in
  mkSecurityStats
    (size (_rate_limits self)) (size (_blocked_ips self))
    (length events_last_hour) (length events_last_day)
    (length (_security_events self))
    (count_by severity events_last_day)
    (count_by event_type events_last_day)
    (max_requests_per_window self)
    (Z.quot (total_seconds_int (block_duration self)) 60)
    (max_violations_before_block self).

(** The sum of the counts of a counting dictionary. *)
Definition total_count (d : list (string * nat)) : nat :=
  fold_right (fun kv acc => (snd kv + acc)%nat) O d.

(** A record the sweep deletes: every request of its window is older
    than an hour, and so is the last accepted request. *)
Definition stale (now : datetime) (rate_info : RateLimitInfo) : Prop :=
  popleft_older (now - hours 1) (requests rate_info) = []
  /\ exists l, last_request rate_info = Some l /\ l < now - hours 1.

(** The attributes no method assigns after construction. *)
Definition config (self : SecurityMiddleware) :=
  (rate_limit_window self, max_requests_per_window self,
   block_duration self, max_violations_before_block self,
   trusted_networks self, suspicious_user_agents self).

(** [self'] differs from [self] in the event buffer at most. *)
Definition frame (self self' : SecurityMiddleware) : Prop :=
  config self' = config self
  /\ _blocked_ips self' = _blocked_ips self
  /\ _rate_limits self' = _rate_limits self.

(** The address a single header contributes: the first comma-separated
    entry, when [ip_address] accepts it. *)
Definition header_ip (ip_address : string -> option IPAddress)
    (request : Request) (header : string) : option string :=
  match headers_get request header with
  | Some value =>
      let ip := PyStr.strip (PyStr.split_first "," value) in
      match ip_address ip with
      | Some _ => Some ip
      | None => None
      end
  | None => None
  end.

(** The states the middleware reaches from a fresh instance: requests
    are checked and scanned, and the sweep runs, in any order. *)
Inductive step (ip_address : string -> option IPAddress)
  : SecurityMiddleware -> SecurityMiddleware -> Prop :=
| step_check self request now :
    step ip_address self
      (snd (check_rate_limit ip_address self request now))
| step_scan self request now :
    step ip_address self (check_security_threats ip_address self request now)
| step_cleanup self now :
    step ip_address self (_cleanup_old_data self now).

Inductive reachable (ip_address : string -> option IPAddress)
    (rate_limit_per_minute : Z) : SecurityMiddleware -> Prop :=
| reachable_init :
    reachable ip_address rate_limit_per_minute
      (SecurityMiddleware_init rate_limit_per_minute)
| reachable_step self self' :
    reachable ip_address rate_limit_per_minute self ->
    step ip_address self self' ->
    reachable ip_address rate_limit_per_minute self'.

(** The event buffer holds at most 1000 events. *)
Definition events_bounded (self : SecurityMiddleware) : Prop :=
  (length (_security_events self) <= 1000)%nat.

(** Every record belongs to an address outside the trusted networks,
    and its window holds no more requests than the limit allows. *)
Definition records_ok (ip_address : string -> option IPAddress)
    (self : SecurityMiddleware) : Prop :=
  forall ip info, _rate_limits self !! ip = Some info ->
    _is_trusted_ip ip_address self ip = false
    /\ Z.of_nat (length (requests info))
       <= Z.max 0 (max_requests_per_window self).

(** An address of the blocked set that has no record. *)
Definition blocked_without_record (ip : string)
    (self : SecurityMiddleware) : Prop :=
  ip ∈ _blocked_ips self /\ _rate_limits self !! ip = None.

(** The dotted-quad branch of [ipaddress.ip_address]: four decimal
    octets of at most three digits, below 256, without a leading zero. *)
Definition is_digit (c : ascii) : bool :=
  let n := N_of_ascii c in ((48 <=? n) && (n <=? 57))%N.

Fixpoint split_on (c : ascii) (s : string) : list string :=
  match s with
  | EmptyString => [EmptyString]
  | String d s' =>
      if Ascii.eqb c d then EmptyString :: split_on c s'
      else match split_on c s' with
           | [] => [String d EmptyString]
           | x :: l => String d x :: l
           end
  end.

Fixpoint all_chars (p : ascii -> bool) (s : string) : bool :=
  match s with
  | EmptyString => true
  | String c s' => p c && all_chars p s'
  end.

Fixpoint decimal_value (acc : Z) (s : string) : Z :=
  match s with
  | EmptyString => acc
  | String c s' => decimal_value (acc * 10 + (Z.of_N (N_of_ascii c) - 48)) s'
  end.

Definition parse_octet (s : string) : option Z :=
  if negb (PyStr.truthy s) then None
  else if negb (all_chars is_digit s) then None
  else if (3 <? String.length s)%nat then None
  else if negb (String.eqb s "0") && String.prefix "0" s then None
  else let v := decimal_value 0 s in
       if 255 <? v then None else Some v.

Definition parse_ipv4 (s : string) : option IPAddress :=
  match split_on "." s with
  | [a; b; c; d] =>
      match parse_octet a, parse_octet b, parse_octet c, parse_octet d with
      | Some a, Some b, Some c, Some d => Some (IPv4Address (ipv4 a b c d))
      | _, _, _, _ => None
      end
  | _ => None
  end.

End RateLimit.

(** ** services/query_validator.py *)

Module QueryValidator.

Import Re.

Inductive QueryRiskLevel : Type := SAFE | LOW | MEDIUM | HIGH | DANGEROUS.

(** The [.value] of each member. *)
Definition value (r : QueryRiskLevel) : string :=
  match r with
  | SAFE => "safe"
  | LOW => "low"
  | MEDIUM => "medium"
  | HIGH => "high"
  | DANGEROUS => "dangerous"
  end.


(** [max(a, b, key=lambda x: x.value)]: the keys are strings, compared
    character by character; on equal keys [max] keeps its first
    argument. *)
Definition max_by_value (a b : QueryRiskLevel) : QueryRiskLevel :=
  if String.ltb (value a) (value b) then b else a.

Record ValidationResult : Type := mkValidationResult {
  is_valid : bool;
  risk_level : QueryRiskLevel;
  issues : list string;
  warnings : list string;
  sanitized_query : option string;
  requires_confirmation : bool
}.

Record CompiledPattern : Type := mkCompiledPattern {
  pattern : string;
  compiled : regex
}.

Record QueryValidator : Type := mkQueryValidator {
  dangerous_keywords : list string;
  protected_schemas : list string;
  safe_keywords : list string;
  compiled_patterns : list CompiledPattern
}.

Definition ignorecase : flags := mkFlags true false false.
Definition multiline : flags := mkFlags false true false.
Definition dotall : flags := mkFlags false false true.

Definition hex : regex :=
  In_ [CRange "0" "9"; CRange "a" "f"].

Definition word (s : string) : regex := seq [WordB; lit s; WordB].

Definition injection_patterns : list CompiledPattern :=
  [ mkCompiledPattern
      "(\b(union|or|and)\b.*\b(select|insert|update|delete)\b)"
      (seq [ WordB; alts [lit "union"; lit "or"; lit "and"]; WordB;
             Star Dot;
             WordB;
             alts [lit "select"; lit "insert"; lit "update"; lit "delete"];
             WordB ]);
    mkCompiledPattern
      "(;.*--)|(;.*#)|(;.*\/\*)"
      (alts [ seq [Chr ";"; Star Dot; lit "--"];
              seq [Chr ";"; Star Dot; Chr "#"];
              seq [Chr ";"; Star Dot; lit "/*"] ]);
    mkCompiledPattern
      "(\bor\b.*=.*\bor\b)|(\band\b.*=.*\band\b)"
      (alts [ seq [word "or"; Star Dot; Chr "="; Star Dot; word "or"];
              seq [word "and"; Star Dot; Chr "="; Star Dot; word "and"] ]);
    mkCompiledPattern
      "(char\(|ascii\(|substring\(|length\(|version\()"
      (alts [ lit "char("; lit "ascii("; lit "substring("; lit "length(";
              lit "version(" ]);
    mkCompiledPattern
      "(0x[0-9a-f]+)|(\\x[0-9a-f]+)"
      (alts [ seq [lit "0x"; Plus hex];
              seq [Chr "\"; Chr "x"; Plus hex] ]);
    mkCompiledPattern
      "(\bwaitfor\b|\bdelay\b)"
      (alts [word "waitfor"; word "delay"]) ].

(** [QueryValidator()].  The two keyword collections are Python sets;
    their iteration order is not fixed by the language, the lists below
    keep the order of the source text. *)
Definition query_validator : QueryValidator :=
  mkQueryValidator
    [ "DROP"; "DELETE"; "TRUNCATE"; "ALTER"; "CREATE"; "GRANT"; "REVOKE";
      "INSERT"; "UPDATE"; "REPLACE"; "MERGE"; "CALL"; "EXEC"; "EXECUTE";
      "SHUTDOWN"; "KILL"; "LOAD"; "OUTFILE"; "DUMPFILE"; "INTO OUTFILE";
      "LOAD_FILE"; "BENCHMARK"; "SLEEP" ]
    [ "information_schema"; "pg_catalog"; "pg_toast"; "pg_temp";
      "pg_toast_temp"; "public.pg_stat"; "public.pg_settings" ]
    [ "SELECT"; "WITH"; "EXPLAIN"; "ANALYZE"; "SHOW"; "DESCRIBE"; "DESC" ]
    injection_patterns.

(** The three substitutions shared by [_normalize_query] and
    [_sanitize_query]. *)
Definition line_comment : regex := seq [lit "--"; Star Dot; Eol].
Definition block_comment : regex :=
  seq [lit "/*"; StarLazy Dot; lit "*/"].
Definition whitespace_run : regex := Plus (In_ [CSpace]).

Definition remove_line_comments (query : string) : string :=
  sub multiline line_comment EmptyString query.
Definition remove_block_comments (query : string) : string :=
  sub dotall block_comment EmptyString query.
Definition collapse_whitespace (query : string) : string :=
  sub no_flags whitespace_run " " query.

Definition _normalize_query (query : string) : string :=
  let query := remove_line_comments query in
  let query := remove_block_comments query in
  let query := collapse_whitespace query in
  PyStr.upper (PyStr.strip query).

Definition _check_sql_injection (self : QueryValidator) (query : string)
  : list string :=
  let issues :=
    omap (fun p =>
            if search ignorecase (compiled p) query
            then Some ("Potential SQL injection detected: " +:+ pattern p)
            else None)
      (compiled_patterns self) in
  let issues :=
    if negb (Nat.eqb (PyStr.count_char "'" query mod 2) 0)
    then issues ++ ["Unmatched single quotes detected"]
    else issues in
  if PyStr.contains "--" query || PyStr.contains "/*" query
  then issues ++ ["SQL comments detected - potential injection attempt"]
  else issues.

Definition _check_dangerous_operations (self : QueryValidator)
    (query : string) : list string :=
  let issues :=
    omap (fun keyword =>
            if search no_flags (word keyword) query
            then Some ("Dangerous operation detected: " +:+ keyword)
            else None)
      (dangerous_keywords self) in
  let issues :=
    if PyStr.contains ";" (PyStr.rstrip_char ";" query)
    then issues ++ ["Multiple SQL statements detected"]
    else issues in
  if search no_flags
       (seq [WordB; alts [lit "CALL"; lit "EXEC"; lit "EXECUTE"]; WordB])
       query
  then issues ++ ["Stored procedure execution detected"]
  else issues.

Definition _check_protected_schemas (self : QueryValidator)
    (query : string) : list string :=
  omap (fun schema =>
          if PyStr.contains (PyStr.upper schema) query
          then Some ("Access to protected schema detected: " +:+ schema)
          else None)
    (protected_schemas self).

Definition str_nat (n : nat) : string := pretty n.

Definition _check_query_complexity (query : string) : list string :=
  let subquery_count :=
    findall_len no_flags
      (seq [Chr "("; Star Dot; lit "SELECT"; Star Dot; Chr ")"]) query in
  let warnings :=
    if (3 <? subquery_count)%nat
    then ["High number of subqueries detected: " +:+ str_nat subquery_count]
    else [] in
  let join_count := findall_len no_flags (word "JOIN") query in
  let warnings :=
    if (5 <? join_count)%nat
    then warnings ++ ["High number of joins detected: " +:+ str_nat join_count]
    else warnings in
  let warnings :=
    if (5000 <? String.length query)%nat
    then warnings ++ ["Very long query detected - may impact performance"]
    else warnings in
  if PyStr.contains "FROM" query && PyStr.contains "," query
     && negb (PyStr.contains "WHERE" query)
     && negb (PyStr.contains "JOIN" query)
  then warnings
       ++ ["Potential cartesian product detected - missing WHERE clause"]
  else warnings.

(** The first statement of [_sanitize_query], "remove trailing semicolons
    (except the last one)". *)
Definition remove_trailing_semicolons (query : string) : string :=
  if PyStr.endswith (PyStr.rstrip query) ";"
  then PyStr.rstrip_char ";" query +:+ ";"
  else query.

Definition _sanitize_query (query : string) : string :=
  let query := remove_trailing_semicolons query in
  let query := remove_line_comments query in
  let query := remove_block_comments query in
  PyStr.strip (collapse_whitespace query).

(** A list is true when it is not empty. *)
Definition nonempty {A} (l : list A) : bool :=
  match l with [] => false | _ => true end.

Inductive TypeError : Type := mkTypeError (msg : string).

Definition validate_query (self : QueryValidator) (query : string)
    (allow_modifications : bool) : Result TypeError ValidationResult :=
  if negb (PyStr.truthy query) || negb (PyStr.truthy (PyStr.strip query))
  then
    (* The constructor is called without its required [warnings]. *)
    Raise (mkTypeError
             "ValidationResult.__init__() missing 1 required positional argument: 'warnings'")
  else
    let query := PyStr.strip query in
    let issues := [] in
    let warnings := [] in
    let risk_level := SAFE in
    let requires_confirmation := false in
    let normalized_query := _normalize_query query in
    let injection_issues := _check_sql_injection self normalized_query in
    let '(issues, risk_level) :=
      if nonempty injection_issues
      then (issues ++ injection_issues, DANGEROUS)
      else (issues, risk_level) in
    let dangerous_ops := _check_dangerous_operations self normalized_query in
    let '(issues, warnings, risk_level, requires_confirmation) :=
      if nonempty dangerous_ops then
        if allow_modifications
        then (issues, warnings ++ dangerous_ops,
              max_by_value risk_level HIGH, true)
        else (issues ++ dangerous_ops, warnings, DANGEROUS,
              requires_confirmation)
      else (issues, warnings, risk_level, requires_confirmation) in
    let schema_issues := _check_protected_schemas self normalized_query in
    let '(warnings, risk_level) :=
      if nonempty schema_issues
      then (warnings ++ schema_issues, max_by_value risk_level MEDIUM)
      else (warnings, risk_level) in
    let complexity_warnings := _check_query_complexity normalized_query in
    let '(warnings, risk_level) :=
      if nonempty complexity_warnings
      then (warnings ++ complexity_warnings, max_by_value risk_level LOW)
      else (warnings, risk_level) in
    let sanitized_query :=
      if negb (nonempty issues) then Some (_sanitize_query query)
      else None in
    let is_valid := Nat.eqb (length issues) 0 in
    Ok (mkValidationResult is_valid risk_level issues warnings
          sanitized_query requires_confirmation).

Definition get_safe_query_suggestions (self : QueryValidator)
    (query : string) : list string :=
  let normalized := _normalize_query query in
  let suggestions :=
    if PyStr.contains "SELECT" normalized
       && negb (PyStr.contains "LIMIT" normalized)
    then ["Consider adding a LIMIT clause to prevent large result sets"]
    else [] in
  let suggestions :=
    if existsb (fun op => PyStr.contains op normalized) ["UPDATE"; "DELETE"]
       && negb (PyStr.contains "WHERE" normalized)
    then suggestions
         ++ ["Add a WHERE clause to limit the scope of the operation"]
    else suggestions in
  let suggestions :=
    if PyStr.contains "'" query
    then suggestions
         ++ ["Consider using parameterized queries instead of string literals"]
    else suggestions in
  if existsb (fun keyword => PyStr.contains keyword normalized)
       ["JOIN"; "SUBQUERY"; "UNION"]
  then suggestions ++ ["Use EXPLAIN to analyze query performance"]
  else suggestions.

(** The comment markers [_check_sql_injection] looks for. *)
Definition has_comment_marker (s : string) : bool :=
  PyStr.contains "--" s || PyStr.contains "/*" s.

(** What the whitespace substitution computes, written as a scanner: a
    run of whitespace becomes one space; [in_run] tells that the previous
    character was whitespace.  [collapse_whitespace_squeeze] below proves
    the two equal. *)
Fixpoint squeeze (in_run : bool) (s : string) : string :=
  match s with
  | EmptyString => EmptyString
  | String c s' =>
      if PyStr.isspace c
      then if in_run then squeeze true s'
           else String " " (squeeze true s')
      else String c (squeeze false s')
  end.

(** What the line-comment substitution computes, written as a scanner:
    from two dashes to the end of the line nothing is kept; [in_comment]
    tells that the scan is inside a comment.  [remove_line_comments_uncomment]
    below proves the two equal. *)
Fixpoint uncomment (in_comment : bool) (s : string) : string :=
  match s with
  | EmptyString => EmptyString
  | String c s' =>
      if in_comment
      then if Ascii.eqb c newline then String c (uncomment false s')
           else uncomment true s'
      else if String.prefix "--" s then uncomment true s'
           else String c (uncomment false s')
  end.

(** A text in normal form: no whitespace at either end, and every
    whitespace character a single space with no other beside it. *)
Definition normal_form (s : string) : Prop :=
  PyStr.strip s = s
  /\ PyStr.contains "  " s = false
  /\ forall c, PyStr.isspace c = true -> c <> " "%char ->
       PyStr.contains (String c EmptyString) s = false.

(** [skip_line s] is [s] from its first newline on. *)
Definition skip_line (s : string) : string :=
  PyStr.lstrip_by (fun c => negb (Ascii.eqb c newline)) s.

End QueryValidator.

(** ** mcp/models.py and mcp/handler.py *)

Module MCP.

#[warnings="-register-all"]
Inductive JSON : Type :=
| JNull
| JBool (b : bool)
| JNumber (n : Z)
| JString (s : string)
| JArray (l : list JSON)
| JObject (o : list (string * JSON)).

Definition Dict : Type := list (string * JSON).

Fixpoint dict_get (k : string) (d : Dict) : option JSON :=
  match d with
  | [] => None
  | (k', v) :: d' => if String.eqb k k' then Some v else dict_get k d'
  end.

(** Truth value of a JSON value as Python sees the decoded object. *)
Definition truthy (v : JSON) : bool :=
  match v with
  | JNull => false
  | JBool b => b
  | JNumber n => negb (n =? 0)
  | JString s => PyStr.truthy s
  | JArray l => match l with [] => false | _ => true end
  | JObject o => match o with [] => false | _ => true end
  end.

Inductive RequestId : Type :=
| IdStr (s : string)
| IdInt (n : Z).

Record MCPError : Type := mkMCPError {
  code : Z;
  message : string;
  data : option Dict
}.

Record MCPRequest : Type := mkMCPRequest {
  req_jsonrpc : string;
  req_id : RequestId;
  method : string;
  params : option Dict
}.

Record MCPResponse : Type := mkMCPResponse {
  jsonrpc : string;
  id : RequestId;
  result : option Dict;
  error : option MCPError
}.

(** [MCPResponse(id=..., result=...)] and [MCPResponse(id=..., error=...)]. *)
Definition response_result (i : RequestId) (r : Dict) : MCPResponse :=
  mkMCPResponse "2.0" i (Some r) None.
Definition response_error (i : RequestId) (e : MCPError) : MCPResponse :=
  mkMCPResponse "2.0" i None (Some e).

Record Tool : Type := mkTool {
  name : string;
  description : string
}.

Record MCPHandler (S : Type) : Type := mkMCPHandler {
  _tools : gmap string Tool;
  _initialized : bool;
  impl : S
}.
Arguments mkMCPHandler {S}.
Arguments _tools {S}.
Arguments _initialized {S}.
Arguments impl {S}.

Section Handler.

(** The state of the concrete handler and its abstract methods, each
    returning the [model_dump()] of its result; an exception is
    represented by its [str(e)].  The three [*_params] functions are
    the pydantic constructors applied to the [params] dictionary. *)
Context {S : Type}.
Variable initialize : Dict -> S -> Result string Dict * S.
Variable list_tools : S -> Result string Dict * S.
Variable call_tool : string -> Dict -> S -> Result string Dict * S.
Variable list_resources : S -> Result string Dict * S.
Variable read_resource : string -> S -> Result string Dict * S.
Variable InitializeParams : Dict -> Result string Dict.
Variable CallToolParams : Dict -> Result string (string * Dict).
Variable ReadResourceParams : Dict -> Result string string.

Definition set_impl (self : MCPHandler S) (s : S) : MCPHandler S :=
  mkMCPHandler (_tools self) (_initialized self) s.

Definition _handle_initialize (self : MCPHandler S) (params : Dict)
  : Result string Dict * MCPHandler S :=
  match InitializeParams params with
  | Raise e => (Raise e, self)
  | Ok init_params =>
      match initialize init_params (impl self) with
      | (Raise e, s) => (Raise e, set_impl self s)
      | (Ok r, s) => (Ok r, mkMCPHandler (_tools self) true s)
      end
  end.

Definition _handle_list_tools (self : MCPHandler S)
  : Result string Dict * MCPHandler S :=
  if negb (_initialized self) then (Raise "Session not initialized", self)
  else let '(r, s) := list_tools (impl self) in (r, set_impl self s).

Definition _handle_call_tool (self : MCPHandler S) (params : Dict)
  : Result string Dict * MCPHandler S :=
  if negb (_initialized self) then (Raise "Session not initialized", self)
  else
    match CallToolParams params with
    | Raise e => (Raise e, self)
    | Ok (tool_name, arguments) =>
        if negb (bool_decide (is_Some (_tools self !! tool_name)))
        then (Raise ("Unknown tool: " +:+ tool_name), self)
        else let '(r, s) := call_tool tool_name arguments (impl self) in
             (r, set_impl self s)
    end.

Definition _handle_list_resources (self : MCPHandler S)
  : Result string Dict * MCPHandler S :=
  if negb (_initialized self) then (Raise "Session not initialized", self)
  else let '(r, s) := list_resources (impl self) in (r, set_impl self s).

Definition _handle_read_resource (self : MCPHandler S) (params : Dict)
  : Result string Dict * MCPHandler S :=
  if negb (_initialized self) then (Raise "Session not initialized", self)
  else
    match ReadResourceParams params with
    | Raise e => (Raise e, self)
    | Ok uri =>
        let '(r, s) := read_resource uri (impl self) in
        (r, set_impl self s)
    end.

(** [request.params or {}]. *)
Definition params_or_empty (request : MCPRequest) : Dict :=
  default [] (params request).

Definition handle_request (self : MCPHandler S) (request : MCPRequest)
  : MCPResponse * MCPHandler S :=
  let '(outcome, self) :=
    if String.eqb (method request) "initialize"
    then _handle_initialize self (params_or_empty request)
    else if String.eqb (method request) "tools/list"
    then _handle_list_tools self
    else if String.eqb (method request) "tools/call"
    then _handle_call_tool self (params_or_empty request)
    else if String.eqb (method request) "resources/list"
    then _handle_list_resources self
    else if String.eqb (method request) "resources/read"
    then _handle_read_resource self (params_or_empty request)
    else (Raise ("Unknown method: " +:+ method request), self) in
  match outcome with
  | Ok r => (response_result (req_id request) r, self)
  | Raise e =>
      (response_error (req_id request)
         (mkMCPError (-32603) e
            (Some [("method", JString (method request))])),
       self)
  end.

(** [json.loads] and the pydantic constructor [MCPRequest] applied to
    the unpacked dictionary; [Raise] carries the [str] of the
    [JSONDecodeError], respectively of the [ValidationError].
    [mapping_error] is the text of the [TypeError] raised by unpacking
    a parsed value that is not a mapping. *)
Variable json_loads : string -> Result string JSON.
Variable MCPRequest_validate : Dict -> Result string MCPRequest.
Variable mapping_error : JSON -> string.

Inductive DeserializeError : Type :=
| ValueError (msg : string)
| OtherError (msg : string).

Definition deserialize_mcp_message (data : string)
  : Result DeserializeError MCPRequest :=
  match json_loads data with
  | Raise e => Raise (ValueError ("Invalid MCP message: " +:+ e))
  | Ok (JObject parsed) =>
      match MCPRequest_validate parsed with
      | Raise e => Raise (ValueError ("Invalid MCP message: " +:+ e))
      | Ok request => Ok request
      end
  | Ok parsed => Raise (OtherError (mapping_error parsed))
  end.

(** [MCPServer.process_message] of mcp/server.py. *)
Definition process_message (self : MCPHandler S) (data : string)
  : MCPResponse * MCPHandler S :=
  match deserialize_mcp_message data with
  | Ok request => handle_request self request
  | Raise (ValueError e) =>
      (response_error (IdStr "unknown")
         (mkMCPError (-32700) ("Parse error: " +:+ e) None), self)
  | Raise (OtherError e) =>
      (response_error (IdStr "unknown")
         (mkMCPError (-32603) ("Internal error: " +:+ e) None), self)
  end.

End Handler.


(** [register_tool] and [get_tool]. *)
Definition register_tool {S : Type} (self : MCPHandler S) (tool : Tool)
  : MCPHandler S :=
  mkMCPHandler (<[name tool := tool]> (_tools self)) (_initialized self)
    (impl self).

Definition get_tool {S : Type} (self : MCPHandler S) (n : string)
  : option Tool :=
  _tools self !! n.

End MCP.

(** ** services/supabase_handler.py: the SQL-execution tool *)

Module SupabaseHandler.

Import MCP.
Import QueryValidator.

Record ToolResult : Type := mkToolResult {
  content : list string;
  is_error : bool
}.

(** [{"type": "text", "text": t}]; every content item of the tool is of
    this shape, so an item is represented by its text. *)
Definition text (t : string) : string := t.

Definition nl : string := String "010"%char EmptyString.

Definition bullets (l : list string) : string :=
  PyStr.join nl (map (fun x => "• " +:+ x) l).

Section QueryDatabase.

(** The relational store, an external collaborator: its state, the
    rows it returns and [database_service.execute_query]; a failure is
    represented by its [str(e)].  [execution_line] and [render_rows]
    stand for the text the tool formats from a successful result (the
    timing line, and the table with the timing note). *)
Context {DB QueryResult : Type}.
Variable execute_query :
  string -> option JSON -> DB -> Result string QueryResult * DB.
Variable execution_line : QueryResult -> string.
Variable render_rows : QueryResult -> list string.

(** The data layer with the list of statements it was asked to run. *)
Record Database : Type := mkDatabase {
  db_state : DB;
  db_calls : list (string * option JSON)
}.

Definition database_service_execute_query (final_query : string)
    (params : option JSON) (db : Database)
  : Result string QueryResult * Database :=
  let '(r, st) := execute_query final_query params (db_state db) in
  (r, mkDatabase st (db_calls db ++ [(final_query, params)])).

(** [arguments.get] of the query with the empty string as default; a
    value that is not a string has no [strip] method. *)
Definition get_query (arguments : Dict) : Result string string :=
  match dict_get "query" arguments with
  | None => Ok EmptyString
  | Some (JString q) => Ok q
  | Some _ => Raise "object has no attribute 'strip'"
  end.

Definition get_force_execute (arguments : Dict) : bool :=
  match dict_get "force_execute" arguments with
  | None => false
  | Some v => truthy v
  end.

(** [validation.sanitized_query or query]. *)
Definition final_query_of (validation : ValidationResult)
    (query : string) : string :=
  match sanitized_query validation with
  | Some sq => if PyStr.truthy sq then sq else query
  | None => query
  end.

Definition _handle_query_database (enable_query_validation : bool)
    (arguments : Dict) (db : Database)
  : Result string ToolResult * Database :=
  match get_query arguments with
  | Raise e => (Raise e, db)
  | Ok query =>
      let params := dict_get "params" arguments in
      let force_execute := get_force_execute arguments in
      if negb (PyStr.truthy (PyStr.strip query))
      then (Ok (mkToolResult [text "Error: Query cannot be empty"] true),
            db)
      else
        match validate_query query_validator query
                enable_query_validation with
        | Raise (mkTypeError e) =>
            (Ok (mkToolResult
                   [text ("❌ Database query failed: " +:+ e)] true), db)
        | Ok validation =>
            if negb (is_valid validation) then
              let content :=
                [text ("❌ Query validation failed:" +:+ nl
                       +:+ bullets (issues validation))] in
              let suggestions :=
                get_safe_query_suggestions query_validator query in
              let content :=
                if nonempty suggestions
                then content
                     ++ [text ("💡 Suggestions:" +:+ nl
                               +:+ bullets suggestions)]
                else content in
              (Ok (mkToolResult content true), db)
            else
              let content :=
                if nonempty (warnings validation)
                then [text ("⚠️ Warnings:" +:+ nl
                            +:+ bullets (warnings validation))]
                else [] in
              if requires_confirmation validation && negb force_execute
              then
                (Ok (mkToolResult
                       (content
                        ++ [text ("🚨 This query requires confirmation due to its risk level: "
                                  +:+ PyStr.upper
                                        (value (risk_level validation)));
                            text "To execute this query, add 'force_execute': true to your arguments."])
                       false), db)
              else
                let final_query := final_query_of validation query in
                match database_service_execute_query final_query params
                        db with
                | (Raise e, db) =>
                    (Ok (mkToolResult
                           [text ("❌ Database query failed: " +:+ e)]
                           true), db)
                | (Ok result, db) =>
                    let content :=
                      content ++ [text (execution_line result)] in
                    let content :=
                      if negb (String.eqb (value (risk_level validation))
                                 "safe")
                      then content
                           ++ [text ("🔒 Risk level: "
                                     +:+ PyStr.upper
                                           (value (risk_level validation)))]
                      else content in
                    (Ok (mkToolResult (content ++ render_rows result)
                           false), db)
                end
        end
  end.

End QueryDatabase.

(** *** The CRUD tool

    [json.loads] turns a JSON null into [None], so a missing argument
    and a null one are the same to [arguments.get(key)]: both are
    [JNull] here. *)
Definition get_or_none (key : string) (arguments : Dict) : JSON :=
  default JNull (dict_get key arguments).

(** [CRUDResult] of services/supabase_api.py. *)
Record CRUDResult : Type := mkCRUDResult {
  success : bool;
  res_data : JSON;
  res_count : option Z;
  res_error : option string
}.

(** The calls the tool makes on [supabase_api_service]. *)
Inductive ApiCall : Type :=
| api_initialize
| api_select (table columns filters order_by limit offset : JSON)
| api_insert (table data on_conflict : JSON)
| api_update (table data filters : JSON)
| api_delete (table filters : JSON)
| api_upsert (table data on_conflict : JSON).

(** [operation == "select"] for a decoded JSON value. *)
Definition is_str (v : JSON) (s : string) : bool :=
  match v with JString t => String.eqb t s | _ => false end.

Definition error_result (t : string) : ToolResult :=
  mkToolResult [text t] true.

(** The formatting of a result.  The module never imports [json], so
    the first [json.dumps] of the data block raises [NameError]. *)
Definition format_crud_result (operation : string) (result : CRUDResult)
  : Result string ToolResult :=
  if success result then
    let content :=
      [text ("✅ " +:+ PyStr.upper operation
             +:+ " operation completed successfully")] in
    let content :=
      match res_count result with
      | Some n => content ++ [text ("Rows affected: " +:+ RateLimit.str_int n)]
      | None => content
      end in
    if truthy (res_data result) then Raise "name 'json' is not defined"
    else Ok (mkToolResult content false)
  else
    Ok (mkToolResult
          [text ("❌ " +:+ PyStr.upper operation +:+ " operation failed: "
                 +:+ default "None" (res_error result))] true).

(** The branch on [operation]: the call to make, or the result to
    return without calling. *)
Definition crud_call (py_str : JSON -> string) (arguments : Dict)
  : ToolResult + string * ApiCall :=
  let operation := get_or_none "operation" arguments in
  let table := get_or_none "table" arguments in
  let data := default (JObject []) (dict_get "data" arguments) in
  let filters := default (JObject []) (dict_get "filters" arguments) in
  if is_str operation "select" then
    inr ("select",
         api_select table
           (default (JString "*") (dict_get "columns" arguments)) filters
           (get_or_none "order_by" arguments)
           (get_or_none "limit" arguments)
           (get_or_none "offset" arguments))
  else if is_str operation "insert" then
    if negb (truthy data)
    then inl (error_result
                "Error: 'data' is required for insert operations")
    else inr ("insert",
              api_insert table data (get_or_none "on_conflict" arguments))
  else if is_str operation "update" then
    if negb (truthy data)
    then inl (error_result
                "Error: 'data' is required for update operations")
    else if negb (truthy filters)
    then inl (error_result
                "Error: 'filters' are required for update operations")
    else inr ("update", api_update table data filters)
  else if is_str operation "delete" then
    if negb (truthy filters)
    then inl (error_result
                "Error: 'filters' are required for delete operations")
    else inr ("delete", api_delete table filters)
  else if is_str operation "upsert" then
    if negb (truthy data)
    then inl (error_result
                "Error: 'data' is required for upsert operations")
    else inr ("upsert",
              api_upsert table data (get_or_none "on_conflict" arguments))
  else
    inl (error_result
           ("Error: Unknown operation '"
            +:+ match operation with JString s => s | v => py_str v end
            +:+ "'. Supported operations: select, insert, update, delete, upsert")).

(** A call the argument checks of the tool allow. *)
Definition call_allowed (c : ApiCall) : Prop :=
  match c with
  | api_initialize => True
  | api_select table _ _ _ _ _ => truthy table = true
  | api_insert table data _ | api_upsert table data _ =>
      truthy table = true /\ truthy data = true
  | api_update table data filters =>
      truthy table = true /\ truthy data = true /\ truthy filters = true
  | api_delete table filters =>
      truthy table = true /\ truthy filters = true
  end.

Section Crud.

(** [supabase_api_service], an external collaborator: its state, its
    [is_initialized] and [initialize], and its five data methods; a
    failure is represented by its [str(e)].  [py_str] is [str] on a
    decoded value that is not a string. *)
Context {API : Type}.
Variable is_initialized : API -> bool.
Variable initialize : API -> Result string unit * API.
Variable call : ApiCall -> API -> Result string CRUDResult * API.
Variable py_str : JSON -> string.

(** The service with the list of calls it received. *)
Record Api : Type := mkApi {
  api_state : API;
  api_calls : list ApiCall
}.

Definition supabase_api_service_initialize (api : Api)
  : Result string unit * Api :=
  let '(r, st) := initialize (api_state api) in
  (r, mkApi st (api_calls api ++ [api_initialize])).

Definition supabase_api_service_call (c : ApiCall) (api : Api)
  : Result string CRUDResult * Api :=
  let '(r, st) := call c (api_state api) in
  (r, mkApi st (api_calls api ++ [c])).

Definition crud_failed (e : string) : ToolResult :=
  error_result ("CRUD operation failed: " +:+ e).

Definition _handle_crud_operations (arguments : Dict) (api : Api)
  : ToolResult * Api :=
  let operation := get_or_none "operation" arguments in
  let table := get_or_none "table" arguments in
  if negb (truthy operation) || negb (truthy table)
  then (error_result "Error: Both 'operation' and 'table' are required",
        api)
  else
    match (if is_initialized (api_state api) then (Ok tt, api)
           else supabase_api_service_initialize api) with
    | (Raise e, api) => (crud_failed e, api)
    | (Ok _, api) =>
        match crud_call py_str arguments with
        | inl refused => (refused, api)
        | inr (operation, c) =>
            match supabase_api_service_call c api with
            | (Raise e, api) => (crud_failed e, api)
            | (Ok result, api) =>
                match format_crud_result operation result with
                | Ok r => (r, api)
                | Raise e => (crud_failed e, api)
                end
            end
        end
    end.

End Crud.

End SupabaseHandler.

(** ** mcp/server.py: the [/mcp/tools] route *)

Module Server.

Import Http.

(** The collaborators a route calls, in the order it calls them. *)
Inductive Component : Type :=
| RateLimiter_check
| ThreatScanner_scan
| Authenticator_authenticate
| Handler_list_tools.

Record World : Type := mkWorld {
  security : RateLimit.SecurityMiddleware;
  token_cache : Auth.TokenCache;
  calls : list Component
}.

Inductive Response : Type :=
| Return (tools : MCP.JSON) (authenticated : bool)
         (user_id : option string)
| ReturnError (err : string)
| RaiseHTTPException (status_code : Z) (detail : string)
                     (resp_headers : list (string * string)).

(** [str(e)] of the two exceptions of the rate limiter. *)
Definition str_exception (e : Exception) : string :=
  match e with
  | HTTPException status_code detail _ =>
      RateLimit.str_int status_code +:+ ": " +:+ detail
  | RateLimitExceeded message _ => message
  end.

Section Routes.

Variable ip_address : string -> option RateLimit.IPAddress.
Variable jwt_decode : string -> option Auth.Claims.
Variable settings : Auth.Settings.
(** [tool.model_dump()] of the registered tools. *)
Variable tools_dump : MCP.JSON.

Definition called (w : World) (c : Component) : World :=
  mkWorld (security w) (token_cache w) (calls w ++ [c]).

Definition list_tools (w : World) (request : Request)
    (now : RateLimit.datetime) : Response * World :=
  let w := called w RateLimiter_check in
  match RateLimit.check_rate_limit ip_address (security w) request now with
  | (Raise (RateLimitExceeded message retry_after), sec) =>
      (RaiseHTTPException HTTP_429_TOO_MANY_REQUESTS message
         [("Retry-After", RateLimit.str_int retry_after)],
       mkWorld sec (token_cache w) (calls w))
  | (Raise e, sec) =>
      (ReturnError (str_exception e),
       mkWorld sec (token_cache w) (calls w))
  | (Ok _, sec) =>
      let w := called (mkWorld sec (token_cache w) (calls w))
                 ThreatScanner_scan in
      let sec := RateLimit.check_security_threats ip_address (security w)
                   request now in
      let w := called (mkWorld sec (token_cache w) (calls w))
                 Authenticator_authenticate in
      let '(auth_context, cache) :=
        Auth.authenticate_request jwt_decode settings (token_cache w)
          request now in
      let w := called (mkWorld (security w) cache (calls w))
                 Handler_list_tools in
      (Return tools_dump (Auth.is_authenticated auth_context)
         (Auth.user_id auth_context), w)
  end.

End Routes.

End Server.

(** ** Concrete inputs used by the examples below *)

Module Examples.

(** An unauthenticated context whose permission table nevertheless
    grants everything, and the context of the API key. *)
Definition ctx_unauthenticated_all_true : Auth.AuthContext :=
  Auth.mkAuthContext None None None false None
    (Some (Auth.perms true true true)) None.

Definition ctx_api_user : Auth.AuthContext :=
  Auth.mkAuthContext (Some "api_user") None None true (Some "api_key")
    (Some (Auth.perms true true false)) None.

(** A decoder that knows one token, for user [u1], expiring at second
    1000. *)
Definition jwt_decode_one (token : string) : option Auth.Claims :=
  if String.eqb token "tok"
  then Some (Auth.mkClaims (Some "u1") None None (Some 1000))
  else None.

(** A decoder that also knows a token whose [exp] claim is 0 and a
    token with a role the server does not know. *)
Definition jwt_decode_roles (token : string) : option Auth.Claims :=
  if String.eqb token "epoch"
  then Some (Auth.mkClaims (Some "u2") None None (Some 0))
  else if String.eqb token "guest"
  then Some (Auth.mkClaims (Some "u3") None (Some (Some "guest")) None)
  else jwt_decode_one token.


(** A peer outside the trusted ranges, and a middleware configured for
    one request per minute that has seen six requests from it: one
    accepted, five refused, the fifth refusal blocking the address. *)
Definition public_request : Http.Request :=
  Http.mkRequest [] [] (Some "203.0.113.1") "/mcp/tools" EmptyString.

Definition checked (self : RateLimit.SecurityMiddleware)
    (now : Z) : RateLimit.SecurityMiddleware :=
  snd (RateLimit.check_rate_limit RateLimit.parse_ipv4 self
         public_request now).

Definition fresh_middleware : RateLimit.SecurityMiddleware :=
  RateLimit.SecurityMiddleware_init 1.

Definition blocked_middleware : RateLimit.SecurityMiddleware :=
  checked (checked (checked (checked (checked (checked
    fresh_middleware 0) 1) 2) 3) 4) 5.

(** The same middleware one refusal earlier: four violations so far. *)
Definition warned_middleware : RateLimit.SecurityMiddleware :=
  checked (checked (checked (checked (checked
    fresh_middleware 0) 1) 2) 3) 4.

(** A request whose first client-IP header names a public address and
    whose second one names a private address. *)
Definition two_header_request : Http.Request :=
  Http.mkRequest [("x-forwarded-for", "8.8.8.8"); ("x-real-ip", "10.0.0.1")]
    [] (Some "203.0.113.1") "/mcp/tools" EmptyString.

(** A request from a public peer that claims a private address. *)
Definition spoofed_request : Http.Request :=
  Http.mkRequest [("x-real-ip", "10.0.0.1, 203.0.113.1")]
    [] (Some "203.0.113.1") "/mcp/tools" EmptyString.

(** A handler whose abstract methods do nothing, for the protocol
    examples. *)
Definition nop_initialize (p : MCP.Dict) (s : unit)
  : Result string MCP.Dict * unit := (Ok [], s).
Definition nop_list (s : unit) : Result string MCP.Dict * unit :=
  (Ok [], s).
Definition nop_call_tool (n : string) (a : MCP.Dict) (s : unit)
  : Result string MCP.Dict * unit := (Ok [], s).
Definition nop_read_resource (uri : string) (s : unit)
  : Result string MCP.Dict * unit :=
  (Raise ("Resource not found: " +:+ uri), s).
Definition nop_params (p : MCP.Dict) : Result string MCP.Dict := Ok p.
Definition nop_call_params (p : MCP.Dict)
  : Result string (string * MCP.Dict) := Ok ("echo", []).
Definition nop_read_params (p : MCP.Dict) : Result string string := Ok EmptyString.

Definition nop_handler : MCP.MCPHandler unit :=
  MCP.mkMCPHandler ∅ false tt.

Definition nop_handle_request :=
  MCP.handle_request nop_initialize nop_list nop_call_tool nop_list
    nop_read_resource nop_params nop_call_params nop_read_params.


(** Two more requests, an initialized handler without tools, and a
    tool. *)
Definition tools_list_request : MCP.MCPRequest :=
  MCP.mkMCPRequest "2.0" (MCP.IdInt 7) "tools/list" None.

Definition tools_call_request : MCP.MCPRequest :=
  MCP.mkMCPRequest "2.0" (MCP.IdInt 8) "tools/call"
    (Some [("name", MCP.JString "echo")]).

Definition open_handler : MCP.MCPHandler unit :=
  MCP.mkMCPHandler ∅ true tt.

Definition echo_tool : MCP.Tool := MCP.mkTool "echo" "Echo the arguments".

(** [json.loads] on three inputs: an empty object, an empty array, and
    text that is not JSON. *)
Definition sample_json_loads (data : string) : Result string MCP.JSON :=
  if String.eqb data "{}" then Ok (MCP.JObject [])
  else if String.eqb data "[]" then Ok (MCP.JArray [])
  else Raise "Expecting value: line 1 column 1 (char 0)".

Definition sample_validate (d : MCP.Dict) : Result string MCP.MCPRequest :=
  match MCP.dict_get "method" d with
  | Some (MCP.JString m) => Ok (MCP.mkMCPRequest "2.0" (MCP.IdStr "1") m None)
  | _ => Raise "1 validation error for MCPRequest"
  end.

Definition sample_process_message :=
  MCP.process_message nop_initialize nop_list nop_call_tool nop_list
    nop_read_resource nop_params nop_call_params nop_read_params
    sample_json_loads sample_validate (fun _ => "not a mapping").

(** A store that accepts every statement. *)
Definition nop_execute_query (q : string) (p : option MCP.JSON) (s : unit)
  : Result string unit * unit := (Ok tt, s).

Definition nop_query_database (enable_query_validation : bool)
    (arguments : MCP.Dict) :=
  SupabaseHandler._handle_query_database nop_execute_query
    (fun _ => "executed") (fun _ => [])
    enable_query_validation arguments (SupabaseHandler.mkDatabase tt []).

Definition no_settings : Auth.Settings := Auth.mkSettings "key" "service".

Definition fresh_world : Server.World :=
  Server.mkWorld fresh_middleware ∅ [].

Definition nop_list_tools :=
  Server.list_tools RateLimit.parse_ipv4 jwt_decode_one no_settings
    (MCP.JArray []).

Definition blocked_world : Server.World :=
  Server.mkWorld blocked_middleware ∅ [].

(** An API service that is initialized and answers every call with
    success: [rows_call] returns one row, [empty_call] none. *)
Definition rows_call (c : SupabaseHandler.ApiCall) (s : unit)
  : Result string SupabaseHandler.CRUDResult * unit :=
  (Ok (SupabaseHandler.mkCRUDResult true
         (MCP.JArray [MCP.JObject [("id", MCP.JNumber 1)]]) (Some 1) None),
   s).

Definition empty_call (c : SupabaseHandler.ApiCall) (s : unit)
  : Result string SupabaseHandler.CRUDResult * unit :=
  (Ok (SupabaseHandler.mkCRUDResult true (MCP.JArray []) (Some 0) None), s).

Definition nop_crud_operations
    (call : SupabaseHandler.ApiCall -> unit
            -> Result string SupabaseHandler.CRUDResult * unit)
    (arguments : MCP.Dict) :=
  SupabaseHandler._handle_crud_operations (fun _ => true)
    (fun s => (Ok tt, s)) call (fun _ => "?") arguments
    (SupabaseHandler.mkApi tt []).

Definition insert_arguments : MCP.Dict :=
  [ ("operation", MCP.JString "insert"); ("table", MCP.JString "users");
    ("data", MCP.JObject [("name", MCP.JString "a")]) ].

Definition delete_all_arguments : MCP.Dict :=
  [ ("operation", MCP.JString "delete"); ("table", MCP.JString "users") ].

(** The query of [test_sanitize_query]. *)
Definition test_sanitize_query_input : string :=
  SupabaseHandler.nl +:+ "        SELECT * FROM users -- comment"
  +:+ SupabaseHandler.nl +:+ "        /* another comment */"
  +:+ SupabaseHandler.nl +:+ "        WHERE id = 1;;;"
  +:+ SupabaseHandler.nl +:+ "        ".

End Examples.

(** * Properties *)

(** ** Authentication *)

Module AuthProps.

Import Auth.

Lemma dict_get_false_of_lacks (m : gmap string bool) (permission : string) :
  m !! permission = None ∨ m !! permission = Some false ->
  dict_get m permission = false.
Proof. unfold dict_get. intros [-> | ->]; reflexivity. Qed.

(** C7.  [require_permission] raises "Authentication required" (401) on
    every unauthenticated context, whatever permission is asked for and
    whatever the context's permission table holds, and raises the
    permission error (403) on an authenticated context that lacks the
    permission. *)
Theorem require_permission_rejects (auth_context : AuthContext)
    (permission : string) :
  (is_authenticated auth_context = false ->
   require_permission auth_context permission
   = Raise (mkAuthenticationError "Authentication required" 401))
  /\ (is_authenticated auth_context = true ->
      lacks_permission auth_context permission ->
      require_permission auth_context permission
      = Raise (mkAuthenticationError
                 ("Permission '" +:+ permission +:+ "' required") 403)).
Proof.
  unfold require_permission, lacks_permission. split.
  - intros ->. reflexivity.
  - intros -> Hlack. simpl.
    destruct (permissions auth_context) as [m|]; simpl; [|reflexivity].
    rewrite (dict_get_false_of_lacks _ _ Hlack).
    rewrite orb_true_r. reflexivity.
Qed.

(** An authenticated context holding the permission passes. *)
Lemma require_permission_accepts (auth_context : AuthContext)
    (permission : string) (m : gmap string bool) :
  is_authenticated auth_context = true ->
  permissions auth_context = Some m ->
  m !! permission = Some true ->
  require_permission auth_context permission = Ok tt.
Proof.
  unfold require_permission. intros -> -> Hp. simpl.
  unfold dict_get. rewrite Hp. simpl.
  destruct (bool_decide (m = ∅)) eqn:E; [|reflexivity].
  apply bool_decide_eq_true in E. subst m.
  rewrite lookup_empty in Hp. discriminate.
Qed.

Lemma require_permission_rejects_witness :
  require_permission Examples.ctx_unauthenticated_all_true "admin"
  = Raise (mkAuthenticationError "Authentication required" 401)
  /\ require_permission Examples.ctx_api_user "admin"
     = Raise (mkAuthenticationError "Permission 'admin' required" 403).
Proof.
  split.
  - apply (proj1 (require_permission_rejects
                    Examples.ctx_unauthenticated_all_true "admin")).
    reflexivity.
  - apply (proj2 (require_permission_rejects Examples.ctx_api_user "admin")).
    + reflexivity.
    + right. vm_compute. reflexivity.
Defined.

(** *** The token cache *)

Lemma _cache_ttl_pos : 0 < _cache_ttl.
Proof. reflexivity. Qed.

Lemma _set_cache_lookup (cache : TokenCache) (token : string)
    (context : AuthContext) (now : datetime) :
  _set_cache cache token context now !! token = Some (context, now).
Proof.
  unfold _set_cache.
  destruct (1000 <? size (<[token:=(context, now)]> cache))%nat.
  - apply map_lookup_filter_Some. split.
    + apply lookup_insert_eq.
    + simpl. pose proof _cache_ttl_pos. lia.
  - apply lookup_insert_eq.
Qed.

Lemma _get_from_cache_hit (cache : TokenCache) (token : string)
    (context : AuthContext) (cached_at now : datetime) :
  cache !! token = Some (context, cached_at) ->
  now - cached_at < _cache_ttl ->
  _get_from_cache cache token now = (Some context, cache).
Proof.
  intros Hl Hlt. unfold _get_from_cache. rewrite Hl.
  destruct (now - cached_at <? _cache_ttl) eqn:E; [reflexivity|].
  apply Z.ltb_ge in E. lia.
Qed.

(** What a first authentication that misses the cache leaves behind. *)
Lemma _authenticate_jwt_token_caches (jwt_decode : string -> option Claims)
    (cache cache1 : TokenCache) (token : string) (now : datetime)
    (context : AuthContext) :
  fst (_get_from_cache cache token now) = None ->
  _authenticate_jwt_token jwt_decode cache token now
  = (Some context, cache1) ->
  PyStr.truthy token = true /\ cache1 !! token = Some (context, now).
Proof.
  unfold _authenticate_jwt_token. intros Hmiss.
  destruct (PyStr.truthy token); simpl; [|discriminate].
  destruct (_get_from_cache cache token now) as [[c|] cache0];
    simpl in Hmiss; [discriminate|].
  destruct (jwt_decode token) as [decoded|]; [|discriminate].
  destruct (Http.nonempty (claim_sub decoded)); [|discriminate].
  match goal with |- context [if ?b then _ else _] => destruct b end;
    [discriminate|].
  intros H. injection H as <- <-. split; [reflexivity|].
  apply _set_cache_lookup.
Qed.

Lemma _set_cache_lookup_ne (cache : TokenCache) (token token' : string)
    (context context' : AuthContext) (cached_at now : datetime) :
  token' <> token ->
  cache !! token = Some (context, cached_at) ->
  now - cached_at < _cache_ttl ->
  _set_cache cache token' context' now !! token = Some (context, cached_at).
Proof.
  intros Hne Hl Hlt. unfold _set_cache.
  destruct (1000 <? size (<[token':=(context', now)]> cache))%nat.
  - apply map_lookup_filter_Some. split.
    + rewrite lookup_insert_ne by exact Hne. exact Hl.
    + simpl. lia.
  - rewrite lookup_insert_ne by exact Hne. exact Hl.
Qed.

(** Authenticating any token within the TTL of an entry keeps the
    entry. *)
Lemma _authenticate_jwt_token_keeps (jwt_decode : string -> option Claims)
    (cache : TokenCache) (token token' : string) (context : AuthContext)
    (cached_at now : datetime) :
  cache !! token = Some (context, cached_at) ->
  now - cached_at < _cache_ttl ->
  snd (_authenticate_jwt_token jwt_decode cache token' now) !! token
  = Some (context, cached_at).
Proof.
  intros Hl Hlt. unfold _authenticate_jwt_token.
  destruct (PyStr.truthy token'); simpl; [|exact Hl].
  destruct (decide (token' = token)) as [->|Hne].
  - rewrite (_get_from_cache_hit _ _ _ _ _ Hl Hlt). exact Hl.
  - assert (Hl1 : snd (_get_from_cache cache token' now) !! token
                  = Some (context, cached_at)).
    { unfold _get_from_cache.
      destruct (cache !! token') as [[c' t']|]; [|exact Hl].
      destruct (now - t' <? _cache_ttl); [exact Hl|].
      simpl. rewrite lookup_delete_ne by exact Hne. exact Hl. }
    destruct (_get_from_cache cache token' now) as [[c'|] cache1];
      simpl in Hl1; [exact Hl1|].
    destruct (jwt_decode token') as [decoded|]; [|exact Hl1].
    destruct (Http.nonempty (claim_sub decoded)); [|exact Hl1].
    match goal with |- context [if ?b then _ else _] => destruct b end;
      [exact Hl1|].
    simpl. apply _set_cache_lookup_ne; assumption.
Qed.

Lemma busy_keeps (jwt_decode : string -> option Claims)
    (cache cache' : TokenCache) (token : string) (context : AuthContext)
    (cached_at : datetime) :
  busy jwt_decode cached_at cache cache' ->
  cache !! token = Some (context, cached_at) ->
  cache' !! token = Some (context, cached_at).
Proof.
  induction 1 as [cache | cache cache' token' now _ IH Hlt]; intros Hl.
  - exact Hl.
  - apply _authenticate_jwt_token_keeps; [apply IH, Hl | exact Hlt].
Qed.

(** C10.  A token that was authenticated through the decoder and cached
    at [now1] is answered from the cache at any [now2] less than the
    five-minute TTL later, with the same context and without touching the
    cache, whatever its [exp] claim says and whatever other
    authentications happened in between; a middleware with an empty cache
    rejects the same token at [now2] once [exp] has passed. *)
Theorem cached_jwt_outlives_expiry (jwt_decode : string -> option Claims)
    (cache cache1 cache2 : TokenCache) (token : string)
    (now1 now2 : datetime) (context : AuthContext) :
  fst (_get_from_cache cache token now1) = None ->
  _authenticate_jwt_token jwt_decode cache token now1
  = (Some context, cache1) ->
  busy jwt_decode now1 cache1 cache2 ->
  now2 - now1 < _cache_ttl ->
  _authenticate_jwt_token jwt_decode cache2 token now2
  = (Some context, cache2)
  /\ (forall decoded e,
        jwt_decode token = Some decoded ->
        claim_exp decoded = Some e -> e <> 0 -> fromtimestamp e < now2 ->
        _authenticate_jwt_token jwt_decode ∅ token now2 = (None, ∅)).
Proof.
  intros Hmiss Hauth Hbusy Httl.
  destruct (_authenticate_jwt_token_caches _ _ _ _ _ _ Hmiss Hauth)
    as [Htok Hl].
  pose proof (busy_keeps _ _ _ _ _ _ Hbusy Hl) as Hl2.
  split.
  - unfold _authenticate_jwt_token. rewrite Htok. simpl.
    rewrite (_get_from_cache_hit _ _ _ _ _ Hl2 Httl). reflexivity.
  - intros decoded e Hd He Hne Hpast.
    unfold _authenticate_jwt_token. rewrite Htok. simpl.
    unfold _get_from_cache. rewrite lookup_empty. rewrite Hd.
    destruct (Http.nonempty (claim_sub decoded)); [|reflexivity].
    rewrite He.
    destruct (e =? 0) eqn:E0; [apply Z.eqb_eq in E0; contradiction|].
    destruct (fromtimestamp e <? now2) eqn:E1; [reflexivity|].
    apply Z.ltb_ge in E1. lia.
Qed.

(** The token of [Examples.jwt_decode_one] expires at second 1000; it is
    first seen half a second earlier, an unknown token is tried a minute
    later, and the first token is presented again four minutes after its
    first use. *)
Lemma cached_jwt_outlives_expiry_witness :
  let now1 := 999500000 in
  let now2 := now1 + minutes 4 in
  let first := _authenticate_jwt_token Examples.jwt_decode_one ∅ "tok" now1 in
  let cache2 :=
    snd (_authenticate_jwt_token Examples.jwt_decode_one (snd first)
           "other" (now1 + minutes 1)) in
  fromtimestamp 1000 < now2
  /\ (exists context,
        fst first = Some context
        /\ _authenticate_jwt_token Examples.jwt_decode_one cache2 "tok" now2
           = (Some context, cache2))
  /\ _authenticate_jwt_token Examples.jwt_decode_one ∅ "tok" now2
     = (None, ∅).
Proof.
  intros now1 now2 first cache2.
  destruct first as [octx cache1] eqn:Hfirst.
  assert (Hctx : exists context, octx = Some context).
  { subst first. vm_compute in Hfirst. injection Hfirst as <- _. eauto. }
  destruct Hctx as [context ->].
  assert (Hmiss : fst (_get_from_cache ∅ "tok" now1) = None)
    by reflexivity.
  assert (Httl : now2 - now1 < _cache_ttl) by (vm_compute; reflexivity).
  assert (Hbusy : busy Examples.jwt_decode_one now1 cache1 cache2).
  { apply busy_step; [apply busy_refl | vm_compute; reflexivity]. }
  destruct (cached_jwt_outlives_expiry Examples.jwt_decode_one ∅ cache1
              cache2 "tok" now1 now2 context Hmiss Hfirst Hbusy Httl)
    as [Hhit Hfresh].
  split; [vm_compute; reflexivity|]. split.
  - exists context. split; [reflexivity | exact Hhit].
  - apply (Hfresh (mkClaims (Some "u1") None None (Some 1000)) 1000);
      [reflexivity | reflexivity | discriminate | vm_compute; reflexivity].
Defined.

End AuthProps.

(** ** Rate limiting *)

Module RateLimitProps.

Import Http.
Import RateLimit.

Section WithIpAddress.

Variable ip_address : string -> option IPAddress.

Lemma _is_trusted_ip_config (self self' : SecurityMiddleware)
    (ip : string) :
  config self' = config self ->
  _is_trusted_ip ip_address self' ip = _is_trusted_ip ip_address self ip.
Proof.
  unfold config, _is_trusted_ip. intros H.
  injection H as _ _ _ _ -> _. reflexivity.
Qed.

(** Logging touches the event buffer only. *)
Lemma _log_security_event_frame (self : SecurityMiddleware)
    (ip ty det sev : string) (request : Request) (now : datetime) :
  config (_log_security_event self ip ty det sev request now)
  = config self
  /\ _blocked_ips (_log_security_event self ip ty det sev request now)
     = _blocked_ips self
  /\ _rate_limits (_log_security_event self ip ty det sev request now)
     = _rate_limits self.
Proof. repeat split. Qed.

Lemma frame_refl (self : SecurityMiddleware) : frame self self.
Proof. repeat split. Qed.

Lemma frame_trans (a b c : SecurityMiddleware) :
  frame a b -> frame b c -> frame a c.
Proof.
  intros (H1 & H2 & H3) (H4 & H5 & H6).
  repeat split; congruence.
Qed.

Lemma frame_log (self : SecurityMiddleware)
    (ip ty det sev : string) (request : Request) (now : datetime) :
  frame self (_log_security_event self ip ty det sev request now).
Proof. apply _log_security_event_frame. Qed.

Lemma frame_fold_left {A} (f : SecurityMiddleware -> A -> SecurityMiddleware)
    (l : list A) (self : SecurityMiddleware) :
  (forall s a, frame s (f s a)) -> frame self (fold_left f l self).
Proof.
  intros Hf. revert self.
  induction l as [|a l IH]; intros self; simpl.
  - apply frame_refl.
  - eapply frame_trans; [apply Hf | apply IH].
Qed.

Lemma frame_log_first_match (self : SecurityMiddleware)
    (patterns : list string) (url ip ty label : string)
    (request : Request) (now : datetime) :
  frame self
    (log_first_match self patterns url ip ty label request now).
Proof.
  unfold log_first_match.
  destruct (find _ patterns); [apply frame_log | apply frame_refl].
Qed.

(** The threat scan only appends events. *)
Lemma check_security_threats_frame (self : SecurityMiddleware)
    (request : Request) (now : datetime) :
  frame self (check_security_threats ip_address self request now).
Proof.
  unfold check_security_threats, _check_suspicious_url,
    _check_suspicious_headers.
  eapply frame_trans; [|apply frame_log_first_match].
  eapply frame_trans; [|apply frame_log_first_match].
  eapply frame_trans; [|apply frame_log_first_match].
  eapply frame_trans; [|apply frame_fold_left].
  - destruct (existsb _ _); [apply frame_log | apply frame_refl].
  - intros s [header threat].
    destruct (headers_get request header); [|apply frame_refl].
    destruct (_ && _); [apply frame_log | apply frame_refl].
Qed.

(** A check leaves the configuration alone and can only add the
    address it has just found untrusted to the blocked set. *)
Lemma check_rate_limit_blocked (self : SecurityMiddleware)
    (request : Request) (now : datetime) :
  let self' := snd (check_rate_limit ip_address self request now) in
  config self' = config self
  /\ forall ip, ip ∈ _blocked_ips self' ->
       ip ∈ _blocked_ips self
       \/ (ip = _get_client_ip ip_address request
           /\ _is_trusted_ip ip_address self ip = false).
Proof.
  unfold check_rate_limit. cbv zeta.
  destruct (_is_trusted_ip ip_address self _) eqn:Ht;
    [simpl; split; [reflexivity | auto]|].
  destruct (bool_decide _) eqn:Hb; [simpl; split; [reflexivity | auto]|].
  destruct (match blocked_until _ with Some _ => _ | None => _ end);
    [simpl; split; [reflexivity | auto]|].
  destruct (max_requests_per_window _ <=? _);
    [|simpl; split; [reflexivity | auto]].
  destruct (max_violations_before_block _ <=? _); simpl.
  - split; [reflexivity|]. intros ip Hip.
    apply elem_of_union in Hip as [Hip | Hip]; [|auto].
    apply elem_of_singleton in Hip. subst ip. right. auto.
  - split; [reflexivity | auto].
Qed.

Lemma _cleanup_old_data_blocked (self : SecurityMiddleware)
    (now : datetime) :
  config (_cleanup_old_data self now) = config self
  /\ _blocked_ips (_cleanup_old_data self now) ⊆ _blocked_ips self.
Proof.
  unfold _cleanup_old_data. simpl. split; [reflexivity|].
  apply subseteq_difference_l. reflexivity.
Qed.

(** In every reachable state the configuration is the initial one and
    no trusted address is blocked. *)
Lemma reachable_invariant (rate_limit_per_minute : Z)
    (self : SecurityMiddleware) :
  reachable ip_address rate_limit_per_minute self ->
  config self = config (SecurityMiddleware_init rate_limit_per_minute)
  /\ forall ip, ip ∈ _blocked_ips self ->
       _is_trusted_ip ip_address self ip = false.
Proof.
  induction 1 as [|self self' _ [Hc Hb] Hstep].
  - split; [reflexivity|]. intros ip Hip. simpl in Hip.
    exfalso. revert Hip. apply not_elem_of_empty.
  - destruct Hstep as [self request now | self request now | self now].
    + destruct (check_rate_limit_blocked self request now) as [Hc' Hb'].
      split; [congruence|]. intros ip Hip.
      rewrite (_is_trusted_ip_config _ _ _ Hc').
      destruct (Hb' ip Hip) as [Hold | [_ Hnew]]; auto.
    + destruct (check_security_threats_frame self request now)
        as (Hc' & Hb' & _).
      split; [congruence|]. intros ip Hip.
      rewrite (_is_trusted_ip_config _ _ _ Hc').
      rewrite Hb' in Hip. auto.
    + destruct (_cleanup_old_data_blocked self now) as [Hc' Hb'].
      split; [congruence|]. intros ip Hip.
      rewrite (_is_trusted_ip_config _ _ _ Hc'). auto.
Qed.

(** The branch of [check_rate_limit] taken for an untrusted address of
    the blocked set. *)
Lemma check_rate_limit_blocked_branch (self : SecurityMiddleware)
    (request : Request) (now : datetime) :
  let client_ip := _get_client_ip ip_address request in
  _is_trusted_ip ip_address self client_ip = false ->
  client_ip ∈ _blocked_ips self ->
  check_rate_limit ip_address self request now
  = (Raise (HTTPException 429 "IP address is temporarily blocked"
              [("Retry-After",
                str_int (total_seconds_int (block_duration self)))]),
     set_security_events self
       (deque_append 1000 (_security_events self)
          (mkSecurityEvent now client_ip "blocked_request"
             "Request from blocked IP" "medium"
             (headers_get request "user-agent")
             (Some (url_path request))))).
Proof.
  intros client_ip Ht Hb. unfold check_rate_limit. cbv zeta.
  fold client_ip. rewrite Ht.
  rewrite (bool_decide_eq_true_2 _ Hb). reflexivity.
Qed.

(** C4 (amended).  In every reachable state, a check for a client
    address of the blocked set raises the 429 "temporarily blocked"
    error whatever the address's request window holds; the Retry-After
    value is the whole block duration, 900 seconds, not the time left;
    a [blocked_request] event of medium severity is appended to the
    event buffer, and nothing else changes. *)
Theorem blocked_ip_is_refused (rate_limit_per_minute : Z)
    (self : SecurityMiddleware) (request : Request) (now : datetime) :
  reachable ip_address rate_limit_per_minute self ->
  _get_client_ip ip_address request ∈ _blocked_ips self ->
  check_rate_limit ip_address self request now
  = (Raise (HTTPException 429 "IP address is temporarily blocked"
              [("Retry-After", "900")]),
     set_security_events self
       (deque_append 1000 (_security_events self)
          (mkSecurityEvent now (_get_client_ip ip_address request)
             "blocked_request" "Request from blocked IP" "medium"
             (headers_get request "user-agent")
             (Some (url_path request))))).
Proof.
  intros Hreach Hb.
  destruct (reachable_invariant _ _ Hreach) as [Hc Hinv].
  rewrite (check_rate_limit_blocked_branch self request now
             (Hinv _ Hb) Hb).
  assert (Hd : block_duration self = minutes 15).
  { unfold config in Hc. simpl in Hc. congruence. }
  rewrite Hd. reflexivity.
Qed.

Lemma first_header_ip_split (request : Request)
    (pre post : list string) (header ip : string) :
  Forall (fun h => header_ip ip_address request h = None) pre ->
  header_ip ip_address request header = Some ip ->
  first_header_ip ip_address request (pre ++ header :: post) = Some ip.
Proof.
  intros Hpre Hh. induction Hpre as [|h pre Hnone _ IH]; simpl.
  - unfold header_ip in Hh.
    destruct (headers_get request header); [|discriminate].
    destruct (ip_address _); [|discriminate]. exact Hh.
  - unfold header_ip in Hnone.
    destruct (headers_get request h); [|exact IH].
    destruct (ip_address _); [discriminate | exact IH].
Qed.

(** C9 (amended).  When the first header of the lookup order whose
    first comma-separated entry parses as an address names an address
    of a trusted network, the check returns normally and changes
    nothing (rate-limit records, blocked set, events), whatever the
    transport peer and whatever the state. *)
Theorem trusted_header_bypasses (self : SecurityMiddleware)
    (request : Request) (now : datetime)
    (pre post : list string) (header ip : string) :
  headers_to_check = pre ++ header :: post ->
  Forall (fun h => header_ip ip_address request h = None) pre ->
  header_ip ip_address request header = Some ip ->
  _is_trusted_ip ip_address self ip = true ->
  check_rate_limit ip_address self request now = (Ok tt, self).
Proof.
  intros Hsplit Hpre Hh Ht.
  unfold check_rate_limit, _get_client_ip. cbv zeta.
  rewrite Hsplit.
  rewrite (first_header_ip_split request pre post header ip Hpre Hh).
  rewrite Ht. reflexivity.
Qed.

End WithIpAddress.

Ltac reach_by_checks :=
  repeat refine (reachable_step _ _ _ _ _ (step_check _ _ _ _));
  apply reachable_init.

Lemma blocked_middleware_reachable :
  reachable parse_ipv4 1 Examples.blocked_middleware.
Proof.
  unfold Examples.blocked_middleware, Examples.checked. reach_by_checks.
Qed.

Lemma public_peer_blocked :
  _get_client_ip parse_ipv4 Examples.public_request
  ∈ _blocked_ips Examples.blocked_middleware.
Proof. refine (bool_decide_unpack _ _). vm_compute. exact I. Qed.

Lemma blocked_ip_is_refused_witness :
  reachable parse_ipv4 1 Examples.blocked_middleware
  /\ _get_client_ip parse_ipv4 Examples.public_request
     ∈ _blocked_ips Examples.blocked_middleware
  /\ fst (check_rate_limit parse_ipv4 Examples.blocked_middleware
            Examples.public_request (minutes 10))
     = Raise (HTTPException 429 "IP address is temporarily blocked"
                [("Retry-After", "900")]).
Proof.
  split; [exact blocked_middleware_reachable|].
  split; [exact public_peer_blocked|].
  rewrite (blocked_ip_is_refused parse_ipv4 1 Examples.blocked_middleware
             Examples.public_request (minutes 10)
             blocked_middleware_reachable public_peer_blocked).
  reflexivity.
Defined.

(** C4 as stated fails: ten minutes into a fifteen-minute block there
    are 300 seconds left, and the answer still says 900. *)
Lemma retry_after_is_not_the_time_left :
  let now := minutes 10 in
  fst (check_rate_limit parse_ipv4 Examples.blocked_middleware
         Examples.public_request now)
  = Raise (HTTPException 429 "IP address is temporarily blocked"
             [("Retry-After", "900")])
  /\ blocked_until
       <$> (_rate_limits Examples.blocked_middleware !! "203.0.113.1")
     = Some (Some (5 + minutes 15))
  /\ total_seconds_int (5 + minutes 15 - now) = 300.
Proof. vm_compute. repeat split. Qed.

Lemma trusted_header_bypasses_witness :
  header_ip parse_ipv4 Examples.spoofed_request "x-forwarded-for" = None
  /\ header_ip parse_ipv4 Examples.spoofed_request "x-real-ip"
     = Some "10.0.0.1"
  /\ _is_trusted_ip parse_ipv4 Examples.blocked_middleware "10.0.0.1"
     = true
  /\ client Examples.spoofed_request = Some "203.0.113.1"
  /\ "203.0.113.1" ∈ _blocked_ips Examples.blocked_middleware
  /\ check_rate_limit parse_ipv4 Examples.blocked_middleware
       Examples.spoofed_request (minutes 10)
     = (Ok tt, Examples.blocked_middleware).
Proof.
  assert (H1 : header_ip parse_ipv4 Examples.spoofed_request
                 "x-forwarded-for" = None) by reflexivity.
  assert (H2 : header_ip parse_ipv4 Examples.spoofed_request "x-real-ip"
               = Some "10.0.0.1") by (vm_compute; reflexivity).
  assert (H3 : _is_trusted_ip parse_ipv4 Examples.blocked_middleware
                 "10.0.0.1" = true) by (vm_compute; reflexivity).
  split; [exact H1|]. split; [exact H2|]. split; [exact H3|].
  split; [reflexivity|]. split; [exact public_peer_blocked|].
  apply (trusted_header_bypasses parse_ipv4 Examples.blocked_middleware
             Examples.spoofed_request (minutes 10)
             ["x-forwarded-for"]
             ["x-forwarded"; "x-cluster-client-ip"; "forwarded-for";
              "forwarded"]
             "x-real-ip" "10.0.0.1");
      [reflexivity | constructor; [exact H1 | constructor]
       | exact H2 | exact H3].
Defined.

(** C9 as stated fails: the request carries [x-real-ip: 10.0.0.1], a
    trusted address, but [x-forwarded-for: 8.8.8.8] comes first in the
    lookup order, so 8.8.8.8 is tracked and, at one request per minute,
    refused on its second request. *)
Lemma trusted_entry_in_a_later_header_is_ignored :
  let s1 := snd (check_rate_limit parse_ipv4 Examples.fresh_middleware
                   Examples.two_header_request 0) in
  header_ip parse_ipv4 Examples.two_header_request "x-real-ip"
  = Some "10.0.0.1"
  /\ _is_trusted_ip parse_ipv4 Examples.fresh_middleware "10.0.0.1" = true
  /\ _rate_limits s1 !! "8.8.8.8"
     = Some (mkRateLimitInfo [0] None 1 0 (Some 0) (Some 0))
  /\ fst (check_rate_limit parse_ipv4 s1 Examples.two_header_request 1)
     = Raise (RateLimitExceeded
                "Rate limit exceeded. Maximum 1 requests per minute." 60).
Proof. vm_compute. repeat split. Qed.

End RateLimitProps.

(** ** The JSON-RPC handler *)

Module MCPProps.

Import MCP.

Section Handler.

Context {S : Type}.
Variable initialize : Dict -> S -> Result string Dict * S.
Variable list_tools : S -> Result string Dict * S.
Variable call_tool : string -> Dict -> S -> Result string Dict * S.
Variable list_resources : S -> Result string Dict * S.
Variable read_resource : string -> S -> Result string Dict * S.
Variable InitializeParams : Dict -> Result string Dict.
Variable CallToolParams : Dict -> Result string (string * Dict).
Variable ReadResourceParams : Dict -> Result string string.
Variable json_loads : string -> Result string JSON.
Variable MCPRequest_validate : Dict -> Result string MCPRequest.
Variable mapping_error : JSON -> string.

Local Abbreviation handle_request :=
  (handle_request initialize list_tools call_tool list_resources
     read_resource InitializeParams CallToolParams ReadResourceParams).
Local Abbreviation process_message :=
  (process_message initialize list_tools call_tool list_resources
     read_resource InitializeParams CallToolParams ReadResourceParams
     json_loads MCPRequest_validate mapping_error).



End Handler.



(** A JSON array is valid JSON but no request: unpacking it fails before
    the request model is reached, and the answer is -32603. *)
Lemma json_array_is_internal_error :
  code <$> error (fst (Examples.sample_process_message
                         Examples.nop_handler "[]"))
  = Some (-32603).
Proof. reflexivity. Qed.

End MCPProps.

(** ** The [/mcp/tools] route *)

Module ServerProps.

Import Http.
Import Server.

(** C5 (amended).  The route calls the rate limiter first.  When the
    rate limiter raises, nothing else is called: the request is not
    scanned and not authenticated.  Otherwise the threat scan, the
    authenticator and the handler follow, in this order. *)
Theorem list_tools_call_order
    (ip_address : string -> option RateLimit.IPAddress)
    (jwt_decode : string -> option Auth.Claims)
    (settings : Auth.Settings) (tools_dump : MCP.JSON)
    (w : World) (request : Request) (now : Z) :
  calls (snd (list_tools ip_address jwt_decode settings tools_dump
                w request now))
  = match fst (RateLimit.check_rate_limit ip_address (security w)
                 request now) with
    | Ok _ =>
        calls w ++ [RateLimiter_check; ThreatScanner_scan;
                    Authenticator_authenticate; Handler_list_tools]
    | Raise _ => calls w ++ [RateLimiter_check]
    end.
Proof.
  unfold list_tools, called. simpl.
  destruct (RateLimit.check_rate_limit ip_address (security w) request now)
    as [[[]|[status detail hdrs|message retry_after]] sec]; simpl.
  - destruct (Auth.authenticate_request _ _ _ _ _) as [auth_context cache].
    simpl. rewrite <- !app_assoc. reflexivity.
  - reflexivity.
  - reflexivity.
Qed.

(** C5 as stated fails: at one request per minute, the first request
    reaches the rate limiter before the scanner, and the second request,
    which is refused, is never scanned. *)
Lemma rate_limited_request_is_not_scanned :
  let w1 := snd (Examples.nop_list_tools Examples.fresh_world
                   Examples.public_request 0) in
  calls w1 = [RateLimiter_check; ThreatScanner_scan;
              Authenticator_authenticate; Handler_list_tools]
  /\ fst (Examples.nop_list_tools w1 Examples.public_request 1)
     = RaiseHTTPException 429
         "Rate limit exceeded. Maximum 1 requests per minute."
         [("Retry-After", "60")]
  /\ calls (snd (Examples.nop_list_tools w1 Examples.public_request 1))
     = calls w1 ++ [RateLimiter_check].
Proof. vm_compute. repeat split. Qed.

End ServerProps.

(** ** The SQL-execution tool *)

Module SupabaseHandlerProps.

Import MCP.
Import QueryValidator.
Import SupabaseHandler.

Lemma validate_query_ok_nonblank (self : QueryValidator) (query : string)
    (allow_modifications : bool) (validation : ValidationResult) :
  validate_query self query allow_modifications = Ok validation ->
  PyStr.truthy (PyStr.strip query) = true.
Proof.
  unfold validate_query.
  destruct (PyStr.truthy (PyStr.strip query)); [reflexivity|].
  rewrite orb_true_r. discriminate.
Qed.

Section QueryDatabase.

Context {DB QueryResult : Type}.
Variable execute_query :
  string -> option JSON -> DB -> Result string QueryResult * DB.
Variable execution_line : QueryResult -> string.
Variable render_rows : QueryResult -> list string.

Local Abbreviation _handle_query_database :=
  (_handle_query_database execute_query execution_line render_rows).


End QueryDatabase.



End SupabaseHandlerProps.

(** ** The query validator *)

Module QueryValidatorProps.

Import Re.
Import QueryValidator.

(** C2: what the code does on the query of the claim.  The trailing
    comment is removed by the normalisation before any check runs, the
    remaining text matches no signature, and the query is accepted as safe
    under either setting of [allow_modifications]. *)
Theorem trailing_comment_injection_is_accepted (allow_modifications : bool) :
  validate_query query_validator "SELECT * FROM users WHERE id=1 OR 1=1 --"
    allow_modifications
  = Ok (mkValidationResult true SAFE [] []
          (Some "SELECT * FROM users WHERE id=1 OR 1=1") false).
Proof. destruct allow_modifications; vm_compute; reflexivity. Qed.

(** The same holds for the query of [test_validate_query_with_comments]. *)
Lemma commented_query_is_accepted :
  validate_query query_validator "SELECT * FROM users -- This is a comment"
    false
  = Ok (mkValidationResult true SAFE [] [] (Some "SELECT * FROM users")
          false).
Proof. vm_compute. reflexivity. Qed.

(** [max] over the string values does not follow the ordering of the
    levels: "safe" is the greatest string, "dangerous" the least. *)
Lemma max_by_value_table :
  max_by_value SAFE HIGH = SAFE
  /\ max_by_value SAFE MEDIUM = SAFE
  /\ max_by_value SAFE LOW = SAFE
  /\ max_by_value DANGEROUS HIGH = HIGH
  /\ max_by_value HIGH MEDIUM = MEDIUM
  /\ max_by_value MEDIUM LOW = MEDIUM.
Proof. vm_compute. repeat split. Qed.

Lemma nonempty_false {A} (l : list A) : nonempty l = false -> l = [].
Proof. destruct l; [reflexivity | discriminate]. Qed.

Lemma nonempty_true_elem {A} (l : list A) (x : A) :
  x ∈ l -> nonempty l = true.
Proof. destruct l; [intros H; inversion H | reflexivity]. Qed.

Lemma dangerous_keyword_reported (self : QueryValidator)
    (keyword query : string) :
  keyword ∈ dangerous_keywords self ->
  search no_flags (word keyword) query = true ->
  ("Dangerous operation detected: " +:+ keyword)
  ∈ _check_dangerous_operations self query.
Proof.
  intros Hk Hs. unfold _check_dangerous_operations.
  assert (Hin : ("Dangerous operation detected: " +:+ keyword)
                ∈ omap (fun keyword =>
                          if search no_flags (word keyword) query
                          then Some ("Dangerous operation detected: "
                                     +:+ keyword)
                          else None) (dangerous_keywords self)).
  { apply list_elem_of_omap. exists keyword. split; [exact Hk|].
    rewrite Hs. reflexivity. }
  repeat match goal with
         | |- context [if ?b then _ else _] => destruct b
         end;
    repeat (apply elem_of_app; left); exact Hin.
Qed.




End QueryValidatorProps.

(** ** String methods *)

Module PyStrProps.

Import PyStr.

Lemma append_cons (c : ascii) (a b : string) :
  String c a +:+ b = String c (a +:+ b).
Proof. reflexivity. Qed.

Lemma length_append (a b : string) :
  String.length (a +:+ b) = (String.length a + String.length b)%nat.
Proof. induction a as [|c a IH]; simpl; [reflexivity | now rewrite IH]. Qed.


(** [String.prefix] on a two-character pattern. *)
Lemma prefix2 (a b : ascii) (s : string) :
  String.prefix (String a (String b EmptyString)) s
  = match s with
    | String c (String d _) => Ascii.eqb a c && Ascii.eqb b d
    | _ => false
    end.
Proof.
  destruct s as [|c [|d s]]; simpl.
  - reflexivity.
  - destruct (ascii_dec a c); reflexivity.
  - destruct (ascii_dec a c) as [->|Hac].
    + rewrite Ascii.eqb_refl.
      destruct (ascii_dec b d) as [->|Hbd].
      * rewrite Ascii.eqb_refl. destruct s; reflexivity.
      * apply Ascii.eqb_neq in Hbd. rewrite Hbd. reflexivity.
    + apply Ascii.eqb_neq in Hac. rewrite Hac. reflexivity.
Qed.

Lemma prefix_append (sub a b : string) :
  String.prefix sub a = true -> String.prefix sub (a +:+ b) = true.
Proof.
  revert sub. induction a as [|c a IH]; intros [|d sub]; simpl; try easy.
  - intros _. destruct b; reflexivity.
  - destruct (ascii_dec d c); [apply IH | easy].
Qed.

Lemma contains_cons (sub : string) (c : ascii) (s : string) :
  contains sub (String c s)
  = String.prefix sub (String c s) || contains sub s.
Proof. reflexivity. Qed.

Lemma contains_tail (sub : string) (c : ascii) (s : string) :
  contains sub (String c s) = false -> contains sub s = false.
Proof. rewrite contains_cons. intros H. apply orb_false_elim in H. tauto. Qed.

Lemma contains_prefix (sub s : string) :
  contains sub s = false -> String.prefix sub s = false.
Proof.
  destruct s; simpl; intros H; apply orb_false_elim in H; tauto.
Qed.

Lemma contains_append (sub a b : string) :
  contains sub a = true -> contains sub (a +:+ b) = true.
Proof.
  induction a as [|c a IH].
  - simpl. rewrite orb_false_r. intros H.
    destruct sub; [|discriminate]. destruct b; reflexivity.
  - rewrite append_cons, !contains_cons. intros H.
    apply orb_true_iff in H as [H | H]; apply orb_true_iff.
    + left. apply (prefix_append sub (String c a) b H).
    + right. apply IH, H.
Qed.

(** *** [lstrip] and [rstrip] *)

Section Strip.

Variable p : ascii -> bool.

Lemma lstrip_by_idem (s : string) :
  lstrip_by p (lstrip_by p s) = lstrip_by p s.
Proof.
  induction s as [|c s IH]; simpl; [reflexivity|].
  destruct (p c) eqn:E; [exact IH|]. simpl. rewrite E. reflexivity.
Qed.

Lemma rstrip_by_cons (c : ascii) (s : string) :
  rstrip_by p (String c s)
  = match rstrip_by p s with
    | EmptyString => if p c then EmptyString else String c EmptyString
    | r => String c r
    end.
Proof. reflexivity. Qed.

Lemma rstrip_by_idem (s : string) :
  rstrip_by p (rstrip_by p s) = rstrip_by p s.
Proof.
  induction s as [|c s IH]; [reflexivity|].
  rewrite rstrip_by_cons.
  destruct (rstrip_by p s) as [|e r] eqn:E.
  - destruct (p c) eqn:Ep; [reflexivity|]. simpl. rewrite Ep. reflexivity.
  - rewrite rstrip_by_cons, IH. reflexivity.
Qed.

(** A right-stripped string stays right-stripped when stripped on the
    left. *)
Lemma rstrip_by_lstrip_by (s : string) :
  rstrip_by p s = s -> rstrip_by p (lstrip_by p s) = lstrip_by p s.
Proof.
  induction s as [|c s IH]; [reflexivity|].
  intros H. simpl. destruct (p c) eqn:Ep; [|exact H].
  apply IH. rewrite rstrip_by_cons in H.
  destruct (rstrip_by p s) as [|e r].
  - rewrite Ep in H. discriminate.
  - injection H as H. exact H.
Qed.

(** [rstrip] returns a prefix. *)
Lemma rstrip_by_prefix (s : string) :
  exists tail, s = rstrip_by p s +:+ tail.
Proof.
  induction s as [|c s [tail IH]]; [exists EmptyString; reflexivity|].
  rewrite rstrip_by_cons.
  destruct (rstrip_by p s) as [|e r].
  - destruct (p c).
    + exists (String c s). reflexivity.
    + exists tail. rewrite append_cons. f_equal. exact IH.
  - exists tail. rewrite append_cons, <- IH. reflexivity.
Qed.



Lemma contains_lstrip_by (sub s : string) :
  contains sub (lstrip_by p s) = true -> contains sub s = true.
Proof.
  induction s as [|c s IH]; [easy|]. simpl lstrip_by.
  destruct (p c); [|easy]. intros H. rewrite contains_cons.
  rewrite (IH H). apply orb_true_r.
Qed.

Lemma contains_rstrip_by (sub s : string) :
  contains sub (rstrip_by p s) = true -> contains sub s = true.
Proof.
  intros H. destruct (rstrip_by_prefix s) as [tail Ht].
  rewrite Ht. apply contains_append, H.
Qed.

End Strip.

(** *** [endswith] *)











End PyStrProps.

(** ** The matcher *)

Module ReProps.

Import Re.

Lemma m_In_cons (fl : flags) (items : list cset) (prev : option ascii)
    (d : ascii) (s : string) (k : cont) :
  m fl (In_ items) prev (String d s) k
  = if in_matches fl items d then k (Some d) s else None.
Proof. reflexivity. Qed.

Lemma m_Cat (fl : flags) (r1 r2 : regex) (prev : option ascii) (s : string)
    (k : cont) :
  m fl (Cat r1 r2) prev s k = m fl r1 prev s (fun p s' => m fl r2 p s' k).
Proof. reflexivity. Qed.

Lemma m_Star (fl : flags) (r : regex) (prev : option ascii) (s : string)
    (k : cont) :
  m fl (Star r) prev s k = star_greedy (m fl r) k (String.length s) prev s.
Proof. reflexivity. Qed.

Lemma m_StarLazy (fl : flags) (r : regex) (prev : option ascii) (s : string)
    (k : cont) :
  m fl (StarLazy r) prev s k
  = star_lazy (m fl r) k (String.length s) prev s.
Proof. reflexivity. Qed.

Lemma star_greedy_S (body : option ascii -> string -> cont -> option state)
    (k : cont) (n : nat) (prev : option ascii) (s : string) :
  star_greedy body k (S n) prev s
  = match body prev s
            (fun p s' =>
               if (String.length s' <? String.length s)%nat
               then star_greedy body k n p s' else None) with
    | Some x => Some x
    | None => k prev s
    end.
Proof. reflexivity. Qed.

Lemma star_lazy_S (body : option ascii -> string -> cont -> option state)
    (k : cont) (n : nat) (prev : option ascii) (s : string) :
  star_lazy body k (S n) prev s
  = match k prev s with
    | Some x => Some x
    | None =>
        body prev s
          (fun p s' =>
             if (String.length s' <? String.length s)%nat
             then star_lazy body k n p s' else None)
    end.
Proof. reflexivity. Qed.

(** *** The fuel of the loops is enough

    The matcher depends on its continuation only through the
    continuation's values; with a continuation that always fails it fails;
    so a repetition run with any bound not below the length of the text
    gives the result of the bound [m] uses, and the scans of [sub] and
    [findall] give the same result for any fuel above the length. *)

Lemma m_ext (fl : flags) (r : regex) :
  forall prev s k1 k2, agree k1 k2 -> m fl r prev s k1 = m fl r prev s k2.
Proof.
  induction r as [| c | | items | r1 IH1 r2 IH2 | r1 IH1 r2 IH2
                 | r1 IH1 | r1 IH1 | | ]; intros prev s k1 k2 H.
  - apply H.
  - simpl. destruct s; [reflexivity|].
    destruct (chr_matches fl c a); [apply H | reflexivity].
  - simpl. destruct s; [reflexivity|].
    destruct (DOTALL fl || negb (Ascii.eqb a newline));
      [apply H | reflexivity].
  - simpl. destruct s; [reflexivity|].
    destruct (in_matches fl items a); [apply H | reflexivity].
  - rewrite !m_Cat. apply IH1. intros p s'. apply IH2, H.
  - simpl. rewrite (IH1 prev s k1 k2 H), (IH2 prev s k1 k2 H). reflexivity.
  - rewrite !m_Star. generalize (String.length s) as n. intros n.
    revert prev s. induction n as [|n IHn]; intros prev s.
    + apply H.
    + rewrite !star_greedy_S.
      rewrite (IH1 prev s _
                 (fun p s' =>
                    if (String.length s' <? String.length s)%nat
                    then star_greedy (m fl r1) k2 n p s' else None)).
      * rewrite H. reflexivity.
      * intros p s'. destruct (_ <? _)%nat; [apply IHn | reflexivity].
  - rewrite !m_StarLazy. generalize (String.length s) as n. intros n.
    revert prev s. induction n as [|n IHn]; intros prev s.
    + simpl. rewrite H. reflexivity.
    + rewrite !star_lazy_S, H. destruct (k2 prev s); [reflexivity|].
      apply IH1. intros p s'.
      destruct (_ <? _)%nat; [apply IHn | reflexivity].
  - simpl. destruct (xorb _ _); [apply H | reflexivity].
  - simpl. destruct s; [apply H|].
    destruct (_ && _); [apply H | reflexivity].
Qed.

Lemma m_fail (fl : flags) (r : regex) :
  forall prev s, m fl r prev s fail = None.
Proof.
  induction r as [| c | | items | r1 IH1 r2 IH2 | r1 IH1 r2 IH2
                 | r1 IH1 | r1 IH1 | | ]; intros prev s.
  - reflexivity.
  - simpl. destruct s; [reflexivity|]. destruct (chr_matches _ _ _);
      reflexivity.
  - simpl. destruct s; [reflexivity|]. destruct (_ || _); reflexivity.
  - simpl. destruct s; [reflexivity|]. destruct (in_matches _ _ _);
      reflexivity.
  - rewrite m_Cat. rewrite (m_ext fl r1 prev s _ fail); [apply IH1|].
    intros p s'. apply IH2.
  - simpl. rewrite IH1, IH2. reflexivity.
  - rewrite m_Star. generalize (String.length s) as n. intros n.
    revert prev s. induction n as [|n IHn]; intros prev s; [reflexivity|].
    rewrite star_greedy_S.
    rewrite (m_ext fl r1 prev s _ fail); [rewrite IH1; reflexivity|].
    intros p s'. destruct (_ <? _)%nat; [apply IHn | reflexivity].
  - rewrite m_StarLazy. generalize (String.length s) as n. intros n.
    revert prev s. induction n as [|n IHn]; intros prev s; [reflexivity|].
    rewrite star_lazy_S. unfold fail at 1.
    rewrite (m_ext fl r1 prev s _ fail); [apply IH1|].
    intros p s'. destruct (_ <? _)%nat; [apply IHn | reflexivity].
  - simpl. destruct (xorb _ _); reflexivity.
  - simpl. destruct s; [reflexivity|]. destruct (_ && _); reflexivity.
Qed.

Lemma star_greedy_fuel (fl : flags) (r : regex) (k : cont) :
  forall n n' prev s,
    (String.length s <= n)%nat -> (String.length s <= n')%nat ->
    star_greedy (m fl r) k n prev s = star_greedy (m fl r) k n' prev s.
Proof.
  assert (Hnil : forall n prev,
             star_greedy (m fl r) k n prev EmptyString = k prev EmptyString).
  { intros [|n] prev; [reflexivity|]. rewrite star_greedy_S.
    rewrite (m_ext fl r prev EmptyString _ fail); [now rewrite m_fail|].
    intros p s'. unfold fail. cbn.
    destruct (String.length s'); reflexivity. }
  induction n as [|n IH]; intros n' prev s Hn Hn'.
  - destruct s; [|simpl in Hn; lia]. rewrite (Hnil n'). reflexivity.
  - destruct n' as [|n'].
    + destruct s; [|simpl in Hn'; lia]. apply Hnil.
    + rewrite !star_greedy_S.
      rewrite (m_ext fl r prev s _
                 (fun p s' =>
                    if (String.length s' <? String.length s)%nat
                    then star_greedy (m fl r) k n' p s' else None));
        [reflexivity|].
      intros p s'. destruct (_ <? _)%nat eqn:E; [|reflexivity].
      apply Nat.ltb_lt in E. apply IH; lia.
Qed.

Lemma star_lazy_fuel (fl : flags) (r : regex) (k : cont) :
  forall n n' prev s,
    (String.length s <= n)%nat -> (String.length s <= n')%nat ->
    star_lazy (m fl r) k n prev s = star_lazy (m fl r) k n' prev s.
Proof.
  assert (Hnil : forall n prev,
             star_lazy (m fl r) k n prev EmptyString
             = star_lazy (m fl r) k 0 prev EmptyString).
  { intros [|n] prev; [reflexivity|]. rewrite star_lazy_S. simpl.
    destruct (k prev EmptyString); [reflexivity|].
    rewrite (m_ext fl r prev EmptyString _ fail); [apply m_fail|].
    intros p s'. unfold fail. cbn.
    destruct (String.length s'); reflexivity. }
  induction n as [|n IH]; intros n' prev s Hn Hn'.
  - destruct s; [|simpl in Hn; lia]. rewrite (Hnil n'). reflexivity.
  - destruct n' as [|n'].
    + destruct s; [|simpl in Hn'; lia]. apply Hnil.
    + rewrite !star_lazy_S. destruct (k prev s); [reflexivity|].
      apply m_ext. intros p s'. destruct (_ <? _)%nat eqn:E; [|reflexivity].
      apply Nat.ltb_lt in E. apply IH; lia.
Qed.

Lemma sub_from_fuel (fl : flags) (r : regex) (repl : string) :
  forall fuel fuel' prev s,
    (String.length s < fuel)%nat -> (String.length s < fuel')%nat ->
    sub_from fuel fl r repl prev s = sub_from fuel' fl r repl prev s.
Proof.
  induction fuel as [|fuel IH]; intros fuel' prev s Hf Hf'; [lia|].
  destruct fuel' as [|fuel']; [lia|]. simpl.
  destruct (match_here fl r prev s) as [[p rest]|].
  - destruct (_ <? _)%nat eqn:E.
    + apply Nat.ltb_lt in E. rewrite (IH fuel' p rest) by lia. reflexivity.
    + destruct s as [|c s]; [reflexivity|]. simpl in Hf, Hf'.
      rewrite (IH fuel' (Some c) s) by lia. reflexivity.
  - destruct s as [|c s]; [reflexivity|]. simpl in Hf, Hf'.
    rewrite (IH fuel' (Some c) s) by lia. reflexivity.
Qed.

Lemma count_from_fuel (fl : flags) (r : regex) :
  forall fuel fuel' prev s,
    (String.length s < fuel)%nat -> (String.length s < fuel')%nat ->
    count_from fuel fl r prev s = count_from fuel' fl r prev s.
Proof.
  induction fuel as [|fuel IH]; intros fuel' prev s Hf Hf'; [lia|].
  destruct fuel' as [|fuel']; [lia|]. simpl.
  assert (Hstep : match s with
                  | EmptyString => O
                  | String c s' => count_from fuel fl r (Some c) s'
                  end
                  = match s with
                    | EmptyString => O
                    | String c s' => count_from fuel' fl r (Some c) s'
                    end).
  { destruct s as [|c s]; [reflexivity|]. simpl in Hf, Hf'.
    apply IH; lia. }
  rewrite Hstep.
  destruct (match_here fl r prev s) as [[p rest]|]; [|reflexivity].
  destruct (_ <? _)%nat eqn:E; [|reflexivity].
  apply Nat.ltb_lt in E. rewrite (IH fuel' p rest) by lia. reflexivity.
Qed.

End ReProps.

(** ** The sanitizer *)

Module SanitizeProps.

Import PyStr.
Import PyStrProps.
Import Re.
Import ReProps.
Import QueryValidator.

(** *** The three substitutions *)

(** A pattern that starts with two literal characters does not match where
    the text does not start with them. *)
Lemma m_two_chars_none (fl : flags) (a b : ascii) (rest : regex)
    (prev : option ascii) (s : string) (k : cont) :
  IGNORECASE fl = false ->
  String.prefix (String a (String b EmptyString)) s = false ->
  m fl (Cat (Cat (Chr a) (Chr b)) rest) prev s k = None.
Proof.
  intros Hfl Hp. rewrite prefix2 in Hp.
  destruct s as [|c [|d s]]; simpl; unfold chr_matches; rewrite ?Hfl;
    try reflexivity.
  - destruct (Ascii.eqb a c); reflexivity.
  - destruct (Ascii.eqb a c); [|reflexivity].
    destruct (Ascii.eqb b d); [discriminate Hp | reflexivity].
Qed.

(** Where the pattern matches nowhere, the substitution returns the text
    unchanged, whatever the fuel. *)
Lemma sub_from_no_match (fl : flags) (r : regex) (repl : string)
    (P : string -> Prop) :
  (forall c s, P (String c s) -> P s) ->
  (forall prev s, P s -> match_here fl r prev s = None) ->
  forall fuel prev s, P s -> sub_from fuel fl r repl prev s = s.
Proof.
  intros Htail Hnone. induction fuel as [|fuel IH]; intros prev s Hs.
  - reflexivity.
  - simpl. rewrite (Hnone prev s Hs).
    destruct s as [|c s]; [reflexivity|].
    rewrite (IH (Some c) s (Htail c s Hs)). reflexivity.
Qed.

Lemma remove_line_comments_id (s : string) :
  contains "--" s = false -> remove_line_comments s = s.
Proof.
  intros H. unfold remove_line_comments, sub.
  apply (sub_from_no_match multiline line_comment EmptyString
           (fun s => contains "--" s = false)); [| |exact H].
  - intros c t. apply contains_tail.
  - intros prev t Ht. unfold match_here, line_comment.
    apply (m_two_chars_none multiline "-" "-"); [reflexivity|].
    apply contains_prefix, Ht.
Qed.

Lemma remove_block_comments_id (s : string) :
  contains "/*" s = false -> remove_block_comments s = s.
Proof.
  intros H. unfold remove_block_comments, sub.
  apply (sub_from_no_match dotall block_comment EmptyString
           (fun s => contains "/*" s = false)); [| |exact H].
  - intros c t. apply contains_tail.
  - intros prev t Ht. unfold match_here, block_comment.
    apply (m_two_chars_none dotall "/" "*"); [reflexivity|].
    apply contains_prefix, Ht.
Qed.

Lemma length_lstrip_by (p : ascii -> bool) (s : string) :
  (String.length (lstrip_by p s) <= String.length s)%nat.
Proof.
  induction s as [|c s IH]; simpl; [lia|]. destruct (p c); simpl; lia.
Qed.

Lemma in_matches_space (c : ascii) :
  in_matches no_flags [CSpace] c = isspace c.
Proof. unfold in_matches. simpl. apply orb_false_r. Qed.

(** The greedy loop over whitespace consumes the whole run. *)
Lemma star_greedy_space (n : nat) (prev : option ascii) (s : string) :
  (String.length s <= n)%nat ->
  exists p,
    star_greedy (m no_flags (In_ [CSpace])) accept n prev s
    = Some (p, lstrip s).
Proof.
  revert prev s. induction n as [|n IH]; intros prev s Hn.
  - destruct s; [|simpl in Hn; lia]. exists prev. reflexivity.
  - rewrite star_greedy_S. destruct s as [|c s].
    + exists prev. reflexivity.
    + simpl in Hn. rewrite m_In_cons, in_matches_space.
      unfold lstrip. cbn [lstrip_by].
      destruct (isspace c).
      * assert (Hlt : (String.length s <? String.length (String c s))%nat
                      = true) by (apply Nat.ltb_lt; simpl; lia).
        rewrite Hlt.
        destruct (IH (Some c) s ltac:(lia)) as [p Hp].
        exists p. rewrite Hp. reflexivity.
      * exists prev. reflexivity.
Qed.

Lemma match_here_whitespace (prev : option ascii) (c : ascii) (s : string) :
  match_here no_flags whitespace_run prev (String c s)
  = if isspace c
    then match_here no_flags (Star (In_ [CSpace])) (Some c) s
    else None.
Proof.
  unfold match_here, whitespace_run, Plus.
  rewrite m_Cat, m_In_cons, in_matches_space. reflexivity.
Qed.

Lemma squeeze_true_lstrip (s : string) :
  squeeze true s = squeeze false (lstrip s).
Proof.
  unfold lstrip. induction s as [|c s IH]; simpl; [reflexivity|].
  destruct (isspace c) eqn:E; [exact IH|]. simpl. rewrite E. reflexivity.
Qed.

Lemma sub_from_whitespace (fuel : nat) (prev : option ascii) (s : string) :
  (String.length s < fuel)%nat ->
  sub_from fuel no_flags whitespace_run " " prev s = squeeze false s.
Proof.
  revert prev s. induction fuel as [|fuel IH]; intros prev s Hf; [lia|].
  destruct s as [|c s]; [reflexivity|].
  simpl in Hf. cbn [sub_from]. rewrite match_here_whitespace.
  cbn [squeeze]. destruct (isspace c).
  - unfold match_here. rewrite m_Star.
    destruct (star_greedy_space (String.length s) (Some c) s (le_n _))
      as [p Hp].
    rewrite Hp.
    assert (Hlt : (String.length (lstrip s) <? String.length (String c s))%nat
                  = true).
    { apply Nat.ltb_lt. pose proof (length_lstrip_by isspace s).
      unfold lstrip. simpl. lia. }
    rewrite Hlt.
    rewrite IH
      by (pose proof (length_lstrip_by isspace s); unfold lstrip; lia).
    rewrite squeeze_true_lstrip. reflexivity.
  - rewrite IH by lia. reflexivity.
Qed.

(** The whitespace substitution is the scanner [squeeze]. *)
Lemma collapse_whitespace_squeeze (s : string) :
  collapse_whitespace s = squeeze false s.
Proof.
  unfold collapse_whitespace, sub. apply sub_from_whitespace. lia.
Qed.

(** *** The scanner *)

Lemma isspace_space : isspace " " = true.
Proof. reflexivity. Qed.

Lemma squeeze_idem (b : bool) (s : string) :
  squeeze b (squeeze b s) = squeeze b s.
Proof.
  revert b. induction s as [|c s IH]; intros b; [reflexivity|].
  simpl. destruct (isspace c) eqn:E.
  - destruct b; [apply IH|]. simpl. rewrite IH. reflexivity.
  - simpl. rewrite E, IH. reflexivity.
Qed.

Lemma length_squeeze (b : bool) (s : string) :
  (String.length (squeeze b s) <= String.length s)%nat.
Proof.
  revert b. induction s as [|c s IH]; intros b; simpl; [lia|].
  destruct (isspace c); [destruct b|]; simpl;
    [pose proof (IH true) | pose proof (IH true) | pose proof (IH false)];
    lia.
Qed.

Lemma squeeze_true_fixed (s : string) :
  squeeze true s = s -> lstrip s = s /\ squeeze false s = s.
Proof.
  destruct s as [|c s]; [split; reflexivity|].
  unfold lstrip. simpl. destruct (isspace c).
  - intros H. pose proof (length_squeeze true s) as Hl.
    rewrite H in Hl. simpl in Hl. lia.
  - intros H. split; [reflexivity | exact H].
Qed.

Lemma squeeze_lstrip_fixed (s : string) :
  squeeze false s = s -> squeeze false (lstrip s) = lstrip s.
Proof.
  destruct s as [|c s]; [reflexivity|].
  unfold lstrip. simpl. destruct (isspace c) eqn:E.
  - intros H. injection H as _ H.
    destruct (squeeze_true_fixed s H) as [Hl Hs].
    unfold lstrip in Hl. rewrite Hl. exact Hs.
  - intros H. simpl. rewrite E. exact H.
Qed.

Lemma squeeze_nil_rstrip (b : bool) (s : string) :
  squeeze b s = EmptyString -> rstrip s = EmptyString.
Proof.
  unfold rstrip. revert b. induction s as [|c s IH]; intros b; [reflexivity|].
  simpl. destruct (isspace c).
  - destruct b; [|discriminate]. intros H. rewrite (IH true H). reflexivity.
  - discriminate.
Qed.

(** Squeezing and right-stripping commute. *)
Lemma rstrip_squeeze (b : bool) (s : string) :
  rstrip (squeeze b s) = squeeze b (rstrip s).
Proof.
  unfold rstrip. revert b. induction s as [|c s IH]; intros b; [reflexivity|].
  rewrite (rstrip_by_cons isspace c s).
  destruct (rstrip_by isspace s) as [|e r] eqn:Er.
  - cbn [squeeze]. destruct (isspace c) eqn:E.
    + destruct b.
      * rewrite IH. reflexivity.
      * rewrite rstrip_by_cons, IH, isspace_space. reflexivity.
    + rewrite rstrip_by_cons, IH. cbn [squeeze]. rewrite E. reflexivity.
  - remember (String e r) as z eqn:Hz.
    assert (Hzz : rstrip_by isspace z = z)
      by (rewrite <- Er; apply rstrip_by_idem).
    cbn [squeeze]. destruct (isspace c) eqn:E.
    + destruct b.
      * apply IH.
      * rewrite rstrip_by_cons, IH, isspace_space.
        destruct (squeeze true z) as [|f t] eqn:Es; [|reflexivity].
        apply squeeze_nil_rstrip in Es. unfold rstrip in Es.
        rewrite Hzz in Es. subst z. discriminate.
    + rewrite rstrip_by_cons, IH, E.
      destruct (squeeze false z); reflexivity.
Qed.




(** The first character of a squeezed text. *)
Lemma head_squeeze_false (s : string) (c : ascii) :
  isspace c = false ->
  head (squeeze false s) = Some c -> head s = Some c.
Proof.
  intros Hc. destruct s as [|d s]; [easy|]. simpl.
  destruct (isspace d); simpl; [|easy].
  intros H. injection H as <-. rewrite isspace_space in Hc. discriminate.
Qed.

Lemma prefix2_head (a b : ascii) (c : ascii) (s : string) :
  String.prefix (String a (String b EmptyString)) (String c s)
  = Ascii.eqb a c && bool_decide (head s = Some b).
Proof.
  rewrite prefix2. destruct s as [|d s]; simpl.
  - rewrite andb_false_r. reflexivity.
  - f_equal. destruct (Ascii.eqb_spec b d) as [->|Hne].
    + symmetry. apply bool_decide_eq_true. reflexivity.
    + symmetry. apply bool_decide_eq_false. congruence.
Qed.

(** Two adjacent characters that are not whitespace are adjacent before
    squeezing. *)
Lemma contains_squeeze (f : bool) (a b : ascii) (s : string) :
  isspace a = false -> isspace b = false ->
  contains (String a (String b EmptyString)) (squeeze f s) = true ->
  contains (String a (String b EmptyString)) s = true.
Proof.
  intros Ha Hb. revert f. induction s as [|c s IH]; intros f; [easy|].
  cbn [squeeze]. rewrite (contains_cons _ c s).
  destruct (isspace c) eqn:Ec.
  - destruct f.
    + intros H. rewrite (IH true H). apply orb_true_r.
    + rewrite contains_cons, prefix2_head. intros H.
      apply orb_true_iff in H as [H | H].
      * apply andb_true_iff in H as [H _]. apply Ascii.eqb_eq in H.
        subst a. rewrite isspace_space in Ha. discriminate.
      * rewrite (IH true H). apply orb_true_r.
  - rewrite contains_cons, !prefix2_head. intros H.
    apply orb_true_iff in H as [H | H].
    + apply andb_true_iff in H as [H1 H2].
      apply bool_decide_eq_true in H2.
      apply (head_squeeze_false s b Hb) in H2.
      rewrite H1. rewrite (bool_decide_eq_true_2 _ H2). reflexivity.
    + rewrite (IH false H). apply orb_true_r.
Qed.



(** *** The sanitizer on text without comment markers *)

Lemma has_comment_marker_false (s : string) :
  has_comment_marker s = false ->
  contains "--" s = false /\ contains "/*" s = false.
Proof. unfold has_comment_marker. intros H. apply orb_false_elim, H. Qed.

Lemma has_comment_marker_mono (f : string -> string) :
  (forall sub s, contains sub (f s) = true -> contains sub s = true) ->
  forall s, has_comment_marker s = false -> has_comment_marker (f s) = false.
Proof.
  intros Hf s H. destruct (has_comment_marker_false s H) as [H1 H2].
  unfold has_comment_marker. apply orb_false_intro.
  - destruct (contains "--" (f s)) eqn:E; [|reflexivity].
    rewrite (Hf _ _ E) in H1. discriminate.
  - destruct (contains "/*" (f s)) eqn:E; [|reflexivity].
    rewrite (Hf _ _ E) in H2. discriminate.
Qed.


(** The sanitizer's last step always leaves a text in normal form. *)
Lemma _sanitize_query_normal (query : string) :
  exists text, _sanitize_query query = strip (squeeze false text).
Proof.
  unfold _sanitize_query. rewrite collapse_whitespace_squeeze. eauto.
Qed.

Lemma normal_squeeze (text : string) :
  squeeze false (strip (squeeze false text)) = strip (squeeze false text).
Proof.
  unfold strip. apply squeeze_lstrip_fixed.
  rewrite <- rstrip_squeeze, squeeze_idem. reflexivity.
Qed.

Lemma normal_rstrip (text : string) : rstrip (strip text) = strip text.
Proof.
  unfold strip, rstrip, lstrip.
  apply rstrip_by_lstrip_by, rstrip_by_idem.
Qed.

Lemma normal_strip (text : string) : strip (strip text) = strip text.
Proof.
  unfold strip at 1. rewrite normal_rstrip. unfold strip, lstrip.
  apply lstrip_by_idem.
Qed.




Lemma has_comment_marker_normal (text : string) :
  has_comment_marker text = false ->
  has_comment_marker (strip (squeeze false text)) = false.
Proof.
  intros H. destruct (has_comment_marker_false _ H) as [H1 H2].
  unfold has_comment_marker, strip. apply orb_false_intro.
  - destruct (contains "--" (lstrip (rstrip (squeeze false text)))) eqn:E;
      [|reflexivity].
    apply contains_lstrip_by, contains_rstrip_by, contains_squeeze in E;
      [congruence | reflexivity | reflexivity].
  - destruct (contains "/*" (lstrip (rstrip (squeeze false text)))) eqn:E;
      [|reflexivity].
    apply contains_lstrip_by, contains_rstrip_by, contains_squeeze in E;
      [congruence | reflexivity | reflexivity].
Qed.








End SanitizeProps.

(** ** Line comments and the comment check *)

Module NormalizeProps.

Import PyStr.
Import PyStrProps.
Import Re.
Import ReProps.
Import QueryValidator.
Import SanitizeProps.

Lemma uncomment_true_skip_line (s : string) :
  uncomment true s = uncomment false (skip_line s).
Proof.
  unfold skip_line. induction s as [|c s IH]; [reflexivity|].
  cbn [uncomment lstrip_by]. destruct (Ascii.eqb_spec c newline) as [->|Hne].
  - reflexivity.
  - exact IH.
Qed.

Lemma m_Dot_cons (fl : flags) (prev : option ascii) (d : ascii)
    (s : string) (k : cont) :
  m fl Dot prev (String d s) k
  = if DOTALL fl || negb (Ascii.eqb d newline) then k (Some d) s else None.
Proof. reflexivity. Qed.

(** After the two dashes the greedy loop runs to the end of the line,
    where [$] matches. *)
Lemma star_greedy_dot_eol (n : nat) (prev : option ascii) (s : string) :
  (String.length s <= n)%nat ->
  exists p,
    star_greedy (m multiline Dot)
      (fun p s' => m multiline Eol p s' accept) n prev s
    = Some (p, skip_line s).
Proof.
  unfold skip_line. revert prev s.
  induction n as [|n IH]; intros prev s Hn.
  - destruct s; [|simpl in Hn; lia]. exists prev. reflexivity.
  - rewrite star_greedy_S. destruct s as [|c s].
    + exists prev. reflexivity.
    + simpl in Hn. rewrite m_Dot_cons. cbn [lstrip_by DOTALL multiline orb].
      destruct (Ascii.eqb c newline) eqn:Ec; cbn [negb].
      * exists prev. cbn. rewrite Ec. reflexivity.
      * assert (Hlt : (String.length s <? String.length (String c s))%nat
                      = true) by (apply Nat.ltb_lt; simpl; lia).
        rewrite Hlt.
        destruct (IH (Some c) s ltac:(lia)) as [p Hp].
        exists p. rewrite Hp. reflexivity.
Qed.

Lemma match_here_line_comment (prev : option ascii) (s : string) :
  exists p,
    match_here multiline line_comment prev (String "-" (String "-" s))
    = Some (p, skip_line s).
Proof.
  unfold match_here, line_comment.
  change (seq [lit "--"; Star Dot; Eol])
    with (Cat (Cat (Chr "-") (Chr "-")) (Cat (Star Dot) Eol)).
  rewrite !m_Cat. cbn [m chr_matches IGNORECASE multiline].
  rewrite Ascii.eqb_refl.
  apply star_greedy_dot_eol. lia.
Qed.

Lemma prefix_dashes (s : string) :
  String.prefix "--" s = true -> exists t, s = String "-" (String "-" t).
Proof.
  rewrite prefix2. destruct s as [|c [|d t]]; try discriminate.
  intros H. apply andb_true_iff in H as [H1 H2].
  apply Ascii.eqb_eq in H1, H2. subst. eauto.
Qed.

Lemma sub_from_line_comment (fuel : nat) (prev : option ascii) (s : string) :
  (String.length s < fuel)%nat ->
  sub_from fuel multiline line_comment EmptyString prev s
  = uncomment false s.
Proof.
  revert prev s. induction fuel as [|fuel IH]; intros prev s Hf; [lia|].
  destruct s as [|c s]; [reflexivity|].
  cbn [sub_from uncomment].
  destruct (String.prefix "--" (String c s)) eqn:Ep.
  - destruct (prefix_dashes _ Ep) as [t Ht]. injection Ht as -> ->.
    destruct (match_here_line_comment prev t) as [p ->].
    pose proof (length_lstrip_by (fun c => negb (Ascii.eqb c newline)) t)
      as Hl.
    fold (skip_line t) in Hl.
    assert (Hlt : (String.length (skip_line t)
                   <? String.length (String "-" (String "-" t)))%nat = true)
      by (apply Nat.ltb_lt; simpl; lia).
    rewrite Hlt. simpl in Hf. rewrite IH by lia.
    cbn [uncomment]. rewrite uncomment_true_skip_line. reflexivity.
  - unfold match_here, line_comment.
    change (seq [lit "--"; Star Dot; Eol])
      with (Cat (Cat (Chr "-") (Chr "-")) (Cat (Star Dot) Eol)).
    rewrite (m_two_chars_none multiline "-" "-" _ prev _ accept eq_refl Ep).
    simpl in Hf. rewrite IH by lia. reflexivity.
Qed.

(** The line-comment substitution is the scanner [uncomment]. *)
Lemma remove_line_comments_uncomment (s : string) :
  remove_line_comments s = uncomment false s.
Proof.
  unfold remove_line_comments, sub. apply sub_from_line_comment. lia.
Qed.

Lemma head_uncomment_true (s : string) (c : ascii) :
  head (uncomment true s) = Some c -> c = newline.
Proof.
  induction s as [|d s IH]; [discriminate|]. cbn [uncomment].
  destruct (Ascii.eqb_spec d newline) as [->|]; [|exact IH].
  simpl. congruence.
Qed.

Lemma head_uncomment_false (s : string) (c : ascii) :
  c <> newline ->
  head (uncomment false s) = Some c -> head s = Some c.
Proof.
  intros Hc. destruct s as [|d s]; [discriminate|]. cbn [uncomment].
  destruct (String.prefix "--" (String d s)); [|easy].
  intros H. apply head_uncomment_true in H. contradiction.
Qed.

(** Two adjacent characters of the output, the second not a newline, are
    adjacent in the input. *)
Lemma contains_uncomment (f : bool) (a b : ascii) (s : string) :
  b <> newline ->
  contains (String a (String b EmptyString)) (uncomment f s) = true ->
  contains (String a (String b EmptyString)) s = true.
Proof.
  intros Hb. revert f. induction s as [|c s IH]; intros f; [easy|].
  cbn [uncomment]. rewrite (contains_cons _ c s). destruct f.
  - destruct (Ascii.eqb c newline).
    + rewrite contains_cons, !prefix2_head. intros H.
      apply orb_true_iff in H as [H | H].
      * apply andb_true_iff in H as [H1 H2].
        apply bool_decide_eq_true in H2.
        apply (head_uncomment_false s b Hb) in H2.
        rewrite H1, (bool_decide_eq_true_2 _ H2). reflexivity.
      * rewrite (IH false H). apply orb_true_r.
    + intros H. rewrite (IH true H). apply orb_true_r.
  - destruct (String.prefix "--" (String c s)) eqn:Ep.
    + intros H. rewrite (IH true H). apply orb_true_r.
    + rewrite contains_cons, !prefix2_head. intros H.
      apply orb_true_iff in H as [H | H].
      * apply andb_true_iff in H as [H1 H2].
        apply bool_decide_eq_true in H2.
        apply (head_uncomment_false s b Hb) in H2.
        rewrite H1, (bool_decide_eq_true_2 _ H2). reflexivity.
      * rewrite (IH false H). apply orb_true_r.
Qed.

(** No pair of dashes survives the line-comment substitution. *)
Lemma contains_dashes_uncomment (f : bool) (s : string) :
  contains "--" (uncomment f s) = false.
Proof.
  revert f. induction s as [|c s IH]; intros f; [destruct f; reflexivity|].
  cbn [uncomment]. destruct f.
  - destruct (Ascii.eqb_spec c newline) as [->|]; [|apply IH].
    rewrite contains_cons, IH, prefix2_head. reflexivity.
  - destruct (String.prefix "--" (String c s)) eqn:Ep; [apply IH|].
    rewrite contains_cons, IH, orb_false_r, prefix2_head.
    destruct (Ascii.eqb_spec "-" c) as [<-|]; [|reflexivity].
    apply bool_decide_eq_false. intros H.
    apply head_uncomment_false in H; [|discriminate].
    rewrite prefix2_head, Ascii.eqb_refl in Ep.
    rewrite (bool_decide_eq_true_2 _ H) in Ep. discriminate.
Qed.

(** [upper] creates no character below the letters. *)
Lemma upper_char_below_letters (c d : ascii) :
  (N_of_ascii d < 65)%N -> upper_char c = d -> c = d.
Proof.
  unfold upper_char. intros Hd.
  destruct ((97 <=? N_of_ascii c) && (N_of_ascii c <=? 122))%N eqn:E;
    [|easy].
  apply andb_true_iff in E as [E1 E2].
  apply N.leb_le in E1, E2. intros <-.
  rewrite N_ascii_embedding in Hd by lia. lia.
Qed.

Lemma head_upper (s : string) (d : ascii) :
  (N_of_ascii d < 65)%N -> head (upper s) = Some d -> head s = Some d.
Proof.
  intros Hd. destruct s as [|c s]; [discriminate|]. simpl.
  intros H. injection H as H. rewrite (upper_char_below_letters c d Hd H).
  reflexivity.
Qed.

Lemma contains_upper (a b : ascii) (s : string) :
  (N_of_ascii a < 65)%N -> (N_of_ascii b < 65)%N ->
  contains (String a (String b EmptyString)) (upper s) = true ->
  contains (String a (String b EmptyString)) s = true.
Proof.
  intros Ha Hb. induction s as [|c s IH]; [easy|].
  cbn [upper]. rewrite !contains_cons, !prefix2_head. intros H.
  apply orb_true_iff in H as [H | H].
  - apply andb_true_iff in H as [H1 H2].
    apply Ascii.eqb_eq in H1. symmetry in H1.
    apply (upper_char_below_letters c a Ha) in H1. subst c.
    apply bool_decide_eq_true in H2. apply (head_upper s b Hb) in H2.
    rewrite Ascii.eqb_refl, (bool_decide_eq_true_2 _ H2). reflexivity.
  - rewrite (IH H). apply orb_true_r.
Qed.

(** For a query without a block-comment opener the text handed to the
    checks contains no comment marker, whatever line comments the query
    has: the comment check of [_check_sql_injection] cannot report them. *)
Theorem line_comments_are_invisible (query : string) :
  contains "/*" query = false ->
  has_comment_marker (_normalize_query query) = false.
Proof.
  intros Hq. unfold _normalize_query.
  rewrite remove_line_comments_uncomment.
  assert (H1 : contains "--" (uncomment false query) = false)
    by apply contains_dashes_uncomment.
  assert (H2 : contains "/*" (uncomment false query) = false).
  { destruct (contains "/*" (uncomment false query)) eqn:E; [|reflexivity].
    apply contains_uncomment in E; [congruence | discriminate]. }
  rewrite (remove_block_comments_id _ H2), collapse_whitespace_squeeze.
  assert (Hn : has_comment_marker
                 (strip (squeeze false (uncomment false query))) = false).
  { apply has_comment_marker_normal. unfold has_comment_marker.
    rewrite H1, H2. reflexivity. }
  destruct (has_comment_marker_false _ Hn) as [Hn1 Hn2].
  unfold has_comment_marker. apply orb_false_intro.
  - destruct (contains "--" (upper _)) eqn:E; [|reflexivity].
    apply contains_upper in E; [congruence | reflexivity | reflexivity].
  - destruct (contains "/*" (upper _)) eqn:E; [|reflexivity].
    apply contains_upper in E; [congruence | reflexivity | reflexivity].
Qed.

End NormalizeProps.

(** ** Credentials and the token cache *)

Module AuthFlowProps.

Import Auth.
Import AuthProps.



Lemma perms_lookup (r w a : bool) :
  perms r w a !! "read" = Some r
  /\ perms r w a !! "write" = Some w
  /\ perms r w a !! "admin" = Some a.
Proof.
  unfold perms. destruct r, w, a; repeat split.
Qed.

Lemma perms_lookup_other (r w a : bool) (p : string) :
  p <> "read" -> p <> "write" -> p <> "admin" -> perms r w a !! p = None.
Proof.
  intros H1 H2 H3. unfold perms.
  rewrite !lookup_insert_ne by congruence. apply lookup_empty.
Qed.

Lemma perms_nonempty (r w a : bool) : perms r w a <> ∅.
Proof.
  intros H. pose proof (proj1 (perms_lookup r w a)) as Hl.
  rewrite H, lookup_empty in Hl. discriminate.
Qed.



Section Authenticate.

Variable jwt_decode : string -> option Claims.
Variable settings : Settings.

Local Abbreviation authenticate_request :=
  (authenticate_request jwt_decode settings).
Local Abbreviation _authenticate_jwt_token :=
  (_authenticate_jwt_token jwt_decode).



Lemma _get_from_cache_miss (cache cache1 : TokenCache) (token : string)
    (now : datetime) :
  _get_from_cache cache token now = (None, cache1) ->
  cache1 = delete token cache.
Proof.
  unfold _get_from_cache.
  destruct (cache !! token) as [[c t]|] eqn:E.
  - destruct (now - t <? _cache_ttl); [discriminate|].
    intros H. injection H as <-. reflexivity.
  - intros H. injection H as <-. symmetry. apply delete_id, E.
Qed.

(** X2.  A token that is refused leaves no entry behind: the cache after
    the call is the cache before it without the token, so an entry that
    has outlived the TTL is evicted and nothing is stored. *)
Theorem rejected_jwt_leaves_no_entry (cache : TokenCache) (token : string)
    (now : datetime) :
  PyStr.truthy token = true ->
  fst (_authenticate_jwt_token cache token now) = None ->
  snd (_authenticate_jwt_token cache token now) = delete token cache
  /\ snd (_authenticate_jwt_token cache token now) !! token = None.
Proof.
  intros Ht Hrej.
  assert (H : snd (_authenticate_jwt_token cache token now)
              = delete token cache).
  { revert Hrej. unfold Auth._authenticate_jwt_token. rewrite Ht. simpl.
    destruct (_get_from_cache cache token now) as [[c|] cache1] eqn:E;
      [discriminate|].
    apply _get_from_cache_miss in E. subst cache1.
    destruct (jwt_decode token) as [decoded|]; [|reflexivity].
    destruct (Http.nonempty (claim_sub decoded)); [|reflexivity].
    match goal with |- context [if ?b then _ else _] => destruct b end;
      [reflexivity | discriminate]. }
  split; [exact H|]. rewrite H. apply lookup_delete_eq.
Qed.


End Authenticate.


(** The token of [Examples.jwt_decode_one] is cached at instant 0 and
    presented again twenty minutes later, after its expiry and after the
    TTL of its entry. *)
Lemma rejected_jwt_leaves_no_entry_witness :
  let cache :=
    snd (_authenticate_jwt_token Examples.jwt_decode_one ∅ "tok" 0) in
  is_Some (cache !! "tok")
  /\ fst (_authenticate_jwt_token Examples.jwt_decode_one cache "tok"
            (minutes 20)) = None
  /\ snd (_authenticate_jwt_token Examples.jwt_decode_one cache "tok"
            (minutes 20)) !! "tok" = None.
Proof.
  intros cache.
  assert (Hrej : fst (_authenticate_jwt_token Examples.jwt_decode_one cache
                        "tok" (minutes 20)) = None)
    by (vm_compute; reflexivity).
  split; [vm_compute; eauto|]. split; [exact Hrej|].
  exact (proj2 (rejected_jwt_leaves_no_entry Examples.jwt_decode_one cache
                  "tok" (minutes 20) eq_refl Hrej)).
Defined.


(** [_get_role_permissions] on a role that is none of the three known
    ones. *)
Lemma _get_role_permissions_default (role : option string) :
  role <> Some "anon" -> role <> Some "authenticated" ->
  role <> Some "service_role" ->
  _get_role_permissions role = perms false false false.
Proof.
  intros H1 H2 H3. destruct role as [s|]; [|reflexivity].
  unfold _get_role_permissions.
  repeat match goal with
         | |- match ?x with
              | EmptyString => _
              | String _ _ => _
              end = _ =>
             destruct x as [|? ?]
         | |- match ?x with Ascii _ _ _ _ _ _ _ _ => _ end = _ =>
             destruct x as [? ? ? ? ? ? ? ?]
         | |- (if ?x then _ else _) = _ => destruct x
         | |- perms false false false = _ => reflexivity
         | |- perms _ _ _ = _ => exfalso; congruence
         end.
Qed.

Lemma _get_role_permissions_perms (role : option string) :
  exists r w a, _get_role_permissions role = perms r w a.
Proof.
  destruct (decide (role = Some "anon")) as [->|H1]; [eauto|].
  destruct (decide (role = Some "authenticated")) as [->|H2]; [eauto|].
  destruct (decide (role = Some "service_role")) as [->|H3]; [eauto|].
  rewrite (_get_role_permissions_default role H1 H2 H3). eauto.
Qed.

Lemma require_role_permission_table (role : option string) :
  (dict_get (_get_role_permissions role) "admin" = true
   <-> role = Some "service_role")
  /\ (dict_get (_get_role_permissions role) "write" = true
      <-> role = Some "authenticated" \/ role = Some "service_role")
  /\ (dict_get (_get_role_permissions role) "read" = true
      <-> role = Some "anon" \/ role = Some "authenticated"
          \/ role = Some "service_role").
Proof.
  destruct (decide (role = Some "anon")) as [->|H1];
    [repeat split; intros; try discriminate; auto;
     repeat match goal with H : _ \/ _ |- _ => destruct H end;
     discriminate|].
  destruct (decide (role = Some "authenticated")) as [->|H2];
    [repeat split; intros; try discriminate; auto;
     repeat match goal with H : _ \/ _ |- _ => destruct H end;
     discriminate|].
  destruct (decide (role = Some "service_role")) as [->|H3];
    [repeat split; intros; try discriminate; auto|].
  rewrite (_get_role_permissions_default role H1 H2 H3).
  repeat split; intros; try discriminate;
    repeat match goal with H : _ \/ _ |- _ => destruct H end;
    contradiction.
Qed.

Section Roles.

Variable jwt_decode : string -> option Claims.

(** X4.  The permissions of a token accepted through the decoder follow
    its role claim alone (a missing claim counts as "authenticated"):
    [admin] is granted exactly to "service_role", [write] to
    "authenticated" and "service_role", [read] to these and "anon"; any
    other role, a null one included, is authenticated and holds no
    permission at all. *)
Theorem jwt_permissions_follow_role (cache cache1 : TokenCache)
    (token : string) (now : datetime) (decoded : Claims)
    (context : AuthContext) :
  fst (_get_from_cache cache token now) = None ->
  jwt_decode token = Some decoded ->
  _authenticate_jwt_token jwt_decode cache token now
  = (Some context, cache1) ->
  let role := effective_role decoded in
  is_authenticated context = true
  /\ (require_permission context "admin" = Ok tt
      <-> role = Some "service_role")
  /\ (require_permission context "write" = Ok tt
      <-> role = Some "authenticated" \/ role = Some "service_role")
  /\ (require_permission context "read" = Ok tt
      <-> role = Some "anon" \/ role = Some "authenticated"
          \/ role = Some "service_role")
  /\ (role <> Some "anon" -> role <> Some "authenticated" ->
      role <> Some "service_role" ->
      forall permission,
        require_permission context permission
        = Raise (mkAuthenticationError
                   ("Permission '" +:+ permission +:+ "' required") 403)).
Proof.
  intros Hmiss Hd Hauth role.
  assert (Hc : is_authenticated context = true
               /\ permissions context = Some (_get_role_permissions role)).
  { revert Hauth. unfold _authenticate_jwt_token.
    destruct (PyStr.truthy token); simpl; [|discriminate].
    destruct (_get_from_cache cache token now) as [[c|] cache0];
      simpl in Hmiss; [discriminate|].
    rewrite Hd.
    destruct (Http.nonempty (claim_sub decoded)); [|discriminate].
    match goal with |- context [if ?b then _ else _] => destruct b end;
      [discriminate|].
    intros H. injection H as <- _. split; reflexivity. }
  destruct Hc as [Ha Hp].
  assert (Hreq : forall p,
            require_permission context p
            = if dict_get (_get_role_permissions role) p then Ok tt
              else Raise (mkAuthenticationError
                            ("Permission '" +:+ p +:+ "' required") 403)).
  { intros p. unfold require_permission. rewrite Ha, Hp. simpl.
    assert (Hne : _get_role_permissions role <> ∅).
    { destruct (_get_role_permissions_perms role) as (r & w & a & ->).
      apply perms_nonempty. }
    rewrite (bool_decide_eq_false_2 _ Hne). simpl.
    destruct (dict_get _ p); reflexivity. }
  destruct (require_role_permission_table role) as (Tadmin & Twrite & Tread).
  split; [exact Ha|].
  split; [|split; [|split]].
  - rewrite Hreq, <- Tadmin.
    destruct (dict_get _ "admin"); split; intros; congruence.
  - rewrite Hreq, <- Twrite.
    destruct (dict_get _ "write"); split; intros; congruence.
  - rewrite Hreq, <- Tread.
    destruct (dict_get _ "read"); split; intros; congruence.
  - intros H1 H2 H3 permission. rewrite Hreq.
    rewrite (_get_role_permissions_default role H1 H2 H3).
    assert (Hf : dict_get (perms false false false) permission = false).
    { unfold dict_get.
      destruct (decide (permission = "read")) as [->|N1]; [reflexivity|].
      destruct (decide (permission = "write")) as [->|N2]; [reflexivity|].
      destruct (decide (permission = "admin")) as [->|N3]; [reflexivity|].
      rewrite (perms_lookup_other _ _ _ _ N1 N2 N3). reflexivity. }
    rewrite Hf. reflexivity.
Qed.

End Roles.

(** A token with the role "guest" is authenticated and may not even
    read. *)
Lemma jwt_permissions_follow_role_witness :
  exists context cache1,
    _authenticate_jwt_token Examples.jwt_decode_roles ∅ "guest" 0
    = (Some context, cache1)
    /\ is_authenticated context = true
    /\ require_permission context "read"
       = Raise (mkAuthenticationError "Permission 'read' required" 403).
Proof.
  destruct (_authenticate_jwt_token Examples.jwt_decode_roles ∅ "guest" 0)
    as [octx cache1] eqn:E.
  assert (Hctx : exists context, octx = Some context).
  { vm_compute in E. injection E as <- _. eauto. }
  destruct Hctx as [context ->].
  exists context, cache1. split; [reflexivity|].
  assert (Hmiss : fst (_get_from_cache ∅ "guest" 0) = None) by reflexivity.
  destruct (jwt_permissions_follow_role Examples.jwt_decode_roles ∅ cache1
              "guest" 0
              (mkClaims (Some "u3") None (Some (Some "guest")) None)
              context Hmiss eq_refl E)
    as (Ha & _ & _ & _ & Hnone).
  split; [exact Ha|].
  apply (Hnone ltac:(discriminate) ltac:(discriminate) ltac:(discriminate)
           "read").
Defined.

(** X5.  Storing a context and looking the token up again returns the
    context as long as less than the TTL has passed since it was stored,
    whatever else the cache holds; from then on the lookup returns
    nothing and removes the entry. *)
Theorem token_cache_round_trip (cache : TokenCache) (token : string)
    (context : AuthContext) (stored_at now : datetime) :
  let cache1 := _set_cache cache token context stored_at in
  _get_from_cache cache1 token now
  = if now - stored_at <? _cache_ttl then (Some context, cache1)
    else (None, delete token cache1).
Proof.
  intros cache1. unfold _get_from_cache. subst cache1.
  rewrite _set_cache_lookup. reflexivity.
Qed.

Lemma cache_ok_delete (cache : TokenCache) (token : string) :
  cache_ok cache -> cache_ok (delete token cache).
Proof. apply map_Forall_delete. Qed.

Lemma cache_ok_set (cache : TokenCache) (token : string)
    (context : AuthContext) (now : datetime) :
  cache_ok cache -> jwt_entry context ->
  cache_ok (_set_cache cache token context now).
Proof.
  intros Hok Hc. unfold _set_cache.
  assert (H1 : cache_ok (<[token:=(context, now)]> cache)).
  { apply map_Forall_insert_2; assumption. }
  destruct (1000 <? size _)%nat; [|exact H1].
  intros k e Hk. apply map_lookup_filter_Some in Hk as [Hk _].
  exact (H1 k e Hk).
Qed.

Lemma nonempty_user (o : option string) (s : string) :
  Http.nonempty o = Some s -> o = Some s /\ s <> EmptyString.
Proof.
  unfold Http.nonempty. destruct o as [t|]; [|discriminate].
  destruct t; simpl; [discriminate|].
  intros H. injection H as <-. split; [reflexivity | discriminate].
Qed.

Section Invariant.

Variable jwt_decode : string -> option Claims.
Variable settings : Settings.

Lemma cache_ok_authenticate_jwt (cache : TokenCache) (token : string)
    (now : datetime) :
  cache_ok cache ->
  cache_ok (snd (_authenticate_jwt_token jwt_decode cache token now))
  /\ forall c, fst (_authenticate_jwt_token jwt_decode cache token now)
               = Some c -> jwt_entry c.
Proof.
  intros Hok. unfold _authenticate_jwt_token.
  destruct (PyStr.truthy token); simpl; [|split; [exact Hok | discriminate]].
  unfold _get_from_cache.
  destruct (cache !! token) as [[c0 t0]|] eqn:El.
  - destruct (now - t0 <? _cache_ttl).
    + simpl. split; [exact Hok|]. intros c H. injection H as <-.
      exact (Hok token (c0, t0) El).
    + apply (cache_ok_delete _ token) in Hok. revert Hok.
      generalize (delete token cache). intros cache1 Hok.
      destruct (jwt_decode token) as [decoded|];
        [|split; [exact Hok | discriminate]].
      destruct (Http.nonempty (claim_sub decoded)) as [u|] eqn:Eu;
        [|split; [exact Hok | discriminate]].
      apply nonempty_user in Eu as [Eu Hne].
      match goal with |- context [if ?b then _ else _] => destruct b end;
        [split; [exact Hok | discriminate]|].
      simpl.
      match goal with
      | |- cache_ok (_set_cache _ _ ?c _) /\ _ =>
          assert (Hc : jwt_entry c)
            by (repeat split; exists u; split; assumption)
      end.
      split; [apply cache_ok_set; assumption|].
      intros c H. injection H as <-. exact Hc.
  - destruct (jwt_decode token) as [decoded|];
      [|split; [exact Hok | discriminate]].
    destruct (Http.nonempty (claim_sub decoded)) as [u|] eqn:Eu;
      [|split; [exact Hok | discriminate]].
    apply nonempty_user in Eu as [Eu Hne].
    match goal with |- context [if ?b then _ else _] => destruct b end;
      [split; [exact Hok | discriminate]|].
    simpl.
    match goal with
    | |- cache_ok (_set_cache _ _ ?c _) /\ _ =>
        assert (Hc : jwt_entry c)
          by (repeat split; exists u; split; assumption)
    end.
    split; [apply cache_ok_set; assumption|].
    intros c H. injection H as <-. exact Hc.
Qed.

(** X6.  Starting from a cache that holds only contexts stored by the
    JWT path (the empty cache is one), [authenticate_request] keeps the
    cache so, and returns either the default unauthenticated context or
    an authenticated context with a user id that is not empty, obtained
    by one of the three methods. *)
Theorem authenticate_request_result (cache : TokenCache)
    (request : Http.Request) (now : datetime) :
  cache_ok cache ->
  let out := authenticate_request jwt_decode settings cache request now in
  cache_ok (snd out)
  /\ (fst out = unauthenticated
      \/ (is_authenticated (fst out) = true
          /\ (exists u, user_id (fst out) = Some u /\ u <> EmptyString)
          /\ (auth_method (fst out) = Some "api_key"
              \/ auth_method (fst out) = Some "jwt"
              \/ auth_method (fst out) = Some "service_role"))).
Proof.
  intros Hok out. subst out. unfold authenticate_request.
  assert (Hapi : forall k c, _authenticate_api_key settings k = Some c ->
            is_authenticated c = true
            /\ (exists u, user_id c = Some u /\ u <> EmptyString)
            /\ auth_method c = Some "api_key").
  { intros k c. unfold _authenticate_api_key.
    destruct (negb (PyStr.truthy k)); [discriminate|].
    destruct (String.eqb k _); [|discriminate].
    intros H. injection H as <-. repeat split.
    exists "api_user". split; [reflexivity | discriminate]. }
  assert (Hsvc : forall k c, _authenticate_service_key settings k = Some c ->
            is_authenticated c = true
            /\ (exists u, user_id c = Some u /\ u <> EmptyString)
            /\ auth_method c = Some "service_role").
  { intros k c. unfold _authenticate_service_key.
    destruct (negb (PyStr.truthy k)); [discriminate|].
    destruct (String.eqb k _); [|discriminate].
    intros H. injection H as <-. repeat split.
    exists "service_role". split; [reflexivity | discriminate]. }
  set (api := match _extract_api_key request with
              | Some api_key => _authenticate_api_key settings api_key
              | None => None
              end).
  assert (Hapi' : forall c, api = Some c ->
            is_authenticated c = true
            /\ (exists u, user_id c = Some u /\ u <> EmptyString)
            /\ auth_method c = Some "api_key").
  { subst api. intros c. destruct (_extract_api_key request); [|discriminate].
    apply Hapi. }
  set (svc := match _extract_service_key request with
              | Some service_key =>
                  _authenticate_service_key settings service_key
              | None => None
              end).
  assert (Hsvc' : forall c, svc = Some c ->
            is_authenticated c = true
            /\ (exists u, user_id c = Some u /\ u <> EmptyString)
            /\ auth_method c = Some "service_role").
  { subst svc. intros c.
    destruct (_extract_service_key request); [|discriminate]. apply Hsvc. }
  destruct api as [c|].
  - simpl. split; [exact Hok|]. right.
    destruct (Hapi' c eq_refl) as (H1 & H2 & H3). auto.
  - destruct (_extract_jwt_token request) as [token|].
    + destruct (cache_ok_authenticate_jwt cache token now Hok) as [Hok1 Hj].
      destruct (_authenticate_jwt_token jwt_decode cache token now)
        as [[c|] cache1]; simpl in *.
      * split; [exact Hok1|]. right.
        destruct (Hj c eq_refl) as (H1 & H2 & H3). auto.
      * destruct svc as [c|]; simpl;
          (split; [exact Hok1|]); [right | left; reflexivity].
        destruct (Hsvc' c eq_refl) as (H1 & H2 & H3). auto.
    + destruct svc as [c|]; simpl;
        (split; [exact Hok|]); [right | left; reflexivity].
      destruct (Hsvc' c eq_refl) as (H1 & H2 & H3). auto.
Qed.

End Invariant.

Lemma authenticate_request_result_witness :
  cache_ok ∅
  /\ let out := authenticate_request Examples.jwt_decode_one
                  Examples.no_settings ∅ Examples.public_request 0 in
     cache_ok (snd out)
     /\ (fst out = unauthenticated
         \/ (is_authenticated (fst out) = true
             /\ (exists u, user_id (fst out) = Some u /\ u <> EmptyString)
             /\ (auth_method (fst out) = Some "api_key"
                 \/ auth_method (fst out) = Some "jwt"
                 \/ auth_method (fst out) = Some "service_role"))).
Proof.
  split; [apply map_Forall_empty|].
  apply (authenticate_request_result Examples.jwt_decode_one
           Examples.no_settings ∅ Examples.public_request 0).
  apply map_Forall_empty.
Defined.

End AuthFlowProps.

(** ** The rate limiter: invariants of the reachable states *)

Module RateLimitStateProps.

Import Http.
Import RateLimit.
Import RateLimitProps.

Lemma length_popleft_older (cutoff : datetime) (d : list datetime) :
  (length (popleft_older cutoff d) <= length d)%nat.
Proof.
  induction d as [|t d IH]; simpl; [lia|].
  destruct (t <? cutoff); simpl; lia.
Qed.

Lemma length_deque_append {A} (maxlen : nat) (d : list A) (x : A) :
  (0 < maxlen)%nat -> (length d <= maxlen)%nat ->
  (length (deque_append maxlen d x) <= maxlen)%nat.
Proof.
  intros Hpos Hle. unfold deque_append.
  destruct (maxlen <=? length d)%nat eqn:E.
  - apply Nat.leb_le in E. rewrite length_drop, length_app. simpl. lia.
  - apply Nat.leb_gt in E. rewrite length_app. simpl. lia.
Qed.

Lemma events_bounded_log (self : SecurityMiddleware)
    (ip ty det sev : string) (request : Request) (now : datetime) :
  events_bounded self ->
  events_bounded (_log_security_event self ip ty det sev request now).
Proof.
  unfold events_bounded, _log_security_event. simpl.
  apply length_deque_append. lia.
Qed.

Lemma events_bounded_frame (self self' : SecurityMiddleware) :
  _security_events self' = _security_events self ->
  events_bounded self -> events_bounded self'.
Proof. unfold events_bounded. intros ->. auto. Qed.

Lemma set_fold_alter {A} (f : A -> A) (X : gset string)
    (m : gmap string A) (ip : string) :
  set_fold (fun ip m => alter f ip m) m X !! ip
  = if decide (ip ∈ X) then f <$> m !! ip else m !! ip.
Proof.
  revert X ip.
  refine (set_fold_ind_L
            (fun r (X : gset string) =>
               forall ip, r !! ip
                          = if decide (ip ∈ X) then f <$> m !! ip
                            else m !! ip) _ m _ _).
  - intros ip. destruct (decide (ip ∈ ∅)) as [H|_]; [|reflexivity].
    exfalso. revert H. apply not_elem_of_empty.
  - intros x Y r Hx IH ip.
    destruct (decide (ip = x)) as [->|Hne].
    + rewrite lookup_alter_eq, IH.
      destruct (decide (x ∈ Y)); [contradiction|].
      destruct (decide (x ∈ {[x]} ∪ Y)) as [_|H]; [reflexivity|].
      exfalso. apply H. apply elem_of_union. left.
      apply elem_of_singleton. reflexivity.
    + rewrite lookup_alter_ne by congruence. rewrite IH.
      destruct (decide (ip ∈ Y)) as [Hy|Hy];
        destruct (decide (ip ∈ {[x]} ∪ Y)) as [Hu|Hu]; try reflexivity.
      * exfalso. apply Hu. apply elem_of_union. right. exact Hy.
      * exfalso. apply elem_of_union in Hu as [Hu|Hu]; [|contradiction].
        apply elem_of_singleton in Hu. contradiction.
Qed.

(** The records and the blocked set after a sweep. *)
Lemma _cleanup_old_data_lookup (self : SecurityMiddleware) (now : datetime)
    (ip : string) :
  let cutoff_time := now - hours 1 in
  let kept :=
    match _rate_limits self !! ip with
    | Some info =>
        if is_expired cutoff_time (prune_requests cutoff_time info)
        then None else Some (prune_requests cutoff_time info)
    | None => None
    end in
  let lifted :=
    bool_decide (ip ∈ _blocked_ips self)
    && match kept with
       | Some info => match blocked_until info with
                      | Some b => b <? now
                      | None => false
                      end
       | None => false
       end in
  _rate_limits (_cleanup_old_data self now) !! ip
  = (if lifted then clear_block <$> kept else kept)
  /\ (ip ∈ _blocked_ips (_cleanup_old_data self now)
      <-> ip ∈ _blocked_ips self /\ lifted = false).
Proof.
  intros cutoff_time kept lifted. unfold _cleanup_old_data. cbv zeta.
  fold cutoff_time. simpl.
  set (kept_map :=
         filter (fun kv => is_expired cutoff_time (snd kv) = false)
           (prune_requests cutoff_time <$> _rate_limits self)).
  assert (Hkept : kept_map !! ip = kept).
  { subst kept_map kept. rewrite map_lookup_filter, lookup_fmap.
    destruct (_rate_limits self !! ip) as [info|]; simpl; [|reflexivity].
    destruct (is_expired cutoff_time (prune_requests cutoff_time info))
      eqn:E.
    - rewrite option_guard_False; [reflexivity | discriminate].
    - rewrite option_guard_True; reflexivity. }
  assert (Hel : block_elapsed kept_map now ip
                = match kept with
                  | Some info => match blocked_until info with
                                 | Some b => b <? now
                                 | None => false
                                 end
                  | None => false
                  end).
  { unfold block_elapsed. rewrite Hkept. reflexivity. }
  assert (Hin : ip ∈ filter (fun ip => block_elapsed kept_map now ip = true)
                       (_blocked_ips self)
                <-> lifted = true).
  { rewrite elem_of_filter. subst lifted. rewrite <- Hel.
    rewrite andb_true_iff, bool_decide_eq_true. tauto. }
  split.
  - rewrite set_fold_alter, Hkept.
    destruct (decide (ip ∈ filter _ (_blocked_ips self))) as [H|H].
    + apply Hin in H. rewrite H. reflexivity.
    + destruct lifted; [exfalso; apply H, Hin; reflexivity | reflexivity].
  - rewrite elem_of_difference, Hin.
    destruct lifted; split; intros [H1 H2]; split; auto; congruence.
Qed.

Section WithIpAddress.

Variable ip_address : string -> option IPAddress.

(** What one check does to the records: nothing, or it writes the
    record of the client address, which was found untrusted and outside
    the blocked set. *)
Lemma check_rate_limit_records (self : SecurityMiddleware)
    (request : Request) (now : datetime) :
  let ip := _get_client_ip ip_address request in
  let old := default RateLimitInfo_default (_rate_limits self !! ip) in
  let reqs := popleft_older (now - rate_limit_window self) (requests old) in
  let self' := snd (check_rate_limit ip_address self request now) in
  _rate_limits self' = _rate_limits self
  \/ (_is_trusted_ip ip_address self ip = false
      /\ (ip ∉ _blocked_ips self)
      /\ exists info',
           _rate_limits self' = <[ip := info']> (_rate_limits self)
           /\ (requests info' = requests old \/ requests info' = reqs
               \/ (requests info' = reqs ++ [now]
                   /\ Z.of_nat (length reqs)
                      < max_requests_per_window self))
           /\ total_requests old <= total_requests info'
           /\ blocked_requests old <= blocked_requests info'
           /\ (forall f, first_request old = Some f ->
                 first_request info' = Some f)).
Proof.
  intros ip old reqs self'. subst self'. unfold check_rate_limit.
  cbv zeta. fold ip. fold old.
  destruct (_is_trusted_ip ip_address self ip) eqn:Ht; [left; reflexivity|].
  destruct (bool_decide (ip ∈ _blocked_ips self)) eqn:Hb;
    [left; reflexivity|].
  apply bool_decide_eq_false in Hb.
  right. split; [reflexivity|]. split; [exact Hb|].
  destruct (match blocked_until old with
            | Some b => now <? b
            | None => false
            end).
  { exists old. simpl. split; [reflexivity|].
    split; [left; reflexivity|]. split; [lia|]. split; [lia | auto]. }
  match goal with
  | |- context [if ?b then _ else _] => destruct b eqn:Hm
  end.
  - match goal with
    | |- context [if ?b then _ else _] => destruct b
    end;
      (eexists; split;
       [simpl; rewrite ?insert_insert_eq; reflexivity|];
       simpl; split; [right; left; reflexivity|];
       split; [lia|]; split; [lia | auto]).
  - apply Z.leb_gt in Hm. simpl in Hm. eexists. split.
    + simpl. rewrite insert_insert_eq. reflexivity.
    + simpl. split; [right; right; split; [reflexivity | exact Hm]|].
      split; [lia|]. split; [lia|].
      intros f ->. reflexivity.
Qed.


Lemma check_rate_limit_blocked_mono (self : SecurityMiddleware)
    (request : Request) (now : datetime) :
  _blocked_ips self
  ⊆ _blocked_ips (snd (check_rate_limit ip_address self request now)).
Proof.
  unfold check_rate_limit. cbv zeta.
  repeat match goal with
         | |- context [if ?b then _ else _] => destruct b
         end; simpl; try reflexivity.
  apply union_subseteq_r.
Qed.

Lemma check_rate_limit_events (self : SecurityMiddleware)
    (request : Request) (now : datetime) :
  events_bounded self ->
  events_bounded (snd (check_rate_limit ip_address self request now)).
Proof.
  intros Hb. unfold check_rate_limit. cbv zeta.
  repeat match goal with
         | |- context [if ?b then _ else _] => destruct b
         end; cbn [snd];
    repeat first
      [ apply events_bounded_log
      | exact Hb
      | (eapply events_bounded_frame; [reflexivity|]) ].
Qed.

Lemma events_bounded_fold_left {A}
    (f : SecurityMiddleware -> A -> SecurityMiddleware) (l : list A)
    (self : SecurityMiddleware) :
  (forall s a, events_bounded s -> events_bounded (f s a)) ->
  events_bounded self -> events_bounded (fold_left f l self).
Proof.
  intros Hf. revert self.
  induction l as [|a l IH]; intros self Hs; simpl; [exact Hs|].
  apply IH, Hf, Hs.
Qed.

Lemma events_bounded_log_first_match (self : SecurityMiddleware)
    (patterns : list string) (url ip ty label : string)
    (request : Request) (now : datetime) :
  events_bounded self ->
  events_bounded (log_first_match self patterns url ip ty label request now).
Proof.
  intros Hb. unfold log_first_match.
  destruct (find _ patterns); [apply events_bounded_log|]; exact Hb.
Qed.

Lemma check_security_threats_events (self : SecurityMiddleware)
    (request : Request) (now : datetime) :
  events_bounded self ->
  events_bounded (check_security_threats ip_address self request now).
Proof.
  intros Hb.
  unfold check_security_threats, _check_suspicious_url,
    _check_suspicious_headers.
  do 3 apply events_bounded_log_first_match.
  apply events_bounded_fold_left.
  - intros s [header threat] Hs.
    destruct (headers_get request header); [|exact Hs].
    destruct (_ && _); [apply events_bounded_log|]; exact Hs.
  - destruct (existsb _ _); [apply events_bounded_log|]; exact Hb.
Qed.

Lemma max_requests_config (self self' : SecurityMiddleware) :
  config self' = config self ->
  max_requests_per_window self' = max_requests_per_window self.
Proof. unfold config. intros H. injection H as _ -> _ _ _ _. reflexivity. Qed.

Lemma check_rate_limit_records_ok (self : SecurityMiddleware)
    (request : Request) (now : datetime) :
  records_ok ip_address self ->
  records_ok ip_address (snd (check_rate_limit ip_address self request now)).
Proof.
  intros Hok ip info'.
  destruct (check_rate_limit_blocked ip_address self request now)
    as [Hc _].
  rewrite (_is_trusted_ip_config ip_address _ _ ip Hc).
  rewrite (max_requests_config _ _ Hc).
  destruct (check_rate_limit_records self request now)
    as [-> | (Ht & _ & info1 & -> & Hreq & _)]; [apply Hok|].
  destruct (decide (_get_client_ip ip_address request = ip)) as [<-|Hne].
  - rewrite lookup_insert_eq. intros H. injection H as <-.
    split; [exact Ht|].
    set (old := default RateLimitInfo_default
                  (_rate_limits self !! _get_client_ip ip_address request))
      in *.
    assert (Hold : Z.of_nat (length (requests old))
                   <= Z.max 0 (max_requests_per_window self)).
    { subst old.
      destruct (_rate_limits self !! _get_client_ip ip_address request)
        as [o|] eqn:E; simpl; [apply (Hok _ _ E) | lia]. }
    pose proof (length_popleft_older
                  (now - rate_limit_window self) (requests old)) as Hp.
    destruct Hreq as [-> | [-> | [-> Hlt]]]; [exact Hold | lia |].
    rewrite length_app. simpl. lia.
  - rewrite lookup_insert_ne by exact Hne. apply Hok.
Qed.

Lemma _cleanup_old_data_records_ok (self : SecurityMiddleware)
    (now : datetime) :
  records_ok ip_address self ->
  records_ok ip_address (_cleanup_old_data self now).
Proof.
  intros Hok ip info'.
  destruct (_cleanup_old_data_blocked self now) as [Hc _].
  rewrite (_is_trusted_ip_config ip_address _ _ ip Hc).
  rewrite (max_requests_config _ _ Hc).
  rewrite (proj1 (_cleanup_old_data_lookup self now ip)).
  destruct (_rate_limits self !! ip) as [info|] eqn:E;
    [|destruct (_ && _); discriminate].
  destruct (Hok ip info E) as [Ht Hlen].
  pose proof (length_popleft_older (now - hours 1) (requests info)) as Hp.
  destruct (is_expired _ _); [destruct (_ && _); discriminate|].
  destruct (_ && _); simpl; intros H; injection H as <-;
    (split; [exact Ht | simpl; lia]).
Qed.

(** In every reachable state the records are in order and the event
    buffer is within its bound. *)
Lemma reachable_records (rate_limit_per_minute : Z)
    (self : SecurityMiddleware) :
  reachable ip_address rate_limit_per_minute self ->
  records_ok ip_address self /\ events_bounded self.
Proof.
  induction 1 as [|self self' _ [Hr He] Hstep].
  - split.
    + intros ip info H. simpl in H. rewrite lookup_empty in H.
      discriminate.
    + unfold events_bounded. simpl. lia.
  - destruct Hstep as [self request now | self request now | self now].
    + split; [apply check_rate_limit_records_ok, Hr
             |apply check_rate_limit_events, He].
    + destruct (check_security_threats_frame ip_address self request now)
        as (Hc & _ & Hl).
      split; [|apply check_security_threats_events, He].
      intros ip info. rewrite Hl.
      rewrite (_is_trusted_ip_config ip_address _ _ ip Hc).
      rewrite (max_requests_config _ _ Hc). apply Hr.
    + split; [apply _cleanup_old_data_records_ok, Hr|exact He].
Qed.


(** X7.  In every state the middleware reaches, the window of every
    record holds at most as many requests as the configured limit (none
    when the limit is not positive). *)
Theorem window_never_exceeds_limit (rate_limit_per_minute : Z)
    (self : SecurityMiddleware) (ip : string) (info : RateLimitInfo) :
  reachable ip_address rate_limit_per_minute self ->
  _rate_limits self !! ip = Some info ->
  Z.of_nat (length (requests info)) <= Z.max 0 rate_limit_per_minute.
Proof.
  intros Hreach Hl.
  destruct (reachable_records _ _ Hreach) as [Hr _].
  destruct (reachable_invariant ip_address _ _ Hreach) as [Hc _].
  destruct (Hr ip info Hl) as [_ Hlen].
  rewrite (max_requests_config _ _ Hc) in Hlen. exact Hlen.
Qed.

(** X8.  In every state the middleware reaches, the event buffer holds
    at most 1000 events. *)
Theorem event_buffer_is_bounded (rate_limit_per_minute : Z)
    (self : SecurityMiddleware) :
  reachable ip_address rate_limit_per_minute self ->
  (length (_security_events self) <= 1000)%nat.
Proof. intros Hreach. exact (proj2 (reachable_records _ _ Hreach)). Qed.

(** X9.  In every state the middleware reaches, an address of a trusted
    network has no record and is not blocked: [get_client_stats] returns
    nothing for it, and the [is_trusted] entry of every statistics
    dictionary it does return is false. *)
Theorem trusted_address_has_no_record (rate_limit_per_minute : Z)
    (isoformat : datetime -> string)
    (self : SecurityMiddleware) (ip : string) :
  reachable ip_address rate_limit_per_minute self ->
  (_is_trusted_ip ip_address self ip = true ->
   get_client_stats ip_address isoformat self ip = None
   /\ ip ∉ _blocked_ips self)
  /\ (forall stats,
        get_client_stats ip_address isoformat self ip = Some stats ->
        stat_is_trusted stats = false).
Proof.
  intros Hreach.
  destruct (reachable_records _ _ Hreach) as [Hr _].
  destruct (reachable_invariant ip_address _ _ Hreach) as [_ Hb].
  unfold get_client_stats. split.
  - intros Ht. split.
    + destruct (_rate_limits self !! ip) as [info|] eqn:E; [|reflexivity].
      destruct (Hr ip info E) as [Hf _]. congruence.
    + intros Hin. specialize (Hb ip Hin). congruence.
  - intros stats.
    destruct (_rate_limits self !! ip) as [info|] eqn:E; [|discriminate].
    intros H. injection H as <-. simpl. exact (proj1 (Hr ip info E)).
Qed.

(** X10.  A check never lowers a counter: an address that has a record
    keeps one, with at least as many accepted requests and at least as
    many violations as before, and with the same first request.  An
    accepted request does not reset the violations. *)
Theorem check_keeps_the_counters (self : SecurityMiddleware)
    (request : Request) (now : datetime) (ip : string)
    (info : RateLimitInfo) :
  _rate_limits self !! ip = Some info ->
  exists info',
    _rate_limits (snd (check_rate_limit ip_address self request now)) !! ip
    = Some info'
    /\ total_requests info <= total_requests info'
    /\ blocked_requests info <= blocked_requests info'
    /\ (forall f, first_request info = Some f ->
          first_request info' = Some f)
    /\ (fst (check_rate_limit ip_address self request now) = Ok tt ->
        blocked_requests info' = blocked_requests info).
Proof.
  intros Hl.
  assert (Hok : fst (check_rate_limit ip_address self request now) = Ok tt ->
                forall info',
                  _rate_limits
                    (snd (check_rate_limit ip_address self request now))
                  !! ip = Some info' ->
                  blocked_requests info' = blocked_requests info).
  { unfold check_rate_limit. cbv zeta.
    repeat match goal with
           | |- context [if ?b then _ else _] => destruct b
           end; cbn [fst snd]; try discriminate; intros _ info'.
    - rewrite Hl. congruence.
    - cbn [_rate_limits set_rate_limits]. rewrite insert_insert_eq.
      destruct (decide (_get_client_ip ip_address request = ip)) as [E|E].
      + rewrite E, lookup_insert_eq, Hl. simpl. intros H.
        injection H as <-. reflexivity.
      + rewrite lookup_insert_ne by exact E. rewrite Hl. congruence. }
  destruct (check_rate_limit_records self request now)
    as [E | (_ & _ & info1 & E & _ & Ht & Hv & Hf)].
  - exists info. rewrite E. split; [exact Hl|].
    split; [lia|]. split; [lia|]. split; [auto|].
    intros H. apply (Hok H). rewrite E. exact Hl.
  - destruct (decide (_get_client_ip ip_address request = ip)) as [Eip|Eip].
    + exists info1. rewrite E, Eip, lookup_insert_eq.
      rewrite Eip, Hl in Ht, Hv, Hf. simpl in Ht, Hv, Hf.
      split; [reflexivity|]. split; [exact Ht|]. split; [exact Hv|].
      split; [exact Hf|].
      intros H. apply (Hok H). rewrite E, Eip, lookup_insert_eq.
      reflexivity.
    + exists info. rewrite E, lookup_insert_ne by exact Eip.
      split; [exact Hl|]. split; [lia|]. split; [lia|]. split; [auto|].
      intros H. reflexivity.
Qed.


Lemma block_duration_config (self self' : SecurityMiddleware) :
  config self' = config self -> block_duration self' = block_duration self.
Proof. unfold config. intros H. injection H as _ _ -> _ _ _. reflexivity. Qed.


(** The same outcome for two states that differ in their events only. *)
Lemma check_rate_limit_frame (self self1 : SecurityMiddleware)
    (request : Request) (now : datetime) :
  frame self self1 ->
  fst (check_rate_limit ip_address self1 request now)
  = fst (check_rate_limit ip_address self request now)
  /\ frame (snd (check_rate_limit ip_address self request now))
       (snd (check_rate_limit ip_address self1 request now)).
Proof.
  intros (Hc & Hb & Hr).
  destruct self as [rl bl ev w mx bd mv tn ua].
  destruct self1 as [rl1 bl1 ev1 w1 mx1 bd1 mv1 tn1 ua1].
  unfold config in Hc. simpl in Hc, Hb, Hr.
  injection Hc as -> -> -> -> -> ->. subst bl1 rl1.
  unfold check_rate_limit, _is_trusted_ip. cbv zeta. simpl.
  repeat match goal with
         | |- context [if ?b then _ else _] => destruct b
         | |- context [match ?x with Some _ => _ | None => _ end] =>
             destruct x
         end; simpl; (split; [reflexivity | repeat split]).
Qed.

(** X12.  The threat scan decides nothing: a check made after a scan
    has the outcome it would have had without the scan, and leaves the
    same records and the same blocked set, whatever the scan found. *)
Theorem scan_never_affects_admission (self : SecurityMiddleware)
    (scanned request : Request) (scanned_at now : datetime) :
  let scan := check_security_threats ip_address self scanned scanned_at in
  fst (check_rate_limit ip_address scan request now)
  = fst (check_rate_limit ip_address self request now)
  /\ _blocked_ips (snd (check_rate_limit ip_address scan request now))
     = _blocked_ips (snd (check_rate_limit ip_address self request now))
  /\ _rate_limits (snd (check_rate_limit ip_address scan request now))
     = _rate_limits (snd (check_rate_limit ip_address self request now)).
Proof.
  intros scan.
  destruct (check_rate_limit_frame self scan request now
              (check_security_threats_frame ip_address self scanned
                 scanned_at))
    as (Hf & _ & Hb & Hr).
  split; [exact Hf|]. split; [exact Hb | exact Hr].
Qed.


Lemma is_expired_stale (now : datetime) (info : RateLimitInfo) :
  is_expired (now - hours 1) (prune_requests (now - hours 1) info) = true
  <-> stale now info.
Proof.
  unfold is_expired, stale, prune_requests. simpl.
  destruct (popleft_older (now - hours 1) (requests info)) as [|t d].
  - destruct (last_request info) as [l|].
    + rewrite Z.ltb_lt. split.
      * intros H. split; [reflexivity|]. exists l. auto.
      * intros (_ & l' & E & H). injection E as <-. exact H.
    + split; [discriminate|]. intros (_ & l' & E & _). discriminate.
  - split; [discriminate|]. intros (E & _). discriminate.
Qed.

(** The sweep deletes a stale record and keeps its address blocked. *)
Lemma sweep_keeps_stale_block (self : SecurityMiddleware) (now : datetime)
    (ip : string) (info : RateLimitInfo) :
  ip ∈ _blocked_ips self ->
  _rate_limits self !! ip = Some info ->
  stale now info ->
  blocked_without_record ip (_cleanup_old_data self now).
Proof.
  intros Hin Hl Hs.
  destruct (_cleanup_old_data_lookup self now ip) as [Hrec Hblk].
  rewrite Hl in Hrec, Hblk. cbv zeta in Hrec, Hblk.
  rewrite (proj2 (is_expired_stale now info) Hs) in Hrec, Hblk.
  rewrite andb_false_r in Hrec, Hblk.
  split; [apply Hblk; auto | exact Hrec].
Qed.

(** X13.  What the sweep does to a blocked address that has a record:
    it takes the address out of the blocked set exactly when the block
    has run out and the record is not stale, and it then clears the
    record's [blocked_until] and its violations.  A stale record is
    deleted and the address stays in the blocked set, even when the
    block has run out. *)
Theorem sweep_lifts_block_iff (self : SecurityMiddleware) (now : datetime)
    (ip : string) (info : RateLimitInfo) :
  ip ∈ _blocked_ips self ->
  _rate_limits self !! ip = Some info ->
  let self' := _cleanup_old_data self now in
  (ip ∉ _blocked_ips self'
   <-> (exists b, blocked_until info = Some b /\ b < now)
       /\ ~ stale now info)
  /\ (ip ∉ _blocked_ips self' ->
      exists info',
        _rate_limits self' !! ip = Some info'
        /\ blocked_until info' = None /\ blocked_requests info' = 0)
  /\ (stale now info ->
      ip ∈ _blocked_ips self' /\ _rate_limits self' !! ip = None).
Proof.
  intros Hin Hl self'. subst self'.
  destruct (_cleanup_old_data_lookup self now ip) as [Hrec Hblk].
  rewrite Hl in Hrec, Hblk. cbv zeta in Hrec, Hblk.
  rewrite (bool_decide_eq_true_2 _ Hin) in Hrec, Hblk.
  pose proof (is_expired_stale now info) as Hst.
  destruct (is_expired (now - hours 1) (prune_requests (now - hours 1) info)).
  - assert (Hs : stale now info) by (apply Hst; reflexivity).
    simpl in Hrec, Hblk. split; [|split].
    + split.
      * intros Hn. exfalso. apply Hn, Hblk. auto.
      * intros [_ Hn]. contradiction.
    + intros Hn. exfalso. apply Hn, Hblk. auto.
    + intros _. split; [apply Hblk; auto | exact Hrec].
  - assert (Hs : ~ stale now info).
    { intros H. apply Hst in H. discriminate. }
    simpl in Hrec, Hblk.
    destruct (blocked_until info) as [b|] eqn:Eb.
    + destruct (b <? now) eqn:Elt.
      * apply Z.ltb_lt in Elt. split; [|split].
        -- split; [intros _; split; [eauto | exact Hs]|].
           intros _ Hn. apply Hblk in Hn as [_ Hn]. discriminate.
        -- intros _. eexists. split; [exact Hrec|]. split; reflexivity.
        -- intros H. contradiction.
      * apply Z.ltb_ge in Elt. split; [|split].
        -- split.
           ++ intros Hn. exfalso. apply Hn, Hblk. auto.
           ++ intros [(b' & E & Hlt) _]. injection E as <-. lia.
        -- intros Hn. exfalso. apply Hn, Hblk. auto.
        -- intros H. contradiction.
    + split; [|split].
      * split.
        -- intros Hn. exfalso. apply Hn, Hblk. auto.
        -- intros [(b' & E & _) _]. discriminate.
      * intros Hn. exfalso. apply Hn, Hblk. auto.
      * intros H. contradiction.
Qed.

(** A blocked address without a record stays so under every step. *)
Lemma blocked_without_record_step (ip : string)
    (self self' : SecurityMiddleware) :
  step ip_address self self' ->
  blocked_without_record ip self -> blocked_without_record ip self'.
Proof.
  intros Hstep [Hin Hnone].
  destruct Hstep as [self request now | self request now | self now].
  - split.
    + apply (check_rate_limit_blocked_mono self request now), Hin.
    + destruct (check_rate_limit_records self request now)
        as [-> | (_ & Hnb & info1 & -> & _)]; [exact Hnone|].
      rewrite lookup_insert_ne; [exact Hnone|].
      intros <-. contradiction.
  - destruct (check_security_threats_frame ip_address self request now)
      as (_ & Hb & Hr).
    split; [rewrite Hb; exact Hin | rewrite Hr; exact Hnone].
  - destruct (_cleanup_old_data_lookup self now ip) as [Hrec Hblk].
    rewrite Hnone in Hrec, Hblk. cbv zeta in Hrec, Hblk.
    rewrite andb_false_r in Hrec, Hblk.
    split; [apply Hblk; auto | exact Hrec].
Qed.

Lemma reachable_rtc (rate_limit_per_minute : Z)
    (self self' : SecurityMiddleware) :
  reachable ip_address rate_limit_per_minute self ->
  rtc (step ip_address) self self' ->
  reachable ip_address rate_limit_per_minute self'.
Proof.
  intros Hreach Hrtc. induction Hrtc as [|a b c Hab _ IH]; [exact Hreach|].
  apply IH. exact (reachable_step _ _ _ _ Hreach Hab).
Qed.

(** X14.  A block whose record has gone stale is never lifted.  When
    the sweep meets a blocked address with a stale record, it deletes
    the record and keeps the address in the blocked set; and whatever
    checks, scans and sweeps follow, the address stays blocked, has no
    record, and every check for it is refused. *)
Theorem stale_block_is_permanent (rate_limit_per_minute : Z)
    (self self' : SecurityMiddleware) (now : datetime) (ip : string)
    (info : RateLimitInfo) :
  reachable ip_address rate_limit_per_minute self ->
  ip ∈ _blocked_ips self ->
  _rate_limits self !! ip = Some info ->
  stale now info ->
  rtc (step ip_address) (_cleanup_old_data self now) self' ->
  ip ∈ _blocked_ips self'
  /\ _rate_limits self' !! ip = None
  /\ forall request now',
       _get_client_ip ip_address request = ip ->
       fst (check_rate_limit ip_address self' request now')
       = Raise (HTTPException 429 "IP address is temporarily blocked"
                  [("Retry-After", "900")]).
Proof.
  intros Hreach Hin Hl Hs Hrtc.
  pose proof (sweep_keeps_stale_block self now ip info Hin Hl Hs) as H0.
  assert (H1 : blocked_without_record ip self').
  { clear Hreach. induction Hrtc as [|a b c Hab _ IH]; [exact H0|].
    apply IH. exact (blocked_without_record_step ip a b Hab H0). }
  destruct H1 as [Hin' Hnone]. split; [exact Hin'|]. split; [exact Hnone|].
  intros request now' Hip.
  assert (Hreach' : reachable ip_address rate_limit_per_minute self').
  { apply (reachable_rtc _ (_cleanup_old_data self now)); [|exact Hrtc].
    exact (reachable_step _ _ _ _ Hreach (step_cleanup _ self now)). }
  destruct (reachable_invariant ip_address _ _ Hreach') as [Hc Ht].
  rewrite (check_rate_limit_blocked_branch ip_address self' request now');
    [| rewrite Hip; exact (Ht ip Hin') | rewrite Hip; exact Hin'].
  rewrite (block_duration_config _ _ Hc). reflexivity.
Qed.

End WithIpAddress.


Lemma window_never_exceeds_limit_witness :
  exists info,
    _rate_limits Examples.blocked_middleware !! "203.0.113.1" = Some info
    /\ Z.of_nat (length (requests info)) <= 1.
Proof.
  destruct (_rate_limits Examples.blocked_middleware !! "203.0.113.1")
    as [info|] eqn:E; [|vm_compute in E; discriminate].
  exists info. split; [reflexivity|].
  exact (window_never_exceeds_limit parse_ipv4 1 Examples.blocked_middleware
           "203.0.113.1" info blocked_middleware_reachable E).
Defined.

Lemma event_buffer_is_bounded_witness :
  reachable parse_ipv4 1 Examples.blocked_middleware
  /\ (length (_security_events Examples.blocked_middleware) <= 1000)%nat.
Proof.
  split; [exact blocked_middleware_reachable|].
  exact (event_buffer_is_bounded parse_ipv4 1 Examples.blocked_middleware
           blocked_middleware_reachable).
Defined.

Lemma trusted_address_has_no_record_witness :
  _is_trusted_ip parse_ipv4 Examples.blocked_middleware "10.0.0.1" = true
  /\ get_client_stats parse_ipv4 (fun t => pretty t)
       Examples.blocked_middleware "10.0.0.1" = None
  /\ "10.0.0.1" ∉ _blocked_ips Examples.blocked_middleware.
Proof.
  assert (Ht : _is_trusted_ip parse_ipv4 Examples.blocked_middleware
                 "10.0.0.1" = true) by (vm_compute; reflexivity).
  split; [exact Ht|].
  exact (proj1 (trusted_address_has_no_record parse_ipv4 1
                  (fun t => pretty t) Examples.blocked_middleware
                  "10.0.0.1" blocked_middleware_reachable) Ht).
Defined.

Lemma warned_middleware_record :
  _rate_limits Examples.warned_middleware !! "203.0.113.1"
  = Some (mkRateLimitInfo [0] None 1 4 (Some 0) (Some 0)).
Proof. vm_compute. reflexivity. Qed.

Lemma check_keeps_the_counters_witness :
  exists info',
    _rate_limits
      (snd (check_rate_limit parse_ipv4 Examples.warned_middleware
              Examples.public_request 5)) !! "203.0.113.1" = Some info'
    /\ 1 <= total_requests info' /\ 4 <= blocked_requests info'.
Proof.
  destruct (check_keeps_the_counters parse_ipv4 Examples.warned_middleware
              Examples.public_request 5 "203.0.113.1" _
              warned_middleware_record)
    as (info' & Hl & Ht & Hv & _).
  exists info'. split; [exact Hl|]. split; [exact Ht | exact Hv].
Defined.



Lemma blocked_middleware_record :
  _rate_limits Examples.blocked_middleware !! "203.0.113.1"
  = Some (mkRateLimitInfo [0] (Some (5 + minutes 15)) 1 5 (Some 0) (Some 0)).
Proof. vm_compute. reflexivity. Qed.

(** Twenty minutes after the block of [Examples.blocked_middleware] the
    sweep lifts it. *)
Lemma sweep_lifts_block_iff_witness :
  "203.0.113.1" ∉ _blocked_ips
                    (_cleanup_old_data Examples.blocked_middleware
                       (minutes 20)).
Proof.
  destruct (sweep_lifts_block_iff Examples.blocked_middleware (minutes 20)
              "203.0.113.1" _ public_peer_blocked blocked_middleware_record)
    as (Hiff & _).
  apply Hiff. split.
  - exists (5 + minutes 15). split; [reflexivity | vm_compute; reflexivity].
  - intros (_ & l & E & Hl). injection E as <-. vm_compute in Hl.
    discriminate.
Defined.

(** The sweep that first runs two hours after the block deletes the
    record and keeps the block; a check made an hour later is refused. *)
Lemma stale_block_is_permanent_witness :
  let swept := _cleanup_old_data Examples.blocked_middleware (hours 2) in
  let later := Examples.checked swept (hours 3) in
  "203.0.113.1" ∈ _blocked_ips later
  /\ _rate_limits later !! "203.0.113.1" = None
  /\ fst (check_rate_limit parse_ipv4 later Examples.public_request
            (hours 4))
     = Raise (HTTPException 429 "IP address is temporarily blocked"
                [("Retry-After", "900")]).
Proof.
  intros swept later.
  assert (Hs : stale (hours 2)
                 (mkRateLimitInfo [0] (Some (5 + minutes 15)) 1 5 (Some 0)
                    (Some 0))).
  { split; [reflexivity|]. exists 0. split; [reflexivity|].
    vm_compute. reflexivity. }
  assert (Hrtc : rtc (step parse_ipv4) swept later).
  { apply rtc_once. apply step_check. }
  destruct (stale_block_is_permanent parse_ipv4 1 Examples.blocked_middleware
              later (hours 2) "203.0.113.1" _
              blocked_middleware_reachable public_peer_blocked
              blocked_middleware_record Hs Hrtc)
    as (Hin & Hnone & Hcheck).
  split; [exact Hin|]. split; [exact Hnone|].
  exact (Hcheck Examples.public_request (hours 4) eq_refl).
Defined.

End RateLimitStateProps.

(** ** Statistics and trusted networks *)

Module RateLimitStatsProps.

Import Http.
Import RateLimit.
Import RateLimitProps.

Lemma total_count_count_key (k : string) (d : list (string * nat)) :
  total_count (count_key k d) = S (total_count d).
Proof.
  induction d as [|[k' n] d IH]; simpl; [reflexivity|].
  destruct (String.eqb k k'); simpl; [reflexivity|].
  rewrite IH. lia.
Qed.

Lemma count_key_keys (k : string) (d : list (string * nat)) (x : string) :
  x ∈ (count_key k d).*1 <-> x = k \/ x ∈ d.*1.
Proof.
  induction d as [|[k' n] d IH]; simpl.
  - rewrite elem_of_cons, elem_of_nil. tauto.
  - destruct (String.eqb_spec k k') as [->|Hne]; simpl.
    + rewrite elem_of_cons. tauto.
    + rewrite !elem_of_cons, IH. tauto.
Qed.

Lemma NoDup_count_key (k : string) (d : list (string * nat)) :
  NoDup d.*1 -> NoDup (count_key k d).*1.
Proof.
  induction d as [|[k' n] d IH]; simpl; intros Hnd.
  - apply NoDup_singleton.
  - apply NoDup_cons in Hnd as [Hk' Hnd].
    destruct (String.eqb_spec k k') as [->|Hne]; simpl.
    + apply NoDup_cons. split; assumption.
    + apply NoDup_cons. split; [|apply IH, Hnd].
      rewrite count_key_keys. intros [E | E]; [congruence | contradiction].
Qed.

Lemma count_by_spec (key : SecurityEvent -> string)
    (events : list SecurityEvent) :
  total_count (count_by key events) = length events
  /\ NoDup (count_by key events).*1
  /\ forall k, k ∈ (count_by key events).*1 <-> k ∈ map key events.
Proof.
  unfold count_by.
  assert (H : forall d,
            total_count (fold_left (fun d e => count_key (key e) d) events d)
            = (total_count d + length events)%nat
            /\ (NoDup d.*1 ->
                NoDup (fold_left (fun d e => count_key (key e) d)
                         events d).*1)
            /\ forall k,
                 k ∈ (fold_left (fun d e => count_key (key e) d)
                        events d).*1
                 <-> k ∈ d.*1 \/ k ∈ map key events).
  { induction events as [|e events IH]; intros d; simpl.
    - split; [lia|]. split; [auto|]. intros k.
      rewrite elem_of_nil. tauto.
    - destruct (IH (count_key (key e) d)) as (H1 & H2 & H3).
      split; [rewrite H1, total_count_count_key; lia|].
      split; [intros Hnd; apply H2, NoDup_count_key, Hnd|].
      intros k. rewrite H3, count_key_keys, elem_of_cons. tauto. }
  destruct (H []) as (H1 & H2 & H3).
  split; [exact H1|]. split; [apply H2, NoDup_nil_2|].
  intros k. rewrite H3. simpl. rewrite elem_of_nil. tauto.
Qed.

Lemma length_filter_le {A} (p q : A -> bool) (l : list A) :
  (forall x, p x = true -> q x = true) ->
  (length (List.filter p l) <= length (List.filter q l))%nat.
Proof.
  intros Hpq. induction l as [|x l IH]; simpl; [lia|].
  destruct (p x) eqn:Ep.
  - rewrite (Hpq x Ep). simpl. lia.
  - destruct (q x); simpl; lia.
Qed.

Lemma length_filter_all {A} (p : A -> bool) (l : list A) :
  (length (List.filter p l) <= length l)%nat.
Proof.
  induction l as [|x l IH]; simpl; [lia|]. destruct (p x); simpl; lia.
Qed.

(** X15.  The numbers [get_security_stats] reports agree with each
    other: the events of the last hour are among those of the last day,
    which are among all events held; the counts by severity and the
    counts by type each add up to the number of events of the last day,
    and no severity and no type is listed twice. *)
Theorem security_stats_are_consistent (self : SecurityMiddleware)
    (now : datetime) :
  let stats := get_security_stats self now in
  (events_last_hour stats <= events_last_day stats)%nat
  /\ (events_last_day stats <= events_total stats)%nat
  /\ total_count (events_by_severity stats) = events_last_day stats
  /\ total_count (events_by_type stats) = events_last_day stats
  /\ NoDup (events_by_severity stats).*1
  /\ NoDup (events_by_type stats).*1.
Proof.
  intros stats. subst stats. unfold get_security_stats. simpl.
  split.
  { apply length_filter_le. intros e H. apply Z.ltb_lt in H.
    apply Z.ltb_lt. unfold days, hours, minutes, seconds in *. lia. }
  split; [apply length_filter_all|].
  split; [apply count_by_spec|]. split; [apply count_by_spec|].
  split; [apply count_by_spec|]. apply count_by_spec.
Qed.

(** *** Trusted networks *)

Lemma testbit_small (x i : Z) : 0 <= x < 2 ^ i -> Z.testbit x i = false.
Proof.
  intros [H0 H1].
  destruct (Z.eq_dec x 0) as [->|Hne]; [apply Z.bits_0|].
  apply Z.bits_above_log2; [exact H0|].
  apply Z.log2_lt_pow2; lia.
Qed.

Lemma lor_shiftl_small (hi lo k : Z) :
  0 <= k -> 0 <= lo < 2 ^ k ->
  Z.lor (Z.shiftl hi k) lo = hi * 2 ^ k + lo.
Proof.
  intros Hk Hlo.
  assert (Hland : Z.land (Z.shiftl hi k) lo = 0).
  { apply Z.bits_inj'. intros i Hi.
    rewrite Z.land_spec, Z.bits_0.
    destruct (Z.lt_ge_cases i k) as [Hlt|Hge].
    - rewrite Z.shiftl_spec_low by exact Hlt. reflexivity.
    - rewrite (testbit_small lo i); [apply andb_false_r|].
      split; [lia|].
      apply Z.lt_le_trans with (2 ^ k); [lia|].
      apply Z.pow_le_mono_r; lia. }
  rewrite <- Z.lxor_lor by exact Hland.
  rewrite <- Z.add_nocarry_lxor by exact Hland.
  rewrite Z.shiftl_mul_pow2 by exact Hk. reflexivity.
Qed.

Lemma ipv4_sum (a b c d : Z) :
  0 <= b < 256 -> 0 <= c < 256 -> 0 <= d < 256 ->
  ipv4 a b c d = a * 16777216 + b * 65536 + c * 256 + d.
Proof.
  intros Hb Hc Hd. unfold ipv4.
  rewrite (lor_shiftl_small c d 8) by (simpl; lia).
  rewrite (lor_shiftl_small b _ 16) by (simpl; lia).
  rewrite (lor_shiftl_small a _ 24) by (simpl; lia).
  simpl. lia.
Qed.

(** Masking with a prefix mask clears the host bits. *)
Lemma land_prefix_mask (x len : Z) :
  0 <= len <= 32 -> 0 <= x < 2 ^ 32 ->
  Z.land x (Z.shiftl (Z.ones len) (32 - len))
  = x / 2 ^ (32 - len) * 2 ^ (32 - len).
Proof.
  intros Hlen Hx.
  rewrite <- Z.shiftr_div_pow2, <- Z.shiftl_mul_pow2 by lia.
  apply Z.bits_inj'. intros i Hi. rewrite Z.land_spec.
  destruct (Z.lt_ge_cases i (32 - len)) as [Hlt|Hge].
  - rewrite !Z.shiftl_spec_low by exact Hlt. apply andb_false_r.
  - rewrite !Z.shiftl_spec by exact Hi.
    rewrite Z.shiftr_spec by lia.
    replace (i - (32 - len) + (32 - len)) with i by lia.
    destruct (Z.lt_ge_cases (i - (32 - len)) len) as [Hl|Hh].
    + rewrite Z.ones_spec_low by lia. apply andb_true_r.
    + rewrite Z.ones_spec_high by lia. rewrite andb_false_r.
      symmetry. apply testbit_small. split; [lia|].
      apply Z.lt_le_trans with (2 ^ 32); [lia|].
      apply Z.pow_le_mono_r; lia.
Qed.

Lemma network_contains_prefix (a0 b0 c0 d0 len a b c d : Z) :
  0 <= len <= 32 ->
  0 <= a < 256 -> 0 <= b < 256 -> 0 <= c < 256 -> 0 <= d < 256 ->
  network_contains (ip_network4 a0 b0 c0 d0 len)
    (IPv4Address (ipv4 a b c d))
  = (ipv4 a b c d / 2 ^ (32 - len) * 2 ^ (32 - len) =? ipv4 a0 b0 c0 d0).
Proof.
  intros Hlen Ha Hb Hc Hd. unfold network_contains, ip_network4. simpl.
  rewrite land_prefix_mask; [reflexivity | exact Hlen|].
  rewrite ipv4_sum by assumption. simpl. lia.
Qed.

Section WithIpAddress.

Variable ip_address : string -> option IPAddress.

(** X16.  The trusted addresses of every state the middleware reaches:
    a dotted quad [a.b.c.d] is trusted exactly when it lies in 127/8,
    10/8, 172.16/12 or 192.168/16; an IPv6 address is never trusted, the
    loopback and the IPv4-mapped addresses included; and text that is no
    address is never trusted. *)
Theorem trusted_networks_by_octets (rate_limit_per_minute : Z)
    (self : SecurityMiddleware) (ip : string) :
  reachable ip_address rate_limit_per_minute self ->
  (forall a b c d,
     0 <= a < 256 -> 0 <= b < 256 -> 0 <= c < 256 -> 0 <= d < 256 ->
     ip_address ip = Some (IPv4Address (ipv4 a b c d)) ->
     (_is_trusted_ip ip_address self ip = true
      <-> a = 127 \/ a = 10 \/ (a = 172 /\ 16 <= b <= 31)
          \/ (a = 192 /\ b = 168)))
  /\ (forall n, ip_address ip = Some (IPv6Address n) ->
        _is_trusted_ip ip_address self ip = false)
  /\ (ip_address ip = None -> _is_trusted_ip ip_address self ip = false).
Proof.
  intros Hreach.
  destruct (reachable_invariant ip_address _ _ Hreach) as [Hc _].
  rewrite (_is_trusted_ip_config ip_address _ _ ip Hc).
  unfold _is_trusted_ip. split; [|split].
  - intros a b c d Ha Hb Hc' Hd ->.
    cbn [trusted_networks SecurityMiddleware_init existsb].
    rewrite !network_contains_prefix by (assumption || lia).
    rewrite !ipv4_sum by lia.
    rewrite orb_false_r, !orb_true_iff, !Z.eqb_eq.
    change (2 ^ (32 - 8)) with 16777216.
    change (2 ^ (32 - 12)) with 1048576.
    change (2 ^ (32 - 16)) with 65536.
    split.
    + intros [H | [H | [H | H]]]; Z.div_mod_to_equations; lia.
    + intros [H | [H | [H | H]]];
        [left | right; left | right; right; left | right; right; right];
        Z.div_mod_to_equations; lia.
  - intros n ->. reflexivity.
  - intros ->. reflexivity.
Qed.

End WithIpAddress.

Lemma trusted_networks_by_octets_witness :
  _is_trusted_ip parse_ipv4 Examples.blocked_middleware "172.31.255.254"
  = true
  /\ _is_trusted_ip parse_ipv4 Examples.blocked_middleware "172.32.0.1"
     = false.
Proof.
  split.
  - apply (proj1 (trusted_networks_by_octets parse_ipv4 1
                    Examples.blocked_middleware "172.31.255.254"
                    blocked_middleware_reachable) 172 31 255 254);
      [lia | lia | lia | lia | vm_compute; reflexivity|].
    right. right. left. lia.
  - destruct (_is_trusted_ip parse_ipv4 Examples.blocked_middleware
                "172.32.0.1") eqn:E; [|reflexivity].
    apply (proj1 (trusted_networks_by_octets parse_ipv4 1
                    Examples.blocked_middleware "172.32.0.1"
                    blocked_middleware_reachable) 172 32 0 1) in E;
      [lia | lia | lia | lia | lia | vm_compute; reflexivity].
Defined.

End RateLimitStatsProps.

(** ** The validator: what every result satisfies *)

Module ValidationProps.

Import PyStr.
Import Re.
Import QueryValidator.
Import QueryValidatorProps.

Lemma max_by_value_SAFE (r : QueryRiskLevel) : max_by_value SAFE r = SAFE.
Proof. destruct r; reflexivity. Qed.

Lemma max_by_value_not_SAFE (a b : QueryRiskLevel) :
  a <> SAFE -> b <> SAFE -> max_by_value a b <> SAFE.
Proof. destruct a, b; intros Ha Hb; vm_compute; congruence. Qed.

Lemma nonempty_app {A} (l1 l2 : list A) :
  nonempty (l1 ++ l2) = nonempty l1 || nonempty l2.
Proof. destruct l1; reflexivity. Qed.

Lemma nonempty_length {A} (l : list A) :
  Nat.eqb (length l) 0 = negb (nonempty l).
Proof. destruct l; reflexivity. Qed.

(** The fields of a result, in terms of the four checks. *)
Lemma validate_query_fields (self : QueryValidator) (query : string)
    (allow_modifications : bool) (v : ValidationResult) :
  validate_query self query allow_modifications = Ok v ->
  let n := _normalize_query (strip query) in
  let inj := _check_sql_injection self n in
  let ops := _check_dangerous_operations self n in
  issues v = inj ++ (if allow_modifications then [] else ops)
  /\ warnings v
     = (if allow_modifications then ops else [])
       ++ _check_protected_schemas self n ++ _check_query_complexity n
  /\ is_valid v = negb (nonempty (issues v))
  /\ sanitized_query v
     = (if nonempty (issues v) then None
        else Some (_sanitize_query (strip query)))
  /\ requires_confirmation v = nonempty ops && allow_modifications
  /\ (risk_level v = SAFE <-> issues v = []).
Proof.
  unfold validate_query.
  destruct (negb (truthy query) || negb (truthy (strip query)));
    [discriminate|].
  cbv zeta.
  generalize (_check_sql_injection self (_normalize_query (strip query)))
    (_check_dangerous_operations self (_normalize_query (strip query)))
    (_check_protected_schemas self (_normalize_query (strip query)))
    (_check_query_complexity (_normalize_query (strip query)))
    (_sanitize_query (strip query)).
  intros inj ops sch cpx san.
  destruct inj as [|i inj], ops as [|o ops], allow_modifications,
    sch as [|s sch], cpx as [|c cpx];
    cbn -[max_by_value]; intros H; injection H as <-;
    cbn -[max_by_value];
    rewrite <- ?app_assoc, ?app_nil_r, ?max_by_value_SAFE;
    cbn -[max_by_value];
    (split; [reflexivity|]); (split; [reflexivity|]);
    (split; [reflexivity|]); (split; [reflexivity|]);
    (split; [reflexivity|]);
    (split; [intros H; try reflexivity; try discriminate;
             exfalso; revert H;
             repeat (apply max_by_value_not_SAFE; try discriminate);
             discriminate
            |intros H; try reflexivity; discriminate]).
Qed.

(** A query that is not blank gets a result. *)
Lemma validate_query_returns (self : QueryValidator) (query : string)
    (allow_modifications : bool) :
  truthy (strip query) = true ->
  exists v, validate_query self query allow_modifications = Ok v.
Proof.
  intros Hnb.
  assert (Hq : truthy query = true).
  { destruct query; [discriminate Hnb | reflexivity]. }
  unfold validate_query. rewrite Hq, Hnb. cbn [negb orb]. cbv zeta.
  destruct (nonempty (_check_sql_injection _ _)),
    (nonempty (_check_dangerous_operations _ _)), allow_modifications,
    (nonempty (_check_protected_schemas _ _)),
    (nonempty (_check_query_complexity _));
    eexists; reflexivity.
Qed.

(** X17.  The risk level of a result says no more than its validity:
    it is [SAFE] exactly when the result is valid.  In particular a
    valid result is never reported above [SAFE], whatever warnings it
    carries, and an invalid one is never [SAFE]. *)
Theorem risk_level_is_safe_iff_valid (self : QueryValidator)
    (query : string) (allow_modifications : bool) (v : ValidationResult) :
  validate_query self query allow_modifications = Ok v ->
  (risk_level v = SAFE <-> is_valid v = true).
Proof.
  intros Hv.
  destruct (validate_query_fields self query allow_modifications v Hv)
    as (_ & _ & Hvalid & _ & _ & Hrisk).
  rewrite Hrisk, Hvalid. destruct (issues v); simpl; split; congruence.
Qed.

(** X18.  Without [allow_modifications], a query whose normalized text
    contains a keyword of the block list as a whole word is invalid: the
    keyword's finding is among the issues, there is no sanitized text,
    and no confirmation is asked for. *)
Theorem dangerous_keyword_is_rejected (self : QueryValidator)
    (query keyword : string) :
  truthy (strip query) = true ->
  keyword ∈ dangerous_keywords self ->
  search no_flags (word keyword) (_normalize_query (strip query)) = true ->
  exists v,
    validate_query self query false = Ok v
    /\ is_valid v = false
    /\ ("Dangerous operation detected: " +:+ keyword) ∈ issues v
    /\ sanitized_query v = None
    /\ requires_confirmation v = false.
Proof.
  intros Hnb Hk Hs.
  pose proof (dangerous_keyword_reported self keyword _ Hk Hs) as Hrep.
  destruct (validate_query_returns self query false Hnb) as [v Hv].
  destruct (validate_query_fields self query false v Hv)
    as (Hi & _ & Hvalid & Hsan & Hc & _).
  assert (Hin : ("Dangerous operation detected: " +:+ keyword) ∈ issues v).
  { rewrite Hi. apply elem_of_app. right. exact Hrep. }
  assert (Hne : nonempty (issues v) = true)
    by exact (nonempty_true_elem _ _ Hin).
  exists v. split; [exact Hv|].
  rewrite Hvalid, Hsan, Hc, Hne, andb_false_r. auto.
Qed.

(** X19.  A finding of the injection check makes the query invalid
    under either setting of [allow_modifications]: the issues begin with
    the injection findings and there is no sanitized text.  An odd
    number of single quotes in the normalized text is such a finding. *)
Theorem injection_finding_invalidates (self : QueryValidator)
    (query : string) (allow_modifications : bool) (v : ValidationResult) :
  validate_query self query allow_modifications = Ok v ->
  let n := _normalize_query (strip query) in
  (_check_sql_injection self n <> [] ->
   is_valid v = false /\ sanitized_query v = None
   /\ exists more, issues v = _check_sql_injection self n ++ more)
  /\ (Nat.odd (count_char "'" n) = true ->
      is_valid v = false
      /\ "Unmatched single quotes detected" ∈ issues v).
Proof.
  intros Hv n.
  destruct (validate_query_fields self query allow_modifications v Hv)
    as (Hi & _ & Hvalid & Hsan & _ & _).
  fold n in Hi.
  assert (H1 : _check_sql_injection self n <> [] ->
               is_valid v = false /\ sanitized_query v = None
               /\ exists more, issues v = _check_sql_injection self n ++ more).
  { intros Hne. rewrite Hvalid, Hsan, Hi.
    destruct (_check_sql_injection self n) as [|i inj]; [contradiction|].
    simpl. split; [reflexivity|]. split; [reflexivity|]. eauto. }
  split; [exact H1|].
  intros Hodd.
  assert (Hin : "Unmatched single quotes detected"
                ∈ _check_sql_injection self n).
  { unfold _check_sql_injection.
    assert (Hq : negb (Nat.eqb (count_char "'" n mod 2) 0) = true).
    { rewrite Nat.odd_spec in Hodd. destruct Hodd as [k Hk].
      rewrite Hk. replace (2 * k + 1)%nat with (1 + k * 2)%nat by lia.
      rewrite Nat.Div0.mod_add. reflexivity. }
    rewrite Hq.
    destruct (contains "--" n || contains "/*" n).
    - apply elem_of_app. left. apply elem_of_app. right.
      apply list_elem_of_here.
    - apply elem_of_app. right. apply list_elem_of_here. }
  destruct H1 as (Hf & _ & more & Hm).
  { intros E. rewrite E in Hin. inversion Hin. }
  split; [exact Hf|]. rewrite Hm. apply elem_of_app. left. exact Hin.
Qed.

Lemma delete_validation :
  validate_query query_validator "DELETE FROM x" true
  = Ok (mkValidationResult true SAFE []
          ["Dangerous operation detected: DELETE"] (Some "DELETE FROM x")
          true).
Proof. vm_compute. reflexivity. Qed.

Lemma quote_validation :
  validate_query query_validator "SELECT 'a" true
  = Ok (mkValidationResult false DANGEROUS
          ["Unmatched single quotes detected"] [] None false).
Proof. vm_compute. reflexivity. Qed.

(** The level of the valid result for "DELETE FROM x" is [SAFE], and the
    invalid result for "SELECT 'a" is not [SAFE]. *)
Lemma risk_level_is_safe_iff_valid_witness :
  (exists v, validate_query query_validator "DELETE FROM x" true = Ok v
             /\ risk_level v = SAFE)
  /\ (exists v, validate_query query_validator "SELECT 'a" true = Ok v
                /\ risk_level v <> SAFE).
Proof.
  split.
  - eexists. split; [exact delete_validation|].
    apply (proj2 (risk_level_is_safe_iff_valid _ _ _ _ delete_validation)).
    reflexivity.
  - eexists. split; [exact quote_validation|]. intros H.
    apply (proj1 (risk_level_is_safe_iff_valid _ _ _ _ quote_validation))
      in H.
    discriminate H.
Defined.

Lemma dangerous_keyword_is_rejected_witness :
  exists v,
    validate_query query_validator "DROP TABLE users" false = Ok v
    /\ is_valid v = false
    /\ "Dangerous operation detected: DROP" ∈ issues v
    /\ sanitized_query v = None.
Proof.
  destruct (dangerous_keyword_is_rejected query_validator
              "DROP TABLE users" "DROP")
    as (v & Hv & Hvalid & Hin & Hs & _).
  - reflexivity.
  - unfold query_validator. simpl. apply list_elem_of_here.
  - vm_compute. reflexivity.
  - exists v. repeat split; assumption.
Defined.

Lemma injection_finding_invalidates_witness :
  exists v, validate_query query_validator "SELECT 'a" true = Ok v
            /\ is_valid v = false
            /\ "Unmatched single quotes detected" ∈ issues v.
Proof.
  eexists. split; [exact quote_validation|].
  apply (proj2 (injection_finding_invalidates _ _ _ _ quote_validation)).
  vm_compute. reflexivity.
Defined.

End ValidationProps.

(** ** The normal form of sanitized and normalized text *)

Module NormalFormProps.

Import PyStr.
Import PyStrProps.
Import Re.
Import QueryValidator.
Import SanitizeProps.
Import NormalizeProps.

(** The characters of a text. *)
Lemma contains_char_cons (c d : ascii) (s : string) :
  contains (String c EmptyString) (String d s)
  = Ascii.eqb c d || contains (String c EmptyString) s.
Proof.
  rewrite contains_cons. f_equal. simpl.
  destruct (ascii_dec c d) as [->|Hne].
  - rewrite Ascii.eqb_refl. destruct s; reflexivity.
  - symmetry. apply Ascii.eqb_neq. exact Hne.
Qed.

(** In a text the whitespace substitution leaves unchanged, every
    whitespace character is a space, and no two spaces are adjacent. *)
Lemma squeeze_fixed (b : bool) (s : string) :
  squeeze b s = s ->
  contains "  " s = false
  /\ (forall c, isspace c = true -> c <> " "%char ->
        contains (String c EmptyString) s = false)
  /\ (b = true -> forall c, head s = Some c -> isspace c = false).
Proof.
  revert b. induction s as [|c s IH]; intros b.
  - intros _. split; [reflexivity|]. split; [reflexivity|]. discriminate.
  - simpl squeeze. destruct (isspace c) eqn:Ec.
    + destruct b.
      * intros H. exfalso. pose proof (length_squeeze true s) as Hl.
        rewrite H in Hl. simpl in Hl. lia.
      * intros H. injection H as <- H.
        destruct (IH true H) as (H1 & H2 & H3).
        split; [|split; [|discriminate]].
        -- rewrite contains_cons, H1, orb_false_r, prefix2_head.
           simpl. apply bool_decide_eq_false. intros Hh.
           specialize (H3 eq_refl _ Hh). discriminate.
        -- intros d Hd Hne. rewrite contains_char_cons, (H2 d Hd Hne).
           rewrite orb_false_r. apply Ascii.eqb_neq. exact Hne.
    + intros H. injection H as H.
      destruct (IH false H) as (H1 & H2 & _).
      split; [|split].
      * rewrite contains_cons, H1, orb_false_r, prefix2_head.
        destruct (Ascii.eqb_spec " " c) as [<-|]; [discriminate|].
        reflexivity.
      * intros d Hd Hne. rewrite contains_char_cons, (H2 d Hd Hne).
        rewrite orb_false_r. apply Ascii.eqb_neq. intros ->. congruence.
      * intros _ d Hd. injection Hd as <-. exact Ec.
Qed.

Lemma upper_char_idem (c : ascii) : upper_char (upper_char c) = upper_char c.
Proof.
  destruct c as [[|] [|] [|] [|] [|] [|] [|] [|]]; reflexivity.
Qed.

Lemma isspace_upper_char (c : ascii) : isspace (upper_char c) = isspace c.
Proof.
  destruct c as [[|] [|] [|] [|] [|] [|] [|] [|]]; reflexivity.
Qed.

Lemma upper_idem (s : string) : upper (upper s) = upper s.
Proof.
  induction s as [|c s IH]; simpl; [reflexivity|].
  rewrite upper_char_idem, IH. reflexivity.
Qed.

Lemma squeeze_upper (b : bool) (s : string) :
  squeeze b (upper s) = upper (squeeze b s).
Proof.
  revert b. induction s as [|c s IH]; intros b; simpl; [reflexivity|].
  rewrite isspace_upper_char. destruct (isspace c).
  - destruct b; simpl; rewrite IH; reflexivity.
  - simpl. rewrite IH. reflexivity.
Qed.

Lemma lstrip_upper (s : string) : lstrip (upper s) = upper (lstrip s).
Proof.
  unfold lstrip. induction s as [|c s IH]; simpl; [reflexivity|].
  rewrite isspace_upper_char. destruct (isspace c); [exact IH|reflexivity].
Qed.

Lemma rstrip_upper (s : string) : rstrip (upper s) = upper (rstrip s).
Proof.
  unfold rstrip. induction s as [|c s IH]; [reflexivity|].
  simpl upper. rewrite !rstrip_by_cons, IH, isspace_upper_char.
  destruct (rstrip_by isspace s); simpl; [|reflexivity].
  destruct (isspace c); reflexivity.
Qed.

Lemma strip_upper (s : string) : strip (upper s) = upper (strip s).
Proof. unfold strip. rewrite rstrip_upper, lstrip_upper. reflexivity. Qed.

Lemma contains_upper_space (s : string) :
  contains "  " (upper s) = true -> contains "  " s = true.
Proof. apply contains_upper; reflexivity. Qed.

Lemma contains_char_upper (c : ascii) (s : string) :
  isspace c = true ->
  contains (String c EmptyString) (upper s) = true ->
  contains (String c EmptyString) s = true.
Proof.
  intros Hc. induction s as [|d s IH]; [easy|].
  simpl upper. rewrite !contains_char_cons. intros H.
  apply orb_true_iff in H as [H | H].
  - apply Ascii.eqb_eq in H. subst c.
    assert (E : upper_char d = d).
    { revert Hc. clear.
      destruct d as [[|] [|] [|] [|] [|] [|] [|] [|]];
        (reflexivity || discriminate). }
    rewrite E, Ascii.eqb_refl. reflexivity.
  - rewrite (IH H). apply orb_true_r.
Qed.

(** X20.  The sanitized text and the normalized text of every query
    are in normal form: no whitespace at either end, and every
    whitespace character a single space with no other beside it, so that
    collapsing the whitespace again changes nothing.  The normalized
    text is upper-case as well. *)
Theorem texts_are_in_normal_form (query : string) :
  let s := _sanitize_query query in
  let n := _normalize_query query in
  normal_form s /\ collapse_whitespace s = s
  /\ normal_form n /\ collapse_whitespace n = n
  /\ upper n = n.
Proof.
  intros s n. subst s n.
  split; [|split; [|split; [|split]]].
  - destruct (_sanitize_query_normal query) as [text ->].
    destruct (squeeze_fixed false _ (normal_squeeze text)) as (H1 & H2 & _).
    split; [apply normal_strip|]. split; [exact H1 | exact H2].
  - destruct (_sanitize_query_normal query) as [text ->].
    rewrite collapse_whitespace_squeeze. apply normal_squeeze.
  - unfold _normalize_query. rewrite collapse_whitespace_squeeze.
    set (u := remove_block_comments (remove_line_comments query)).
    destruct (squeeze_fixed false _ (normal_squeeze u)) as (H1 & H2 & _).
    split; [rewrite strip_upper, normal_strip; reflexivity|]. split.
    + destruct (contains "  " (upper _)) eqn:E; [|reflexivity].
      apply contains_upper_space in E. congruence.
    + intros c Hc Hne.
      destruct (contains (String c EmptyString) (upper _)) eqn:E;
        [|reflexivity].
      apply (contains_char_upper c _ Hc) in E.
      rewrite (H2 c Hc Hne) in E. discriminate.
  - unfold _normalize_query. rewrite !collapse_whitespace_squeeze.
    rewrite squeeze_upper, normal_squeeze. reflexivity.
  - unfold _normalize_query. apply upper_idem.
Qed.

(** No tab is left in the text sanitized from the query of
    [test_sanitize_query], nor in its normalized text. *)
Lemma texts_are_in_normal_form_witness :
  contains (String "009"%char EmptyString)
    (_sanitize_query Examples.test_sanitize_query_input) = false
  /\ contains (String "009"%char EmptyString)
       (_normalize_query Examples.test_sanitize_query_input) = false.
Proof.
  destruct (texts_are_in_normal_form Examples.test_sanitize_query_input)
    as ((_ & _ & Hs) & _ & (_ & _ & Hn) & _).
  split; [apply Hs | apply Hn]; (reflexivity || discriminate).
Defined.

(** X21.  For a query without a block-comment opener, the normalized
    text holds no comment marker, whatever line comments the query has,
    so the comment check of [_check_sql_injection] never reports them;
    and normalizing the normalized text again changes nothing. *)
Theorem normalization_removes_line_comments (query : string) :
  contains "/*" query = false ->
  let n := _normalize_query query in
  contains "--" n = false
  /\ contains "/*" n = false
  /\ _normalize_query n = n.
Proof.
  intros Hq n.
  pose proof (line_comments_are_invisible query Hq) as Hm. fold n in Hm.
  destruct (has_comment_marker_false _ Hm) as [H1 H2].
  split; [exact H1|]. split; [exact H2|].
  unfold _normalize_query at 1.
  rewrite (remove_line_comments_id n H1), (remove_block_comments_id n H2).
  rewrite collapse_whitespace_squeeze.
  subst n. unfold _normalize_query. rewrite collapse_whitespace_squeeze.
  set (u := remove_block_comments (remove_line_comments query)).
  rewrite squeeze_upper, normal_squeeze, strip_upper, normal_strip.
  apply upper_idem.
Qed.

Lemma normalization_removes_line_comments_witness :
  contains "--" (_normalize_query "SELECT 1 -- ; DROP TABLE users") = false
  /\ _normalize_query (_normalize_query "SELECT 1 -- ; DROP TABLE users")
     = _normalize_query "SELECT 1 -- ; DROP TABLE users".
Proof.
  destruct (normalization_removes_line_comments
              "SELECT 1 -- ; DROP TABLE users" eq_refl)
    as (H1 & _ & H3).
  split; [exact H1 | exact H3].
Defined.

End NormalFormProps.

(** ** The JSON-RPC handler: sessions and tools *)

Module SessionProps.

Import MCP.

Section Handler.

Context {S : Type}.
Variable initialize : Dict -> S -> Result string Dict * S.
Variable list_tools : S -> Result string Dict * S.
Variable call_tool : string -> Dict -> S -> Result string Dict * S.
Variable list_resources : S -> Result string Dict * S.
Variable read_resource : string -> S -> Result string Dict * S.
Variable InitializeParams : Dict -> Result string Dict.
Variable CallToolParams : Dict -> Result string (string * Dict).
Variable ReadResourceParams : Dict -> Result string string.

Local Abbreviation handle_request :=
  (handle_request initialize list_tools call_tool list_resources
     read_resource InitializeParams CallToolParams ReadResourceParams).

(** The five outcomes a request can have, before the response is
    built. *)
Lemma handle_request_outcome (self : MCPHandler S) (request : MCPRequest) :
  exists outcome self',
    handle_request self request
    = (match outcome with
       | Ok r => response_result (req_id request) r
       | Raise e =>
           response_error (req_id request)
             (mkMCPError (-32603) e
                (Some [("method", JString (method request))]))
       end, self').
Proof.
  unfold MCP.handle_request.
  match goal with
  | |- context [let '(o, s) := ?x in _] => destruct x as [outcome self']
  end.
  exists outcome, self'. destruct outcome; reflexivity.
Qed.

(** X22.  Every request gets an answer that carries the request's own
    id and version "2.0", and either a result and no error, or no
    result and an error whose code is -32603 and whose data names the
    method. *)
Theorem response_envelope (self : MCPHandler S) (request : MCPRequest) :
  let response := fst (handle_request self request) in
  id response = req_id request
  /\ jsonrpc response = "2.0"
  /\ ((is_Some (result response) /\ error response = None)
      \/ (result response = None
          /\ exists message,
               error response
               = Some (mkMCPError (-32603) message
                         (Some [("method", JString (method request))])))).
Proof.
  destruct (handle_request_outcome self request) as (outcome & self' & ->).
  destruct outcome as [r|e]; simpl.
  - split; [reflexivity|]. split; [reflexivity|]. left. eauto.
  - split; [reflexivity|]. split; [reflexivity|]. right. eauto.
Qed.

(** X23.  Before a session is initialized, a request for any method
    but "initialize" is answered with an error and leaves the handler as
    it was, for every implementation of the abstract methods: none of
    them is called.  For the four routed methods the message is
    "Session not initialized". *)
Theorem uninitialized_session_runs_nothing (self : MCPHandler S)
    (request : MCPRequest) :
  _initialized self = false ->
  method request <> "initialize" ->
  exists message,
    handle_request self request
    = (response_error (req_id request)
         (mkMCPError (-32603) message
            (Some [("method", JString (method request))])),
       self)
    /\ (method request ∈ ["tools/list"; "tools/call"; "resources/list";
                          "resources/read"] ->
        message = "Session not initialized").
Proof.
  intros Hi Hm. unfold MCP.handle_request.
  rewrite (proj2 (String.eqb_neq _ _) Hm).
  unfold _handle_list_tools, _handle_call_tool, _handle_list_resources,
    _handle_read_resource. rewrite Hi. cbn [negb].
  destruct (String.eqb (method request) "tools/list") eqn:E1;
    [eexists; split; [reflexivity | reflexivity]|].
  destruct (String.eqb (method request) "tools/call") eqn:E2;
    [eexists; split; [reflexivity | reflexivity]|].
  destruct (String.eqb (method request) "resources/list") eqn:E3;
    [eexists; split; [reflexivity | reflexivity]|].
  destruct (String.eqb (method request) "resources/read") eqn:E4;
    [eexists; split; [reflexivity | reflexivity]|].
  eexists. split; [reflexivity|].
  apply String.eqb_neq in E1, E2, E3, E4. intros Hin.
  repeat (apply elem_of_cons in Hin as [Hin | Hin]; [contradiction|]).
  apply elem_of_nil in Hin. contradiction.
Qed.

(** X24.  A request never changes the registered tools and never ends
    a session: once initialized, the handler stays initialized.  A
    session begins only with an "initialize" request that is answered
    without error. *)
Theorem session_is_monotone (self : MCPHandler S) (request : MCPRequest) :
  let out := handle_request self request in
  _tools (snd out) = _tools self
  /\ (_initialized self = true -> _initialized (snd out) = true)
  /\ (_initialized self = false -> _initialized (snd out) = true ->
      method request = "initialize" /\ error (fst out) = None).
Proof.
  assert (Hkeep : forall h : Result string Dict * MCPHandler S,
            _tools (snd h) = _tools self
            /\ _initialized (snd h) = _initialized self ->
            let out :=
              (let '(outcome, self0) := h in
               match outcome with
               | Ok r => (response_result (req_id request) r, self0)
               | Raise e =>
                   (response_error (req_id request)
                      (mkMCPError (-32603) e
                         (Some [("method", JString (method request))])),
                    self0)
               end) in
            _tools (snd out) = _tools self
            /\ (_initialized self = true -> _initialized (snd out) = true)
            /\ (_initialized self = false ->
                _initialized (snd out) = true ->
                method request = "initialize" /\ error (fst out) = None)).
  { intros [[r|e] self0] [Ht Hi]; simpl in *;
      (split; [exact Ht|]); (split; [congruence|]); congruence. }
  unfold MCP.handle_request.
  destruct (String.eqb_spec (method request) "initialize") as [Em|Em].
  - unfold _handle_initialize.
    destruct (InitializeParams _) as [p|e]; simpl.
    + destruct (initialize p (impl self)) as [[r|e] s]; simpl;
        (split; [reflexivity|]); (split; [auto|]); intros H1 H2;
        first [split; [exact Em | reflexivity] | congruence].
    + split; [reflexivity|]. split; [auto|]. intros H1 H2. congruence.
  - destruct (String.eqb (method request) "tools/list").
    { refine (Hkeep (_handle_list_tools list_tools self) _).
      unfold _handle_list_tools.
      destruct (negb (_initialized self)); [split; reflexivity|].
      destruct (list_tools (impl self)) as [r s]. split; reflexivity. }
    destruct (String.eqb (method request) "tools/call").
    { refine (Hkeep (_handle_call_tool call_tool CallToolParams self
                       (params_or_empty request)) _).
      unfold _handle_call_tool.
      destruct (negb (_initialized self)); [split; reflexivity|].
      destruct (CallToolParams _) as [[n a]|e]; [|split; reflexivity].
      destruct (negb (bool_decide _)); [split; reflexivity|].
      destruct (call_tool n a (impl self)) as [r s]. split; reflexivity. }
    destruct (String.eqb (method request) "resources/list").
    { refine (Hkeep (_handle_list_resources list_resources self) _).
      unfold _handle_list_resources.
      destruct (negb (_initialized self)); [split; reflexivity|].
      destruct (list_resources (impl self)) as [r s]. split; reflexivity. }
    destruct (String.eqb (method request) "resources/read").
    { refine (Hkeep (_handle_read_resource read_resource ReadResourceParams
                       self (params_or_empty request)) _).
      unfold _handle_read_resource.
      destruct (negb (_initialized self)); [split; reflexivity|].
      destruct (ReadResourceParams _) as [uri|e]; [|split; reflexivity].
      destruct (read_resource uri (impl self)) as [r s].
      split; reflexivity. }
    refine (Hkeep (Raise ("Unknown method: " +:+ method request), self) _).
    split; reflexivity.
Qed.

(** X25.  In an initialized session, a "tools/call" request reaches
    [call_tool] exactly when the tool is registered: the call of an
    unregistered name is answered "Unknown tool" and changes nothing,
    and a name goes through as soon as [register_tool] has registered
    it, whatever was registered before. *)
Theorem tools_call_needs_registration (self : MCPHandler S)
    (request : MCPRequest) (tool_name : string) (arguments : Dict) :
  _initialized self = true ->
  method request = "tools/call" ->
  CallToolParams (params_or_empty request) = Ok (tool_name, arguments) ->
  (get_tool self tool_name = None ->
   handle_request self request
   = (response_error (req_id request)
        (mkMCPError (-32603) ("Unknown tool: " +:+ tool_name)
           (Some [("method", JString "tools/call")])),
      self))
  /\ (forall tool, name tool = tool_name ->
        get_tool (register_tool self tool) tool_name = Some tool
        /\ handle_request (register_tool self tool) request
           = match call_tool tool_name arguments (impl self) with
             | (Ok r, s) =>
                 (response_result (req_id request) r,
                  set_impl (register_tool self tool) s)
             | (Raise e, s) =>
                 (response_error (req_id request)
                    (mkMCPError (-32603) e
                       (Some [("method", JString "tools/call")])),
                  set_impl (register_tool self tool) s)
             end).
Proof.
  intros Hi Hm Hp. unfold MCP.handle_request. rewrite Hm. simpl String.eqb.
  cbv iota. unfold _handle_call_tool. split.
  - intros Hn. unfold get_tool in Hn. rewrite Hi, Hp. cbn [negb].
    rewrite bool_decide_eq_false_2
      by (rewrite Hn; intros [x Hx]; discriminate Hx).
    reflexivity.
  - intros tool Hname. unfold get_tool, register_tool. simpl.
    rewrite Hname, lookup_insert_eq. split; [reflexivity|].
    rewrite Hi, Hp. cbn [negb].
    rewrite bool_decide_eq_true_2
      by (rewrite ?Hname, lookup_insert_eq; eauto).
    cbn [negb].
    unfold set_impl. simpl.
    destruct (call_tool tool_name arguments (impl self)) as [[r|e] s];
      reflexivity.
Qed.

End Handler.

Lemma uninitialized_session_runs_nothing_witness :
  Examples.nop_handle_request Examples.nop_handler
    Examples.tools_list_request
  = (response_error (IdInt 7)
       (mkMCPError (-32603) "Session not initialized"
          (Some [("method", JString "tools/list")])),
     Examples.nop_handler).
Proof.
  destruct (uninitialized_session_runs_nothing
              Examples.nop_initialize Examples.nop_list
              Examples.nop_call_tool Examples.nop_list
              Examples.nop_read_resource Examples.nop_params
              Examples.nop_call_params Examples.nop_read_params
              Examples.nop_handler Examples.tools_list_request
              eq_refl ltac:(discriminate))
    as (message & Hr & Hm).
  unfold Examples.nop_handle_request. rewrite Hr, Hm; [reflexivity|].
  apply list_elem_of_here.
Defined.

Lemma session_is_monotone_witness :
  _initialized (snd (Examples.nop_handle_request Examples.open_handler
                       Examples.tools_list_request)) = true.
Proof.
  apply (proj1 (proj2 (session_is_monotone
                         Examples.nop_initialize Examples.nop_list
                         Examples.nop_call_tool Examples.nop_list
                         Examples.nop_read_resource Examples.nop_params
                         Examples.nop_call_params Examples.nop_read_params
                         Examples.open_handler
                         Examples.tools_list_request))).
  reflexivity.
Defined.

Lemma tools_call_needs_registration_witness :
  fst (Examples.nop_handle_request Examples.open_handler
         Examples.tools_call_request)
  = response_error (IdInt 8)
      (mkMCPError (-32603) "Unknown tool: echo"
         (Some [("method", JString "tools/call")]))
  /\ fst (Examples.nop_handle_request
            (register_tool Examples.open_handler Examples.echo_tool)
            Examples.tools_call_request)
     = response_result (IdInt 8) [].
Proof.
  destruct (tools_call_needs_registration
              Examples.nop_initialize Examples.nop_list
              Examples.nop_call_tool Examples.nop_list
              Examples.nop_read_resource Examples.nop_params
              Examples.nop_call_params Examples.nop_read_params
              Examples.open_handler Examples.tools_call_request
              "echo" [] eq_refl eq_refl eq_refl)
    as [Hno Hyes].
  unfold Examples.nop_handle_request. split.
  - rewrite (Hno eq_refl). reflexivity.
  - rewrite (proj2 (Hyes Examples.echo_tool eq_refl)). reflexivity.
Defined.

End SessionProps.

(** ** The tools and the route, composed with the checks *)

Module ToolProps.

Import MCP.
Import QueryValidator.
Import SupabaseHandler.
Import SupabaseHandlerProps.
Import ValidationProps.

Section QueryDatabase.

Context {DB QueryResult : Type}.
Variable execute_query :
  string -> option JSON -> DB -> Result string QueryResult * DB.
Variable execution_line : QueryResult -> string.
Variable render_rows : QueryResult -> list string.

Local Abbreviation _handle_query_database :=
  (_handle_query_database execute_query execution_line render_rows).

(** X26.  When the server runs the validator without
    [allow_modifications], [force_execute] has no effect: two calls that
    agree on the query and its parameters have the same result and the
    same effect on the store, whatever their other arguments. *)
Theorem force_execute_needs_modifications (arguments arguments' : Dict)
    (db : Database (DB:=DB)) :
  dict_get "query" arguments = dict_get "query" arguments' ->
  dict_get "params" arguments = dict_get "params" arguments' ->
  _handle_query_database false arguments db
  = _handle_query_database false arguments' db.
Proof.
  intros Hq Hp. unfold SupabaseHandler._handle_query_database, get_query.
  rewrite <- Hq, <- Hp.
  destruct (dict_get "query" arguments) as [[| | |q| |]|]; try reflexivity.
  destruct (negb (PyStr.truthy (PyStr.strip q))); [reflexivity|].
  destruct (validate_query query_validator q false) as [v|[e]] eqn:Hv;
    [|reflexivity].
  destruct (validate_query_fields _ _ _ _ Hv) as (_ & _ & _ & _ & Hc & _).
  rewrite andb_false_r in Hc. rewrite Hc. reflexivity.
Qed.

(** X27.  What the tool shows of the risk level.  The confirmation
    prompt always names the level SAFE, after the block of warnings; and
    the result of an executed query never has a risk-level line: it is
    the warnings, if any, the execution line and the rendered rows. *)
Theorem risk_level_shown_is_safe (enable_query_validation : bool)
    (arguments : Dict) (db : Database (DB:=DB)) (query : string)
    (v : ValidationResult) :
  get_query arguments = Ok query ->
  validate_query query_validator query enable_query_validation = Ok v ->
  is_valid v = true ->
  let out := _handle_query_database enable_query_validation arguments db in
  let shown_warnings :=
    if nonempty (warnings v)
    then [text ("⚠️ Warnings:" +:+ nl +:+ bullets (warnings v))]
    else [] in
  (requires_confirmation v = true -> get_force_execute arguments = false ->
   nonempty (warnings v) = true
   /\ fst out
      = Ok (mkToolResult
              (shown_warnings
               ++ [text "🚨 This query requires confirmation due to its risk level: SAFE";
                   text "To execute this query, add 'force_execute': true to your arguments."])
              false))
  /\ (requires_confirmation v = false \/ get_force_execute arguments = true ->
      forall result st,
        execute_query (final_query_of v query) (dict_get "params" arguments)
          (db_state db) = (Ok result, st) ->
        fst out
        = Ok (mkToolResult
                (shown_warnings ++ [text (execution_line result)]
                 ++ render_rows result) false)).
Proof.
  intros Hq Hv Hvalid out shown_warnings. subst out shown_warnings.
  pose proof (validate_query_ok_nonblank _ _ _ _ Hv) as Hnb.
  destruct (validate_query_fields _ _ _ _ Hv)
    as (_ & Hw & Hval & _ & Hc & Hrisk).
  assert (Hsafe : risk_level v = SAFE).
  { apply Hrisk. rewrite Hval in Hvalid. destruct (issues v);
      [reflexivity | discriminate]. }
  unfold SupabaseHandler._handle_query_database.
  rewrite Hq, Hnb, Hv, Hvalid, Hsafe. cbn [negb]. cbv iota.
  split.
  - intros Hrc Hf. rewrite Hrc, Hf. cbn [negb andb].
    split; [|reflexivity].
    rewrite Hw. rewrite Hrc in Hc.
    destruct (_check_dangerous_operations _ _); [discriminate|].
    destruct enable_query_validation; [reflexivity | discriminate].
  - intros Hrun result st He.
    assert (Hgo : requires_confirmation v
                  && negb (get_force_execute arguments) = false).
    { destruct Hrun as [-> | ->]; [reflexivity | apply andb_false_r]. }
    rewrite Hgo. unfold database_service_execute_query. rewrite He.
    cbn [fst].
    change (negb (String.eqb (value SAFE) "safe")) with false. cbv iota.
    rewrite <- app_assoc. reflexivity.
Qed.

End QueryDatabase.

(** *** The CRUD tool *)

Lemma crud_call_allowed (py_str : JSON -> string) (arguments : Dict)
    (operation : string) (c : ApiCall) :
  truthy (get_or_none "table" arguments) = true ->
  crud_call py_str arguments = inr (operation, c) ->
  call_allowed c /\ c <> api_initialize.
Proof.
  intros Ht. unfold crud_call.
  repeat match goal with
         | |- context [if ?b then _ else _] => destruct b eqn:?
         end; intros H; try discriminate; injection H as <- <-;
    simpl;
    repeat match goal with
           | H : negb _ = false |- _ => apply negb_false_iff in H
           end;
    (split; [auto | discriminate]).
Qed.

Section Crud.

Context {API : Type}.
Variable is_initialized : API -> bool.
Variable initialize : API -> Result string unit * API.
Variable call : ApiCall -> API -> Result string CRUDResult * API.
Variable py_str : JSON -> string.

Local Abbreviation _handle_crud_operations :=
  (_handle_crud_operations is_initialized initialize call py_str).

(** X28.  What the CRUD tool sends to the API service: at most the
    initialization, followed by at most one data call, and that call has
    passed the argument checks.  No update and no delete is sent without
    filters, no insert, update or upsert without data, and nothing for
    an empty table name.  A result that is not an error is returned
    only after a data call. *)
Theorem crud_calls_pass_the_checks (arguments : Dict) (api : Api (API:=API)) :
  let out := _handle_crud_operations arguments api in
  exists init data,
    api_calls (snd out) = api_calls api ++ init ++ data
    /\ (init = [] \/ init = [api_initialize])
    /\ (data = []
        \/ exists c, data = [c] /\ c <> api_initialize /\ call_allowed c)
    /\ (is_error (fst out) = false -> data <> []).
Proof.
  unfold SupabaseHandler._handle_crud_operations. cbv zeta.
  destruct (negb (truthy (get_or_none "operation" arguments))
            || negb (truthy (get_or_none "table" arguments))) eqn:E.
  { exists [], []. simpl. rewrite app_nil_r.
    split; [reflexivity|]. split; [auto|]. split; [auto | discriminate]. }
  apply orb_false_elim in E as [_ Et]. apply negb_false_iff in Et.
  assert (Hrun : forall api1 init,
            api_calls api1 = api_calls api ++ init ->
            let out :=
              match crud_call py_str arguments with
              | inl refused => (refused, api1)
              | inr (operation, c) =>
                  match supabase_api_service_call call c api1 with
                  | (Raise e, api2) => (crud_failed e, api2)
                  | (Ok result, api2) =>
                      match format_crud_result operation result with
                      | Ok r => (r, api2)
                      | Raise e => (crud_failed e, api2)
                      end
                  end
              end in
            exists data,
              api_calls (snd out) = api_calls api ++ init ++ data
              /\ (data = []
                  \/ exists c, data = [c] /\ c <> api_initialize
                               /\ call_allowed c)
              /\ (is_error (fst out) = false -> data <> [])).
  { intros api1 init Hcalls.
    destruct (crud_call py_str arguments) as [refused|[operation c]] eqn:Ec.
    - exists []. simpl. rewrite app_nil_r. split; [exact Hcalls|].
      split; [auto|]. revert Ec. unfold crud_call.
      repeat match goal with
             | |- context [if ?b then _ else _] => destruct b
             end; intros H; try discriminate; injection H as <-;
        discriminate.
    - destruct (crud_call_allowed py_str arguments operation c Et Ec)
        as [Ha Hne].
      exists [c]. unfold supabase_api_service_call.
      destruct (call c (api_state api1)) as [[result|e] st]; simpl;
        [destruct (format_crud_result operation result); simpl|];
        (split; [rewrite Hcalls, <- app_assoc; reflexivity|]);
        (split; [right; eauto|]); discriminate. }
  destruct (is_initialized (api_state api)).
  - destruct (Hrun api []) as (data & H1 & H2 & H3);
      [symmetry; apply app_nil_r|].
    exists [], data. split; [exact H1|]. split; [auto|].
    split; [exact H2 | exact H3].
  - unfold supabase_api_service_initialize.
    destruct (initialize (api_state api)) as [[[]|e] st].
    + destruct (Hrun (mkApi st (api_calls api ++ [api_initialize]))
                  [api_initialize] eq_refl)
        as (data & H1 & H2 & H3).
      exists [api_initialize], data. split; [exact H1|].
      split; [auto|]. split; [exact H2 | exact H3].
    + exists [api_initialize], []. simpl.
      split; [reflexivity|]. split; [auto|]. split; [auto | discriminate].
Qed.

(** X29.  A successful operation that returns rows is reported as a
    failure: the service has carried out the call, and the tool answers
    with the error text of the [NameError] that formatting the rows
    raises.  Only a successful operation without data is reported as
    completed. *)
Theorem crud_rows_are_reported_as_failure (arguments : Dict)
    (api : Api (API:=API)) (operation : string) (c : ApiCall)
    (result : CRUDResult) (st : API) :
  truthy (get_or_none "operation" arguments) = true ->
  truthy (get_or_none "table" arguments) = true ->
  is_initialized (api_state api) = true ->
  crud_call py_str arguments = inr (operation, c) ->
  call c (api_state api) = (Ok result, st) ->
  success result = true ->
  let out := _handle_crud_operations arguments api in
  snd out = mkApi st (api_calls api ++ [c])
  /\ (truthy (res_data result) = true ->
      fst out
      = mkToolResult
          [text "CRUD operation failed: name 'json' is not defined"] true)
  /\ (truthy (res_data result) = false ->
      is_error (fst out) = false
      /\ head (content (fst out))
         = Some (text ("✅ " +:+ PyStr.upper operation
                       +:+ " operation completed successfully"))).
Proof.
  intros Ho Ht Hi Hc Hcall Hs.
  unfold SupabaseHandler._handle_crud_operations. cbv zeta.
  rewrite Ho, Ht, Hi, Hc. cbn [negb orb].
  unfold supabase_api_service_call. rewrite Hcall.
  unfold format_crud_result. rewrite Hs.
  destruct (truthy (res_data result)); cbn [fst snd].
  - split; [reflexivity|]. split; [reflexivity | discriminate].
  - split; [reflexivity|]. split; [discriminate|]. intros _.
    split; [reflexivity|]. destruct (res_count result); reflexivity.
Qed.

End Crud.

(** An insert that succeeds without returning rows is reported as
    completed, after its one call. *)
Lemma crud_calls_pass_the_checks_witness :
  let out := Examples.nop_crud_operations Examples.empty_call
               Examples.insert_arguments in
  is_error (fst out) = false
  /\ exists init data,
       api_calls (snd out) = init ++ data /\ data <> [].
Proof.
  intros out.
  destruct (crud_calls_pass_the_checks (fun _ => true) (fun s => (Ok tt, s))
              Examples.empty_call (fun _ => "?")
              Examples.insert_arguments (mkApi tt []))
    as (init & data & Hcalls & _ & _ & Hok).
  split; [reflexivity|].
  exists init, data. split; [exact Hcalls|]. apply Hok. reflexivity.
Defined.

(** The same insert, when the service returns the inserted row. *)
Lemma crud_rows_are_reported_as_failure_witness :
  Examples.nop_crud_operations Examples.rows_call Examples.insert_arguments
  = (mkToolResult
       [text "CRUD operation failed: name 'json' is not defined"] true,
     mkApi tt [api_insert (JString "users")
                 (JObject [("name", JString "a")]) JNull]).
Proof.
  destruct (crud_rows_are_reported_as_failure (fun _ => true)
              (fun s => (Ok tt, s)) Examples.rows_call (fun _ => "?")
              Examples.insert_arguments (mkApi tt []) "insert"
              (api_insert (JString "users")
                 (JObject [("name", JString "a")]) JNull)
              (mkCRUDResult true (JArray [JObject [("id", JNumber 1)]])
                 (Some 1) None)
              tt eq_refl eq_refl eq_refl eq_refl eq_refl eq_refl)
    as (Hs & Hf & _).
  unfold Examples.nop_crud_operations.
  rewrite (surjective_pairing (_handle_crud_operations _ _ _ _ _ _)).
  rewrite Hs, (Hf eq_refl). reflexivity.
Defined.

Lemma force_execute_needs_modifications_witness :
  Examples.nop_query_database false
    [("query", JString "DELETE FROM x"); ("force_execute", JBool true)]
  = Examples.nop_query_database false [("query", JString "DELETE FROM x")].
Proof.
  apply (force_execute_needs_modifications Examples.nop_execute_query
           (fun _ => "executed") (fun _ => [])); reflexivity.
Defined.

Lemma risk_level_shown_is_safe_witness :
  fst (Examples.nop_query_database true [("query", JString "DELETE FROM x")])
  = Ok (mkToolResult
          [text ("⚠️ Warnings:" +:+ nl
                 +:+ bullets ["Dangerous operation detected: DELETE"]);
           text "🚨 This query requires confirmation due to its risk level: SAFE";
           text "To execute this query, add 'force_execute': true to your arguments."]
          false).
Proof.
  pose (v := mkValidationResult true SAFE []
               ["Dangerous operation detected: DELETE"]
               (Some "DELETE FROM x") true).
  assert (Hv : validate_query query_validator "DELETE FROM x" true = Ok v)
    by (vm_compute; reflexivity).
  destruct (risk_level_shown_is_safe Examples.nop_execute_query
              (fun _ => "executed") (fun _ => []) true
              [("query", JString "DELETE FROM x")] (mkDatabase tt [])
              "DELETE FROM x" v eq_refl Hv eq_refl)
    as (Hconfirm & _).
  destruct (Hconfirm eq_refl eq_refl) as [_ Hout].
  unfold Examples.nop_query_database. rewrite Hout. reflexivity.
Defined.

(** *** The route *)

Import Http.
Import Server.

(** X30.  A client whose address is in the blocked set gets no 429
    from [/mcp/tools]: the route catches the blocked-address exception
    with its general handler and returns an error body in a normal
    response.  Nothing but the rate limiter is called. *)
Theorem blocked_client_gets_an_error_body
    (ip_address : string -> option RateLimit.IPAddress)
    (jwt_decode : string -> option Auth.Claims)
    (settings : Auth.Settings) (tools_dump : JSON)
    (rate_limit_per_minute : Z) (w : World) (request : Request) (now : Z) :
  RateLimit.reachable ip_address rate_limit_per_minute (security w) ->
  RateLimit._get_client_ip ip_address request
  ∈ RateLimit._blocked_ips (security w) ->
  let out := list_tools ip_address jwt_decode settings tools_dump
               w request now in
  fst out = ReturnError "429: IP address is temporarily blocked"
  /\ calls (snd out) = calls w ++ [RateLimiter_check]
  /\ token_cache (snd out) = token_cache w.
Proof.
  intros Hreach Hin.
  destruct (RateLimitProps.reachable_invariant ip_address _ _ Hreach)
    as [_ Ht].
  unfold list_tools, called. cbn [security token_cache calls].
  rewrite (RateLimitProps.check_rate_limit_blocked_branch ip_address
             (security w) request now (Ht _ Hin) Hin).
  cbn. repeat split.
Qed.

Lemma blocked_client_gets_an_error_body_witness :
  fst (Examples.nop_list_tools Examples.blocked_world
         Examples.public_request (RateLimit.minutes 10))
  = ReturnError "429: IP address is temporarily blocked".
Proof.
  exact (proj1 (blocked_client_gets_an_error_body RateLimit.parse_ipv4
                  Examples.jwt_decode_one Examples.no_settings (JArray [])
                  1 Examples.blocked_world Examples.public_request
                  (RateLimit.minutes 10)
                  RateLimitProps.blocked_middleware_reachable
                  RateLimitProps.public_peer_blocked)).
Defined.

End ToolProps.
